(** * K_media client: identity resolution, request injection, API helpers

    A shallow embedding of the identity-related parts of the browser client:
    - [static/js/user-id-patch.js]: [getUserId], the patched [window.fetch]
      and the patched [XMLHttpRequest.prototype.open/send];
    - the API client ([ApiClient], [ChatAPI], [ApiUtils]);
    - the Telegram adapter's [isInTelegram] / [getTelegramUser];
    - [static/js/chat.js]: [ChatManager.updateUserId], the response handlers
      of [loadChatHistory] and [sendMessage], and [handleImageSelect].

    JavaScript values are an inductive type, exceptions a [Result], and the
    browser globals the code reads and writes (the Mini-App host object,
    [localStorage], the console, the requests handed to the network) a
    [World] record threaded through a state-and-exception monad. *)

From Stdlib Require Import ZArith String Ascii List Bool Lia DecimalString.
From Stdlib Require DecimalZ.
From stdpp Require Import base option gmap strings list.

Open Scope string_scope.
Open Scope list_scope.
Open Scope Z_scope.

(** ** Strings *)

(** [s.startsWith(p)] *)
Fixpoint startsWith (s p : string) {struct p} : bool :=
  match p, s with
  | EmptyString, _ => true
  | String a p', String b s' => Ascii.eqb a b && startsWith s' p'
  | String _ _, EmptyString => false
  end.

(** [s.includes(sub)]: [sub] occurs somewhere in [s]. *)
Fixpoint includes (s sub : string) : bool :=
  startsWith s sub ||
  match s with
  | EmptyString => false
  | String _ s' => includes s' sub
  end.

(** [n.toString()] for an integral number. *)
Definition Z_toString (n : Z) : string := NilZero.string_of_int (Z.to_int n).

(** ** JavaScript values and exceptions *)

(** The values that [JSON.parse] and [response.json()] produce. [undefined]
    is not a JSON value: a property read gives an [option], [None] standing
    for [undefined]. Objects keep their properties in insertion order. *)
Unset Elimination Schemes.
Inductive JsValue : Type :=
| JNull
| JBool (b : bool)
| JNum (n : Z)
| JStr (s : string)
| JArr (l : list JsValue)
| JObj (o : list (string * JsValue)).
Set Elimination Schemes.

(** Induction on values, through the lists of elements and properties. *)
Section JsValue_induction.
Variable P : JsValue -> Prop.
Hypothesis Hnull : P JNull.
Hypothesis Hbool : forall b, P (JBool b).
Hypothesis Hnum : forall n, P (JNum n).
Hypothesis Hstr : forall s, P (JStr s).
Hypothesis Harr : forall l, Forall P l -> P (JArr l).
Hypothesis Hobj : forall o, Forall (fun kv => P (snd kv)) o -> P (JObj o).

Fixpoint JsValue_ind (v : JsValue) : P v :=
  match v with
  | JNull => Hnull
  | JBool b => Hbool b
  | JNum n => Hnum n
  | JStr s => Hstr s
  | JArr l =>
      Harr l ((fix all (l : list JsValue) : Forall P l :=
                 match l with
                 | [] => List.Forall_nil P
                 | x :: r => List.Forall_cons P x r (JsValue_ind x) (all r)
                 end) l)
  | JObj o =>
      Hobj o ((fix all (o : list (string * JsValue)) : Forall (fun kv => P (snd kv)) o :=
                 match o with
                 | [] => List.Forall_nil _
                 | kv :: r => List.Forall_cons _ kv r (JsValue_ind (snd kv)) (all r)
                 end) o)
  end.
End JsValue_induction.

Inductive JsError : Type :=
| SecurityError        (* storage access refused *)
| QuotaExceededError   (* [localStorage.setItem] with no room left *)
| SyntaxError          (* [JSON.parse] *)
| TypeError (message : string)
| Error (message : string).   (* [new Error(message)] *)

Inductive Result (A : Type) : Type :=
| Return (a : A)
| Throw (e : JsError).
Arguments Return {A} a.
Arguments Throw {A} e.

(** JavaScript truthiness. *)
Definition truthy (v : JsValue) : bool :=
  match v with
  | JNull => false
  | JBool b => b
  | JNum n => negb (n =? 0)
  | JStr s => negb (String.eqb s "")
  | JArr _ | JObj _ => true
  end.

Definition truthy_opt (v : option JsValue) : bool :=
  match v with
  | Some v => truthy v
  | None => false
  end.

(** Own properties of an object. *)
Fixpoint assoc_get {A} (k : string) (o : list (string * A)) : option A :=
  match o with
  | [] => None
  | (k', v) :: o' => if String.eqb k k' then Some v else assoc_get k o'
  end.

(** [o[k] = v]: an existing property keeps its place, a new one goes last. *)
Fixpoint assoc_set {A} (k : string) (v : A) (o : list (string * A))
  : list (string * A) :=
  match o with
  | [] => [(k, v)]
  | (k', v') :: o' =>
      if String.eqb k k' then (k', v) :: o' else (k', v') :: assoc_set k v o'
  end.

(** How many entries of [o] are named [k]. *)
Definition count_key {A} (k : string) (o : list (string * A)) : nat :=
  length (filter (fun kv => String.eqb k (fst kv) = true) o).

(** [v.k] for a property name [k] that no prototype defines (the names this
    client reads: [user_id], [success], [response], [error], [history],
    [role], [parts], [text]). Reading a property of [null] throws; a
    primitive or an array has no such property. *)
Definition get_prop (v : JsValue) (k : string) : Result (option JsValue) :=
  match v with
  | JNull => Throw (TypeError "Cannot read properties of null")
  | JObj o => Return (assoc_get k o)
  | JBool _ | JNum _ | JStr _ | JArr _ => Return None
  end.

(** [v.k = x] in strict mode, for the same property names. Assigning to a
    property of a primitive throws; an array accepts the property, but it is
    not an element and [JSON.stringify] does not see it, so the JSON value
    of the array is unchanged. *)
Definition set_prop (v : JsValue) (k : string) (x : JsValue) : Result JsValue :=
  match v with
  | JObj o => Return (JObj (assoc_set k x o))
  | JArr l => Return (JArr l)
  | JNull | JBool _ | JNum _ | JStr _ => Throw (TypeError "Cannot create property")
  end.

(** [String(v)], as in ['...' + v]; [None] is [undefined]. *)
Fixpoint String_of (v : JsValue) : string :=
  match v with
  | JNull => "null"
  | JBool true => "true"
  | JBool false => "false"
  | JNum n => Z_toString n
  | JStr s => s
  | JArr l =>
      (fix join_elements (l : list JsValue) : string :=
         match l with
         | [] => ""
         | x :: rest =>
             (match x with JNull => "" | _ => String_of x end) +:+
             (match rest with [] => "" | _ :: _ => "," +:+ join_elements rest end)
         end) l
  | JObj _ => "[object Object]"
  end.

Definition String_of_opt (v : option JsValue) : string :=
  match v with
  | Some v => String_of v
  | None => "undefined"
  end.

(** ** The browser environment *)

(** The Mini-App host object [window.Telegram.WebApp]. *)
Record TgUser := { tg_id : Z }.   (* [user.id], a number *)
Record InitDataUnsafe := { user : option TgUser }.
Record WebApp := {
  initData : string;
  initDataUnsafe : option InitDataUnsafe
}.

(** [localStorage]: its items, and the two ways an access fails. *)
Record Storage := {
  items : gmap string string;
  denied : bool;    (* every access throws a SecurityError *)
  full : bool       (* [setItem] throws a QuotaExceededError *)
}.

Inductive LogEntry : Type :=
| ConsoleLog (message : string) (arg : string)
| ConsoleError (message : string) (e : JsError).

(** A [File]: its name, declared MIME type and size in bytes, and the
    pixel dimensions of the picture in it when the browser can decode one. *)
Record File := {
  file_name : string;
  file_type : string;
  file_size : Z;
  file_image : option (Z * Z)
}.

(** A request body and the options object of a [fetch] call. *)
Inductive FormValue : Type :=
| FVString (s : string)
| FVFile (f : File).

Inductive Body : Type :=
| BodyUndefined
| BodyString (s : string)
| BodyFormData (entries : list (string * FormValue)).

Record Options := {
  method : option string;
  headers : option (gmap string string);
  body : Body
}.

(** What reaches the network: calls of the original [fetch] and of the
    original [XMLHttpRequest.prototype.send]. *)
Inductive Sent : Type :=
| FetchCall (url : string) (options : Options)
| XhrSend (xhr_method : string) (xhr_url : string) (xhr_body : Body).

(** The Environment Adapter's module state, fixed when its script loads:
    [let tg = window.Telegram?.WebApp; let isInTelegram = !!tg && !!tg.initData].
    Neither variable is assigned again. [tg] is the host object that
    [window.Telegram.WebApp] was then, in the state that object has now:
    [window.Telegram] may since have been removed or bound to another
    object, and the adapter still reads the one it captured. The flag is
    set only when there was an object to capture. *)
Inductive Adapter : Type :=
| Standalone (tg : option WebApp)   (* [isInTelegram] is [false] *)
| InTelegram (tg : WebApp).         (* [isInTelegram] is [true] *)

Definition isInTelegram (a : Adapter) : bool :=
  match a with
  | InTelegram _ => true
  | Standalone _ => false
  end.

Definition tg (a : Adapter) : option WebApp :=
  match a with
  | InTelegram tg => Some tg
  | Standalone tg => tg
  end.

Record World := {
  Telegram : option WebApp;         (* [window.Telegram.WebApp], when defined *)
  TelegramWebApp : option Adapter;  (* [window.TelegramWebApp], when loaded *)
  localStorage : Storage;
  now : Z;                          (* [Date.now()] *)
  random36 : string;                (* [Math.random().toString(36).substring(2, 15)] *)
  console : list LogEntry;
  network : list Sent
}.

(** ** A state-and-exception monad over the world

    A thrown exception keeps the state changes made before it. *)
Definition Js (A : Type) : Type := World -> World * Result A.

Definition js_ret {A} (a : A) : Js A := fun w => (w, Return a).
Definition js_throw {A} (e : JsError) : Js A := fun w => (w, Throw e).
Definition js_bind {A B} (m : Js A) (k : A -> Js B) : Js B :=
  fun w =>
    match m w with
    | (w', Return a) => k a w'
    | (w', Throw e) => (w', Throw e)
    end.
(** [try { m } catch (e) { h e }] *)
Definition js_try {A} (m : Js A) (h : JsError -> Js A) : Js A :=
  fun w =>
    match m w with
    | (w', Return a) => (w', Return a)
    | (w', Throw e) => h e w'
    end.
Definition js_lift {A} (r : Result A) : Js A := fun w => (w, r).

Notation "x <- m ;; k" := (js_bind m (fun x => k))
  (at level 100, m at next level, right associativity).
Notation "m ;;; k" := (js_bind m (fun _ => k))
  (at level 100, right associativity).

Definition result_of {A} (m : Js A) (w : World) : Result A := snd (m w).
Definition world_after {A} (m : Js A) (w : World) : World := fst (m w).

Definition set_localStorage (st : Storage) (w : World) : World :=
  {| Telegram := Telegram w; TelegramWebApp := TelegramWebApp w;
     localStorage := st; now := now w; random36 := random36 w;
     console := console w; network := network w |}.

Definition add_console (e : LogEntry) (w : World) : World :=
  {| Telegram := Telegram w; TelegramWebApp := TelegramWebApp w;
     localStorage := localStorage w; now := now w; random36 := random36 w;
     console := console w ++ [e]; network := network w |}.

Definition add_network (s : Sent) (w : World) : World :=
  {| Telegram := Telegram w; TelegramWebApp := TelegramWebApp w;
     localStorage := localStorage w; now := now w; random36 := random36 w;
     console := console w; network := network w ++ [s] |}.

Definition console_log (message arg : string) : Js unit :=
  fun w => (add_console (ConsoleLog message arg) w, Return tt).
Definition console_error (message : string) (e : JsError) : Js unit :=
  fun w => (add_console (ConsoleError message e) w, Return tt).

(** [localStorage.getItem(k)] *)
Definition getItem (k : string) : Js (option string) :=
  fun w =>
    if denied (localStorage w) then (w, Throw SecurityError)
    else (w, Return (items (localStorage w) !! k)).

(** [localStorage.setItem(k, v)] *)
Definition setItem (k v : string) : Js unit :=
  fun w =>
    let st := localStorage w in
    if denied st then (w, Throw SecurityError)
    else if full st then (w, Throw QuotaExceededError)
    else (set_localStorage
            {| items := <[k:=v]> (items st); denied := denied st; full := full st |} w,
          Return tt).

(** ** user-id-patch.js: [window.getUserId] *)

(** The test of lines 12-14: the host object is there and its
    [initDataUnsafe?.user] has a truthy [id]. *)
Definition telegram_user (w : World) : option TgUser :=
  match Telegram w with
  | Some app =>
      match initDataUnsafe app with
      | Some d =>
          match user d with
          | Some u => if tg_id u =? 0 then None else Some u
          | None => None
          end
      | None => None
      end
  | None => None
  end.

(** Lines 22-27: a fresh web identity, written to the storage. *)
Definition generateUserId : Js string :=
  fun w =>
    (let userId := "web_" +:+ Z_toString (now w) +:+ "_" +:+ random36 w in
     setItem "chat_user_id" userId ;;;
     console_log "Generated new user_id:" userId ;;;
     js_ret userId) w.

Definition getUserId : Js string :=
  fun w =>
    match telegram_user w with
    | Some tgUser => (w, Return ("tg_" +:+ Z_toString (tg_id tgUser)))
    | None =>
        (stored <- getItem "chat_user_id" ;;
         match stored with
         | Some userId =>
             (* [!userId]: the empty string is falsy too *)
             if String.eqb userId "" then generateUserId else js_ret userId
         | None => generateUserId
         end) w
    end.

(** ** [JSON.parse] and [JSON.stringify]

    The two built-ins are an interface: a parser that fails on some strings
    (a SyntaxError), among them the empty one, and a printer, related by
    the round trip on the values the parser can produce. [wf_value]
    describes those: within one object no property name occurs twice. *)

Fixpoint unique_keys (ks : list string) : bool :=
  match ks with
  | [] => true
  | k :: ks' => negb (existsb (String.eqb k) ks') && unique_keys ks'
  end.

Fixpoint wf_value (v : JsValue) : bool :=
  match v with
  | JArr l => forallb wf_value l
  | JObj o => unique_keys (map fst o) && forallb (fun kv => wf_value (snd kv)) o
  | JNull | JBool _ | JNum _ | JStr _ => true
  end.

Class JSON := {
  JSON_parse : string -> option JsValue;      (* [None]: a SyntaxError *)
  JSON_stringify : JsValue -> string;
  JSON_parse_empty : JSON_parse "" = None;   (* the empty text is no JSON *)
  JSON_parse_wf : forall s v, JSON_parse s = Some v -> wf_value v = true;
  JSON_parse_stringify :
    forall v, wf_value v = true -> JSON_parse (JSON_stringify v) = Some v
}.

(** ** user-id-patch.js: the patched [window.fetch] *)

(** [formData.has(name)] and [formData.append(name, value)] *)
Module FormData.

Definition has (entries : list (string * FormValue)) (name : string) : bool :=
  existsb (fun e => String.eqb (fst e) name) entries.

Definition append (entries : list (string * FormValue)) (name : string) (v : FormValue)
  : list (string * FormValue) :=
  entries ++ [(name, v)].

End FormData.

Definition with_body (options : Options) (b : Body) : Options :=
  {| method := method options; headers := headers options; body := b |}.

(** [url.includes('/api/chat') && options.method === 'POST'] *)
Definition is_chat_post (url : string) (options : Options) : bool :=
  includes url "/api/chat" &&
  match method options with
  | Some m => String.eqb m "POST"
  | None => false
  end.

(** [options.headers && options.headers['Content-Type'] === 'application/json'] *)
Definition is_json_request (options : Options) : bool :=
  match headers options with
  | Some h =>
      match h !! "Content-Type" with
      | Some ct => String.eqb ct "application/json"
      | None => false
      end
  | None => false
  end.

(** [JSON.parse(options.body)]: [undefined] is no JSON text. The FormData
    case is not reached by the caller below. *)
Definition parse_body {json : JSON} (b : Body) : Js JsValue :=
  match b with
  | BodyString s =>
      match JSON_parse s with
      | Some v => js_ret v
      | None => js_throw SyntaxError
      end
  | BodyUndefined | BodyFormData _ => js_throw SyntaxError
  end.

(** Lines 37-59 of the patch. The options object is mutated in place; the
    result is that object as the caller and the original [fetch] see it
    afterwards. In the JSON branch the body is assigned before the last
    statement of the [try] block, so the handler of that statement keeps
    the new body. *)
Definition inject_user_id {json : JSON} (url : string) (options : Options) : Js Options :=
  if is_chat_post url options then
    match body options with
    | BodyFormData entries =>
        if negb (FormData.has entries "user_id") then
          uid <- getUserId ;;
          let options' :=
            with_body options
              (BodyFormData (FormData.append entries "user_id" (FVString uid))) in
          uid' <- getUserId ;;
          console_log "Added user_id to FormData:" uid' ;;;
          js_ret options'
        else js_ret options
    | BodyUndefined | BodyString _ =>
        if is_json_request options then
          js_try
            (data <- parse_body (body options) ;;
             current <- js_lift (get_prop data "user_id") ;;
             if negb (truthy_opt current) then
               uid <- getUserId ;;
               data' <- js_lift (set_prop data "user_id" (JStr uid)) ;;
               let options' := with_body options (BodyString (JSON_stringify data')) in
               js_try
                 (uid' <- getUserId ;;
                  console_log "Added user_id to JSON:" uid' ;;;
                  js_ret options')
                 (fun e => console_error "Error parsing JSON body:" e ;;; js_ret options')
             else js_ret options)
            (fun e => console_error "Error parsing JSON body:" e ;;; js_ret options)
        else js_ret options
    end
  else js_ret options.

(** [originalFetch.call(this, url, options)]: the request leaves. *)
Definition originalFetch (url : string) (options : Options) : Js unit :=
  fun w => (add_network (FetchCall url options) w, Return tt).

(** The patched [window.fetch]. The response arrives later and is no part
    of this call; the result is the options object after the call. *)
Definition fetch {json : JSON} (url : string) (options : Options) : Js Options :=
  options' <- inject_user_id url options ;;
  originalFetch url options' ;;;
  js_ret options'.

(** ** user-id-patch.js: the patched [XMLHttpRequest] *)

Module XMLHttpRequest.

Record XHR := {
  _url : option string;                (* set by the patched [open] *)
  opened : option (string * string)    (* method and URL the native [open] took *)
}.

Definition new : XHR := {| _url := None; opened := None |}.

(** Lines 77-80. *)
Definition open (xhr : XHR) (meth url : string) : XHR :=
  {| _url := Some url; opened := Some (meth, url) |}.

(** [originalXHRSend.call(this, body)]: sending an unopened request throws. *)
Definition originalXHRSend (xhr : XHR) (b : Body) : Js unit :=
  fun w =>
    match opened xhr with
    | Some (meth, url) => (add_network (XhrSend meth url b) w, Return tt)
    | None => (w, Throw (Error "InvalidStateError"))
    end.

(** Lines 67-72: the body object after the patch has looked at it. *)
Definition inject_user_id (xhr : XHR) (b : Body) : Js Body :=
  match _url xhr with
  | Some u =>
      if negb (String.eqb u "") && includes u "/api/chat" then
        match b with
        | BodyFormData entries =>
            if negb (FormData.has entries "user_id") then
              uid <- getUserId ;;
              let b' := BodyFormData (FormData.append entries "user_id" (FVString uid)) in
              uid' <- getUserId ;;
              console_log "Added user_id to XMLHttpRequest FormData:" uid' ;;;
              js_ret b'
            else js_ret b
        | BodyUndefined | BodyString _ => js_ret b
        end
      else js_ret b
  | None => js_ret b
  end.

(** Lines 66-74. The result is the body object after the call. *)
Definition send (xhr : XHR) (b : Body) : Js Body :=
  b' <- inject_user_id xhr b ;;
  originalXHRSend xhr b' ;;;
  js_ret b'.

End XMLHttpRequest.

(** ** The Telegram adapter *)

(** [getTelegramUser()], lines 662-673 of the adapter: the user on the
    host object the adapter captured, when the adapter found itself inside
    Telegram at load time. The object [window.Telegram.WebApp] of the
    present is not read. *)
Definition getTelegramUser (a : Adapter) : option TgUser :=
  match a with
  | InTelegram tg =>
      match initDataUnsafe tg with
      | Some d => user d
      | None => None
      end
  | Standalone _ => None
  end.

(** The adapter's state when its script loads in world [w]. *)
Definition load_adapter (w : World) : Adapter :=
  match Telegram w with
  | Some tg =>
      if negb (String.eqb (initData tg) "") then InTelegram tg else Standalone (Some tg)
  | None => Standalone None
  end.

(** ** The API client

    The client's progress messages on the console are left out; the
    console of the model holds what the identity patch writes. *)

Definition API_BASE_URL : string := "".

Module ApiClient.

(** Lines 19-29: [Some id] for the returned string, [None] for [null]. *)
Definition telegram_id (w : World) : option string :=
  match TelegramWebApp w with
  | Some a =>
      if isInTelegram a then
        match getTelegramUser a with
        | Some u => if tg_id u =? 0 then None else Some (Z_toString (tg_id u))
        | None => None
        end
      else None
  | None => None
  end.

Definition getTelegramUserId : Js (option string) :=
  fun w => (w, Return (telegram_id w)).

(** Lines 34-44. *)
Definition getUserHeaders : Js (gmap string string) :=
  telegramUserId <- getTelegramUserId ;;
  match telegramUserId with
  | Some i => js_ret (<["X-Telegram-User-Id" := i]> (∅ : gmap string string))
  | None => js_ret (∅ : gmap string string)
  end.

(** [options.body && !(options.body instanceof FormData)] *)
Definition is_plain_body (b : Body) : bool :=
  match b with
  | BodyString s => negb (String.eqb s "")
  | BodyUndefined | BodyFormData _ => false
  end.

(** Lines 49-79 and the [catch] of lines 93-96: everything up to the
    [await] of the [fetch] call. The result is the options object handed
    to [fetch], as it is after the call. *)
Definition makeRequest {json : JSON} (endpoint : string) (options : Options) : Js Options :=
  let url := API_BASE_URL +:+ endpoint in
  userHeaders <- getUserHeaders ;;
  let defaultHeaders :=
    if is_plain_body (body options)
    then <["Content-Type" := "application/json"]> userHeaders
    else userHeaders in
  let requestOptions :=
    {| method := method options;
       headers := Some (default ∅ (headers options) ∪ defaultHeaders);
       body := body options |} in
  js_try (fetch url requestOptions) (fun e => js_throw e).

(** [new URLSearchParams(params).toString()], for names and values made of
    characters the encoding leaves alone (letters, digits, [-], [_], [.]),
    which is all this client passes. *)
Fixpoint URLSearchParams_toString (params : list (string * string)) : string :=
  match params with
  | [] => ""
  | [(k, v)] => k +:+ "=" +:+ v
  | (k, v) :: rest => k +:+ "=" +:+ v +:+ "&" +:+ URLSearchParams_toString rest
  end.

(** Lines 102-113. *)
Definition get {json : JSON} (endpoint : string) (params : list (string * string))
  : Js Options :=
  telegramUserId <- getTelegramUserId ;;
  let params :=
    match telegramUserId with
    | Some i => assoc_set "telegram_user_id" i params
    | None => params
    end in
  let searchParams := URLSearchParams_toString params in
  let urlWithParams :=
    if String.eqb searchParams "" then endpoint
    else endpoint +:+ "?" +:+ searchParams in
  makeRequest urlWithParams {| method := Some "GET"; headers := None; body := BodyUndefined |}.

(** [typeof data === 'object'], for a value that is not [null]. *)
Definition is_object (v : JsValue) : bool :=
  match v with
  | JObj _ | JArr _ => true
  | JNull | JBool _ | JNum _ | JStr _ => false
  end.

(** Lines 118-129. *)
Definition post {json : JSON} (endpoint : string) (data : JsValue) : Js Options :=
  telegramUserId <- getTelegramUserId ;;
  data' <- match telegramUserId with
           | Some i =>
               if truthy data && is_object data
               then js_lift (set_prop data "telegram_user_id" (JStr i))
               else js_ret data
           | None => js_ret data
           end ;;
  makeRequest endpoint
    {| method := Some "POST"; headers := None; body := BodyString (JSON_stringify data') |}.

(** Lines 134-147. *)
Definition postFormData {json : JSON} (endpoint : string)
    (formData : list (string * FormValue)) : Js Options :=
  telegramUserId <- getTelegramUserId ;;
  formData' <- match telegramUserId with
               | Some i =>
                   js_ret (FormData.append formData "telegram_user_id" (FVString i))
               | None => js_ret formData
               end ;;
  makeRequest endpoint
    {| method := Some "POST"; headers := Some ∅; body := BodyFormData formData' |}.

(** What the awaited [fetch] resolves with: the status, the value of
    [response.headers.get('content-type')] ([None] for [null]) and the
    text of the body. [response.ok] is the status being in 200-299. *)
Record Response := {
  status : Z;
  contentType : option string;
  text : string
}.

Definition ok (response : Response) : bool :=
  (200 <=? status response) && (status response <=? 299).

(** Lines 83-92: what [makeRequest] makes of a response. [response.json()]
    rejects with a SyntaxError when the text is no JSON. *)
Definition receive {json : JSON} (response : Response) : Result JsValue :=
  if negb (ok response) then
    Throw (Error ("HTTP error! status: " +:+ Z_toString (status response)))
  else
    match contentType response with
    | Some ct =>
        if negb (String.eqb ct "") && includes ct "application/json" then
          match JSON_parse (text response) with
          | Some v => Return v
          | None => Throw SyntaxError
          end
        else Return (JStr (text response))
    | None => Return (JStr (text response))
    end.

(** Lines 79-96 after the request has left: [reply] is what the awaited
    [fetch] yields, a response or the transport's error, which the [catch]
    logs and throws again. *)
Definition settle {json : JSON} (reply : Result Response) : Result JsValue :=
  match reply with
  | Return response => receive response
  | Throw error => Throw error
  end.

End ApiClient.

Module ChatAPI.

(** Lines 160-173. *)
Definition sendMessage {json : JSON} (message : string) (imageFile : option File)
  : Js Options :=
  let formData := [] in
  let formData :=
    if negb (String.eqb message "")
    then FormData.append formData "message" (FVString message)
    else formData in
  let formData :=
    match imageFile with
    | Some f => FormData.append formData "image" (FVFile f)
    | None => formData
    end in
  ApiClient.postFormData "/api/chat" formData.

(** Lines 178-181; [limit] defaults to 10. *)
Definition getHistory {json : JSON} (limit : Z) : Js Options :=
  ApiClient.get "/api/chat/history" [("limit", Z_toString limit)].

(** Lines 186-190. *)
Definition clearHistory {json : JSON} : Js Options :=
  ApiClient.post "/api/chat/clear" (JObj []).

(** Lines 195-197; [params] defaults to a new [{}]. *)
Definition getSettings {json : JSON} : Js Options :=
  ApiClient.get "/api/chat/settings" [].

(** Lines 202-204. *)
Definition updateSettings {json : JSON} (settings : JsValue) : Js Options :=
  ApiClient.post "/api/chat/settings" settings.

(** Lines 209-211. *)
Definition getStatus {json : JSON} : Js Options :=
  ApiClient.get "/api/chat/status" [].

End ChatAPI.

(** Lines 217-224. *)
Module NewspaperAPI.

Definition getArticles {json : JSON} : Js Options :=
  ApiClient.get "/api/newspaper" [].

End NewspaperAPI.

(** Lines 229-236. *)
Module EventsAPI.

Definition getEvents {json : JSON} : Js Options :=
  ApiClient.get "/api/events" [].

End EventsAPI.

(** Lines 241-248. *)
Module FeedbackAPI.

Definition submitFeedback {json : JSON} (feedbackData : JsValue) : Js Options :=
  ApiClient.post "/api/feedback" feedbackData.

End FeedbackAPI.

(** Lines 253-267. *)
Module TestAPI.

Definition test {json : JSON} : Js Options :=
  ApiClient.get "/api/test" [].

Definition health {json : JSON} : Js Options :=
  ApiClient.get "/health" [].

End TestAPI.

(** ** [ApiUtils] *)

(** An awaited value: the promise resolves, rejects, or never settles. *)
Inductive Promise (A : Type) : Type :=
| Resolved (a : A)
| Rejected (e : JsError)
| Pending.
Arguments Resolved {A} a.
Arguments Rejected {A} e.
Arguments Pending {A}.

Module ApiUtils.

(** [error.message] *)
Definition message_of (e : JsError) : string :=
  match e with
  | SecurityError => "The operation is insecure."
  | QuotaExceededError => "The quota has been exceeded."
  | SyntaxError => "Unexpected token"
  | TypeError m => m
  | Error m => m
  end.

(** Lines 333-349. *)
Definition handleApiError (error : JsError) : string :=
  let m := message_of error in
  if includes m "Failed to fetch" then "Нет соединения с сервером. Проверьте интернет."
  else if includes m "413" then "Файл слишком большой. Выберите файл меньшего размера."
  else if includes m "404" then "Запрашиваемый ресурс не найден."
  else if includes m "500" then "Внутренняя ошибка сервера. Обратитесь к администратору."
  else "Произошла ошибка. Попробуйте позже.".

(** *** [retryRequest] (lines 354-371)

    [requestFunction] is any effectful function: it runs on a state of
    type [St] (the server, the network, the page) and returns or throws.
    The delays handed to [setTimeout] are collected in order; the console
    messages are left out. The loop
    [for (attempt = 1; attempt <= maxRetries; attempt++)] runs on the
    number of attempts that remain; falling out of it returns [undefined]
    ([None]). *)
Section Retry.

Context {St A : Type}.
Variable requestFunction : St -> St * Result A.
Variables maxRetries delay : Z.

Fixpoint retry_loop (remaining : nat) (attempt : Z) (s : St) (waits : list Z)
  : St * list Z * Result (option A) :=
  match remaining with
  | O => (s, waits, Return None)
  | S remaining' =>
      if attempt <=? maxRetries then
        match requestFunction s with
        | (s', Return a) => (s', waits, Return (Some a))
        | (s', Throw error) =>
            if attempt =? maxRetries then (s', waits, Throw error)
            else
              let waitTime := delay * 2 ^ (attempt - 1) in
              retry_loop remaining' (attempt + 1) s' (waits ++ [waitTime])
        end
      else (s, waits, Return None)
  end.

Definition retryRequest (s : St) : St * list Z * Result (option A) :=
  retry_loop (Z.to_nat maxRetries) 1 s [].

(** The state before the [n]-th call (counting from 0) when every earlier
    call has been made. *)
Fixpoint state_before (n : nat) (s : St) : St :=
  match n with
  | O => s
  | S n' => fst (requestFunction (state_before n' s))
  end.

(** The outcome of the [n]-th call. *)
Definition outcome (n : nat) (s : St) : Result A :=
  snd (requestFunction (state_before n s)).

End Retry.

(** The defaults of the signature: [maxRetries = 3, delay = 1000]. *)
Definition default_maxRetries : Z := 3.
Definition default_delay : Z := 1000.

(** *** File validation (lines 376-395) *)

Definition validateFileSize (file : File) (maxSizeMB : Z) : Result bool :=
  let maxSizeBytes := maxSizeMB * 1024 * 1024 in
  if file_size file >? maxSizeBytes then
    Throw (Error ("Файл слишком большой. Максимальный размер: "
                  +:+ Z_toString maxSizeMB +:+ "MB"))
  else Return true.

Definition default_allowedTypes : list string :=
  ["image/jpeg"; "image/png"; "image/webp"; "image/heic"; "image/heif"].

(** [allowedTypes.join(', ')] *)
Fixpoint join (sep : string) (l : list string) : string :=
  match l with
  | [] => ""
  | [x] => x
  | x :: rest => x +:+ sep +:+ join sep rest
  end.

Definition validateFileType (file : File) (allowedTypes : list string) : Result bool :=
  if negb (existsb (String.eqb (file_type file)) allowedTypes) then
    Throw (Error ("Неподдерживаемый тип файла. Разрешены: " +:+ join ", " allowedTypes))
  else Return true.

(** *** [compressImage] (lines 400-455) *)

Definition maxDimension : Z := 1200.

(** Lines 408-422: the size of the canvas for a picture of [width] by
    [height] pixels. The script computes the scaled edge as a floating
    point quotient and stores it in [canvas.width] / [canvas.height], which
    hold whole numbers: the assignment drops the fraction. For dimensions
    below 2^31 the quotient that is dropped to a whole number this way is
    the integer quotient. *)
Definition canvas_size (width height : Z) : Z * Z :=
  if (width >? maxDimension) || (height >? maxDimension) then
    if width >? height then (maxDimension, (height * maxDimension) / width)
    else ((width * maxDimension) / height, maxDimension)
  else (width, height).

(** [name.replace(/\.[^/.]+$/, '')]: drop a last extension. The reversed
    name is scanned up to its first dot or slash. *)
Fixpoint drop_extension_rev (r : list ascii) (seen : nat) : option (list ascii) :=
  match r with
  | [] => None
  | c :: r' =>
      if Ascii.eqb c "." then (if Nat.eqb seen 0 then None else Some r')
      else if Ascii.eqb c "/" then None
      else drop_extension_rev r' (S seen)
  end.

Definition remove_extension (name : string) : string :=
  match drop_extension_rev (rev (list_ascii_of_string name)) 0 with
  | Some r => string_of_list_ascii (rev r)
  | None => name
  end.

(** The JPEG encoder is outside the client: [toBlob_size w h] is the size
    in bytes of what [canvas.toBlob] yields for a canvas of [w] by [h].
    Without a decodable picture the [load] event never fires and the
    promise never settles. *)
Definition compressImage (toBlob_size : Z -> Z -> Z) (file : File) : Promise File :=
  match file_image file with
  | Some (width, height) =>
      let '(w, h) := canvas_size width height in
      Resolved {| file_name := remove_extension (file_name file) +:+ "_compressed.jpg";
                  file_type := "image/jpeg";
                  file_size := toBlob_size w h;
                  file_image := Some (w, h) |}
  | None => Pending
  end.

(** *** [prepareImageFile] (lines 474-500) *)
Definition prepareImageFile (toBlob_size : Z -> Z -> Z) (file : File) : Promise File :=
  match validateFileType file default_allowedTypes with
  | Throw error => Rejected error
  | Return _ =>
      match validateFileSize file 50 with
      | Throw error => Rejected error
      | Return _ =>
          if file_size file >? 2 * 1024 * 1024
          then compressImage toBlob_size file
          else Resolved file
      end
  end.

End ApiUtils.

(** ** chat.js: the Chat Manager

    The module-level variables of chat.js and the fields of the
    [ChatManager] instance, with the message list of the page and the
    alerts shown to the user in place of the DOM. *)

Record HistoryEntry := {
  entry_role : option JsValue;
  entry_content : JsValue
}.

Record Message := {
  msg_role : string;     (* ['user'] or ['bot'] *)
  msg_text : string;
  msg_image : bool       (* an [<img>] is shown with it *)
}.

Record Chat := {
  currentUserId : JsValue;            (* [null] at first *)
  chatHistory : list HistoryEntry;
  currentImage : option File;         (* [currentImage.file] *)
  isProcessing : bool;
  isHistoryLoaded : bool;
  chatMessages : list Message;
  alerts : list string
}.

Definition initial_chat : Chat :=
  {| currentUserId := JNull; chatHistory := []; currentImage := None;
     isProcessing := false; isHistoryLoaded := false;
     chatMessages := []; alerts := [] |}.

Module ChatManager.

Definition set_currentUserId (v : JsValue) (c : Chat) : Chat :=
  {| currentUserId := v; chatHistory := chatHistory c; currentImage := currentImage c;
     isProcessing := isProcessing c; isHistoryLoaded := isHistoryLoaded c;
     chatMessages := chatMessages c; alerts := alerts c |}.

Definition set_chatHistory (h : list HistoryEntry) (c : Chat) : Chat :=
  {| currentUserId := currentUserId c; chatHistory := h; currentImage := currentImage c;
     isProcessing := isProcessing c; isHistoryLoaded := isHistoryLoaded c;
     chatMessages := chatMessages c; alerts := alerts c |}.

Definition set_currentImage (i : option File) (c : Chat) : Chat :=
  {| currentUserId := currentUserId c; chatHistory := chatHistory c; currentImage := i;
     isProcessing := isProcessing c; isHistoryLoaded := isHistoryLoaded c;
     chatMessages := chatMessages c; alerts := alerts c |}.

Definition set_isProcessing (b : bool) (c : Chat) : Chat :=
  {| currentUserId := currentUserId c; chatHistory := chatHistory c;
     currentImage := currentImage c;
     isProcessing := b; isHistoryLoaded := isHistoryLoaded c;
     chatMessages := chatMessages c; alerts := alerts c |}.

Definition set_isHistoryLoaded (b : bool) (c : Chat) : Chat :=
  {| currentUserId := currentUserId c; chatHistory := chatHistory c;
     currentImage := currentImage c;
     isProcessing := isProcessing c; isHistoryLoaded := b;
     chatMessages := chatMessages c; alerts := alerts c |}.

Definition set_chatMessages (m : list Message) (c : Chat) : Chat :=
  {| currentUserId := currentUserId c; chatHistory := chatHistory c;
     currentImage := currentImage c;
     isProcessing := isProcessing c; isHistoryLoaded := isHistoryLoaded c;
     chatMessages := m; alerts := alerts c |}.

(** [showAlert(message)] of the adapter, or the browser's [alert]. *)
Definition show_alert (message : string) (c : Chat) : Chat :=
  {| currentUserId := currentUserId c; chatHistory := chatHistory c;
     currentImage := currentImage c;
     isProcessing := isProcessing c; isHistoryLoaded := isHistoryLoaded c;
     chatMessages := chatMessages c; alerts := alerts c ++ [message] |}.

Definition JsValue_eqb_string (v : JsValue) (s : string) : bool :=
  match v with
  | JStr s' => String.eqb s' s
  | _ => false
  end.

(** Lines 50-68. *)
Definition updateUserId (w : World) (c : Chat) : Chat :=
  let web_session c :=
    if negb (truthy (currentUserId c))
    then set_currentUserId (JStr ("web_session_" +:+ Z_toString (now w))) c
    else c in
  match TelegramWebApp w with
  | Some a =>
      if isInTelegram a then
        match getTelegramUser a with
        | Some u =>
            if tg_id u =? 0 then c
            else
              let newUserId := "tg_" +:+ Z_toString (tg_id u) in
              if negb (JsValue_eqb_string (currentUserId c) newUserId)
              then set_isHistoryLoaded false (set_currentUserId (JStr newUserId) c)
              else c
        | None => c
        end
      else web_session c
  | None => web_session c
  end.

(** Code that works on the chat state and may throw; the state changes
    made before an exception stay. *)
Definition ChatM (A : Type) : Type := Chat -> Chat * Result A.

Definition chat_bind {A B} (m : ChatM A) (k : A -> ChatM B) : ChatM B :=
  fun c =>
    match m c with
    | (c', Return a) => k a c'
    | (c', Throw e) => (c', Throw e)
    end.

Definition chat_lift {A} (r : Result A) : ChatM A := fun c => (c, r).
Definition chat_modify (f : Chat -> Chat) : ChatM unit := fun c => (f c, Return tt).

(** Lines 397-416: [message.replace] throws unless [message] is a string. *)
Definition addMessageToChat (role : string) (message : option JsValue) (image : bool)
  : ChatM unit :=
  fun c =>
    match message with
    | Some (JStr text) =>
        (set_chatMessages
           (chatMessages c ++
            [{| msg_role := role; msg_text := text;
                msg_image := image && String.eqb role "user" |}]) c,
         Return tt)
    | _ => (c, Throw (TypeError "message.replace is not a function"))
    end.

(** [parts.find(part => part[k])] *)
Fixpoint find_with (k : string) (parts : list JsValue) : Result (option JsValue) :=
  match parts with
  | [] => Return None
  | part :: rest =>
      match get_prop part k with
      | Throw e => Throw e
      | Return p => if truthy_opt p then Return (Some part) else find_with k rest
      end
  end.

Definition find_part (k : string) (parts : JsValue) : Result (option JsValue) :=
  match parts with
  | JArr l => find_with k l
  | _ => Throw (TypeError "msg.parts.find is not a function")
  end.

Definition result_bind {A B} (r : Result A) (k : A -> Result B) : Result B :=
  match r with
  | Return a => k a
  | Throw e => Throw e
  end.

(** [msg.parts ? msg.parts.find(part => part[k]) : null] *)
Definition msg_part (k : string) (msg : JsValue) : Result (option JsValue) :=
  result_bind (get_prop msg "parts") (fun parts =>
  match parts with
  | Some p => if truthy p then find_part k p else Return None
  | None => Return None
  end).

(** [textPart ? textPart.text : ''] *)
Definition msg_text_of (msg : JsValue) : Result JsValue :=
  result_bind (msg_part "text" msg) (fun textPart =>
  match textPart with
  | Some part =>
      result_bind (get_prop part "text") (fun t => Return (default (JStr "") t))
  | None => Return (JStr "")
  end).

(** Lines 154-174: one step of [data.history.forEach]. *)
Definition render_history_msg (msg : JsValue) : ChatM unit :=
  chat_bind (chat_lift (get_prop msg "role")) (fun role =>
  match role with
  | Some (JStr r) =>
      if String.eqb r "user" then
        chat_bind (chat_lift (msg_part "inline_data" msg)) (fun imagePart =>
        chat_bind (chat_lift (msg_text_of msg)) (fun messageText =>
        addMessageToChat "user" (Some messageText) (bool_decide (is_Some imagePart))))
      else if String.eqb r "model" then
        chat_bind (chat_lift (msg_text_of msg)) (fun messageText =>
        addMessageToChat "bot" (Some messageText) false)
      else chat_lift (Return tt)
  | _ => chat_lift (Return tt)
  end).

Fixpoint render_history (history : list JsValue) : ChatM unit :=
  match history with
  | [] => chat_lift (Return tt)
  | msg :: rest => chat_bind (render_history_msg msg) (fun _ => render_history rest)
  end.

(** Lines 177-180: one step of [data.history.map]. *)
Definition history_entry (msg : JsValue) : Result HistoryEntry :=
  result_bind (get_prop msg "role") (fun role =>
  result_bind (msg_text_of msg) (fun content =>
  Return {| entry_role :=
              match role with
              | Some (JStr r) => if String.eqb r "model" then Some (JStr "bot") else role
              | _ => role
              end;
            entry_content := content |})).

Fixpoint history_entries (history : list JsValue) : Result (list HistoryEntry) :=
  match history with
  | [] => Return []
  | msg :: rest =>
      result_bind (history_entry msg) (fun e =>
      result_bind (history_entries rest) (fun es => Return (e :: es)))
  end.

(** Lines 146-151: the message list is emptied, the first bot message kept. *)
Definition keep_welcome (ms : list Message) : list Message :=
  match List.find (fun m => String.eqb (msg_role m) "bot") ms with
  | Some welcome => [welcome]
  | None => []
  end.

(** [data.history && data.history.length > 0]. A [length] property that is
    not a number is taken as not above 0. *)
Definition has_entries (history : option JsValue) : bool :=
  match history with
  | Some (JArr (_ :: _)) => true
  | Some (JStr s) => negb (String.eqb s "")
  | Some (JObj o) =>
      match assoc_get "length" o with
      | Some (JNum n) => n >? 0
      | _ => false
      end
  | _ => false
  end.

(** Lines 142-185. Only an array has [forEach] and [map]. *)
Definition show_history (history : option JsValue) : ChatM unit :=
  if has_entries history then
    chat_bind (chat_modify (fun c => set_chatMessages (keep_welcome (chatMessages c)) c))
      (fun _ =>
    match history with
    | Some (JArr l) =>
        chat_bind (render_history l) (fun _ =>
        chat_bind (chat_lift (history_entries l)) (fun es =>
        chat_modify (set_chatHistory es)))
    | _ => chat_lift (Throw (TypeError "data.history.forEach is not a function"))
    end)
  else chat_lift (Return tt).

(** [if (data.user_id) currentUserId = data.user_id], lines 137-140 and
    333-336. *)
Definition adopt_user_id (data : JsValue) : ChatM unit :=
  chat_bind (chat_lift (get_prop data "user_id")) (fun uid =>
  if truthy_opt uid then chat_modify (set_currentUserId (default JNull uid))
  else chat_lift (Return tt)).

(** Lines 135-190: what [loadChatHistory] does with the awaited [data]. *)
Definition on_history (data : JsValue) : ChatM unit :=
  chat_bind (chat_lift (get_prop data "success")) (fun success =>
  if truthy_opt success then
    chat_bind (adopt_user_id data) (fun _ =>
    chat_bind (chat_lift (get_prop data "history")) (fun history =>
    chat_bind (show_history history) (fun _ =>
    chat_modify (set_isHistoryLoaded true))))
  else chat_lift (Return tt)).

(** Lines 124-195. [response] is what the awaited request yields once it
    has left: the parsed reply, or the transport's error. Every exception
    ends in the [catch] of line 191, which only logs. *)
Definition loadChatHistory {json : JSON} (response : Result JsValue) (c : Chat)
  : Js Chat :=
  fun w =>
    let c0 := updateUserId w c in
    match ChatAPI.getHistory 10 w with
    | (w1, Throw _) => (w1, Return c0)
    | (w1, Return _) =>
        match response with
        | Throw _ => (w1, Return c0)
        | Return data => (w1, Return (fst (on_history data c0)))
        end
    end.

(** Lines 331-359: what [sendMessage] does with the awaited [data]. *)
Definition on_reply (message : string) (data : JsValue) : ChatM unit :=
  chat_bind (chat_lift (get_prop data "success")) (fun success =>
  if truthy_opt success then
    chat_bind (adopt_user_id data) (fun _ =>
    chat_bind (chat_lift (get_prop data "response")) (fun response =>
    chat_bind (addMessageToChat "bot" response false) (fun _ =>
    chat_modify (fun c =>
      set_chatHistory
        (chatHistory c ++
         [{| entry_role := Some (JStr "user"); entry_content := JStr message |};
          {| entry_role := Some (JStr "bot");
             entry_content := default JNull response |}]) c))))
  else
    chat_bind (chat_lift (get_prop data "error")) (fun error =>
    addMessageToChat "bot"
      (Some (JStr ("❌ Извините, произошла ошибка: " +:+ String_of_opt error))) false)).

(** The [catch] of lines 360-368. *)
Definition on_send_error (error : JsError) (c : Chat) : Chat :=
  set_chatMessages
    (chatMessages c ++
     [{| msg_role := "bot"; msg_text := "❌ " +:+ ApiUtils.handleApiError error;
         msg_image := false |}]) c.

(** Lines 275-392. [message] is the trimmed input; [response] is what the
    awaited request yields once it has left. *)
Definition sendMessage {json : JSON} (message : string) (response : Result JsValue)
    (c : Chat) : Js Chat :=
  fun w =>
    if isProcessing c then (w, Return c)
    else if String.eqb message "" && negb (bool_decide (is_Some (currentImage c)))
    then (w, Return c)
    else
      let c0 := set_isProcessing true (updateUserId w c) in
      let c1 :=
        set_chatMessages
          (chatMessages c0 ++
           [{| msg_role := "user"; msg_text := message;
               msg_image := bool_decide (is_Some (currentImage c0)) |}]) c0 in
      let imageFile := currentImage c1 in
      let c2 := set_currentImage None c1 in
      let '(w1, sent) := ChatAPI.sendMessage message imageFile w in
      let outcome :=
        match sent with
        | Throw e => Throw e
        | Return _ => response
        end in
      let c3 :=
        match outcome with
        | Throw e => on_send_error e c2
        | Return data =>
            match on_reply message data c2 with
            | (c', Return _) => c'
            | (c', Throw e) => on_send_error e c'
            end
        end in
      (w1, Return (set_isProcessing false c3)).

(** Lines 650-748. [file] is [event.target.files[0]]. The preview element
    and the reading of the file for it are left out; the picture to send is
    set once the preparation has resolved. *)
Definition handleImageSelect (toBlob_size : Z -> Z -> Z) (file : option File) (c : Chat)
  : Js Chat :=
  fun w =>
    match file with
    | None => (w, Return c)
    | Some file =>
        if negb (startsWith (file_type file) "image/") then
          (w, Return (show_alert "Пожалуйста, выберите файл изображения" c))
        else
          match ApiUtils.prepareImageFile toBlob_size file with
          | Resolved processedFile => (w, Return (set_currentImage (Some processedFile) c))
          | Rejected error =>
              let m := ApiUtils.message_of error in
              (w, Return (show_alert
                            (if String.eqb m "" then "Ошибка обработки изображения" else m) c))
          | Pending => (w, Return c)
          end
    end.

(** Lines 38-45. *)
Definition initialize (w : World) (c : Chat) : Chat := updateUserId w c.

(** Lines 231-240: the message the emptied chat starts with again. The
    line breaks and indentation of the template are written as single
    spaces, as the page shows them. *)
Definition welcome_message : Message :=
  {| msg_role := "bot";
     msg_text :=
       "Привет! Я добрый и всегда желающий помочь сотрудникам Кировского завода сыщик. " +:+
       "Моё имя Шестерёнкин. Мне нравятся отечественные тракторы «Кировец» и сложные механизмы, " +:+
       "сила и профессионализм наших заводчан, а моё самое любимое занятие - это поиск информации.<br><br> " +:+
       "📸 Я умею анализировать изображения - просто отправьте фото с вопросом!<br> " +:+
       "🔍 Задавайте любые вопросы, и я найду ответы!";
     msg_image := false |}.

(** Lines 223-261: what [performClearHistory] does with the awaited [data]. *)
Definition on_cleared (data : JsValue) : ChatM unit :=
  chat_bind (chat_lift (get_prop data "success")) (fun success =>
  if truthy_opt success then
    chat_bind (chat_modify (set_chatHistory [])) (fun _ =>
    chat_bind (chat_modify (set_chatMessages [welcome_message])) (fun _ =>
    chat_bind (chat_modify (set_isHistoryLoaded true)) (fun _ =>
    chat_modify (show_alert "✅ История диалога очищена"))))
  else chat_modify (show_alert "❌ Ошибка очистки истории")).

(** Lines 217-270. [response] is what the awaited request yields once it
    has left. Every exception ends in the [catch] of line 262. *)
Definition performClearHistory {json : JSON} (response : Result JsValue) (c : Chat)
  : Js Chat :=
  fun w =>
    let '(w1, sent) := ChatAPI.clearHistory w in
    let outcome :=
      match sent with
      | Throw e => Throw e
      | Return _ => response
      end in
    match outcome with
    | Throw _ => (w1, Return (show_alert "❌ Ошибка соединения" c))
    | Return data =>
        match on_cleared data c with
        | (c', Return _) => (w1, Return c')
        | (c', Throw _) => (w1, Return (show_alert "❌ Ошибка соединения" c'))
        end
    end.

(** Lines 200-212. [confirmed] is the user's answer to the question,
    asked through the adapter's [showConfirm] or the browser's [confirm]. *)
Definition clearChatHistory {json : JSON} (confirmed : bool) (response : Result JsValue)
    (c : Chat) : Js Chat :=
  if confirmed then performClearHistory response c else js_ret c.

End ChatManager.

(** ** The page: modals.js, the keyboard handling of the adapter, the
    preview mode of the chat

    Of the document these functions read and write the [id], the class
    list and [style.display] of elements, and [style.overflow] of the
    body. An element is these three, and the document is its elements in
    document order with the overflow of the body. No function here adds,
    removes or moves an element or changes an [id], so the position of an
    element in the list stands for the element itself. Console output and
    the haptic calls change none of this and are left out, as are the
    deferred scrolling and [ensureInputVisible], which set other style
    properties of the input area. *)
Record Element : Type := {
  el_id : string;                 (* [""]: the element has no id *)
  classList : gset string;
  display : string                (* [style.display] *)
}.

Record Document : Type := {
  doc_elements : list Element;
  body_overflow : string          (* [document.body.style.overflow] *)
}.

Module DOM.

(** [document.getElementById(id)]: the first element in document order
    with that id; no element has the empty id. *)
Definition getElementById (id : string) (d : Document) : option Element :=
  if String.eqb id "" then None
  else List.find (fun e => String.eqb (el_id e) id) (doc_elements d).

Fixpoint update_first (id : string) (f : Element -> Element) (els : list Element)
  : list Element :=
  match els with
  | [] => []
  | e :: rest =>
      if String.eqb (el_id e) id then f e :: rest else e :: update_first id f rest
  end.

(** [const e = document.getElementById(id); if (e) { ... }], the body
    changing [e] by [f]. *)
Definition with_element (id : string) (f : Element -> Element) (d : Document) : Document :=
  if String.eqb id "" then d
  else {| doc_elements := update_first id f (doc_elements d);
          body_overflow := body_overflow d |}.

Definition set_display (value : string) (e : Element) : Element :=
  {| el_id := el_id e; classList := classList e; display := value |}.

Definition set_overflow (value : string) (d : Document) : Document :=
  {| doc_elements := doc_elements d; body_overflow := value |}.

(** [classList.add(...)], [classList.remove(...)], [classList.contains]. *)
Definition add (names : list string) (e : Element) : Element :=
  {| el_id := el_id e; classList := classList e ∪ list_to_set names;
     display := display e |}.

Definition remove (names : list string) (e : Element) : Element :=
  {| el_id := el_id e; classList := classList e ∖ list_to_set names;
     display := display e |}.

Definition contains (name : string) (e : Element) : bool :=
  bool_decide (name ∈ classList e).

(** The positions of [document.querySelectorAll('.' + name)], counted
    from [i] for the first element of [els]. *)
Fixpoint positions_of_class (name : string) (i : nat) (els : list Element) : list nat :=
  match els with
  | [] => []
  | e :: rest =>
      if contains name e then i :: positions_of_class name (S i) rest
      else positions_of_class name (S i) rest
  end.

End DOM.

(** *** modals.js: [ModalManager] *)
Module ModalManager.

Record State : Type := {
  activeModal : option string;    (* [None]: [null] *)
  document : Document
}.

(** The constructor, line 11. *)
Definition new (d : Document) : State := {| activeModal := None; document := d |}.

(** Lines 218-237. *)
Definition resetChatState (w : World) (d : Document) : Document :=
  match TelegramWebApp w with
  | Some _ =>
      DOM.with_element "chatInputContainer" (DOM.remove ["keyboard-open"; "has-preview"])
        (DOM.with_element "chatMessages"
           (DOM.remove ["header-hidden"; "keyboard-open"; "has-preview"])
           (DOM.with_element "chatHeader" (DOM.remove ["keyboard-hidden"]) d))
  | None => d
  end.

(** Lines 191-213. *)
Definition closeModal (w : World) (modalId : string) (s : State) : State :=
  match DOM.getElementById modalId (document s) with
  | Some _ =>
      let d1 := DOM.with_element modalId (DOM.set_display "none") (document s) in
      let d2 := if String.eqb modalId "chatModal" then resetChatState w d1 else d1 in
      {| activeModal := None; document := DOM.set_overflow "auto" d2 |}
  | None => s
  end.

(** Lines 170-186. *)
Definition openModal (w : World) (modalId : string) (s : State) : State :=
  let s1 :=
    match activeModal s with
    | Some active =>
        if negb (String.eqb active "") && negb (String.eqb active modalId)
        then closeModal w active s
        else s
    | None => s
    end in
  match DOM.getElementById modalId (document s1) with
  | Some _ =>
      {| activeModal := Some modalId;
         document :=
           DOM.set_overflow "hidden"
             (DOM.with_element modalId (DOM.set_display "block") (document s1)) |}
  | None => s1
  end.

(** Lines 331-337; [modalId] is [None] when the argument is left out. *)
Definition isModalOpen (modalId : option string) (s : State) : JsValue :=
  match modalId with
  | Some id =>
      if String.eqb id "" then JBool (bool_decide (is_Some (activeModal s)))
      else match DOM.getElementById id (document s) with
           | Some modal => JBool (String.eqb (display modal) "block")
           | None => JNull
           end
  | None => JBool (bool_decide (is_Some (activeModal s)))
  end.

(** Lines 342-344. *)
Definition getActiveModal (s : State) : option string := activeModal s.

(** Lines 349-356: the elements of class [modal] are collected first, then
    each is looked at in turn, in the state the calls before it left. *)
Fixpoint close_each (w : World) (positions : list nat) (s : State) : State :=
  match positions with
  | [] => s
  | i :: rest =>
      close_each w rest
        match doc_elements (document s) !! i with
        | Some modal =>
            if String.eqb (display modal) "block" then closeModal w (el_id modal) s else s
        | None => s
        end
  end.

Definition closeAllModals (w : World) (s : State) : State :=
  close_each w (DOM.positions_of_class "modal" 0 (doc_elements (document s))) s.

End ModalManager.

(** *** The adapter: the keyboard (lines 364-367 and 486-551) *)
Record Viewport : Type := {
  initialViewportHeight : Z;
  isKeyboardOpen : bool
}.

Definition keyboardThreshold : Z := 100.

(** Lines 505-551, up to the deferred scrolling. *)
Definition handleKeyboardToggle (v : Viewport) (d : Document) : Document :=
  match DOM.getElementById "chatModal" d with
  | Some chatModal =>
      if String.eqb (display chatModal) "block" then
        if isKeyboardOpen v then
          DOM.with_element "chatInputContainer" (DOM.add ["keyboard-open"])
            (DOM.with_element "chatMessages"
               (fun chatMessages =>
                  let shown := DOM.add ["header-hidden"] chatMessages in
                  if DOM.contains "has-preview" shown then DOM.add ["keyboard-open"] shown
                  else shown)
               (DOM.with_element "chatHeader" (DOM.add ["keyboard-hidden"]) d))
        else
          DOM.with_element "chatInputContainer" (DOM.remove ["keyboard-open"])
            (DOM.with_element "chatMessages" (DOM.remove ["header-hidden"; "keyboard-open"])
               (DOM.with_element "chatHeader" (DOM.remove ["keyboard-hidden"]) d))
      else d
  | None => d
  end.

(** Lines 486-500, with [window.innerHeight] as [innerHeight]. *)
Definition detectKeyboardState (innerHeight : Z) (v : Viewport) (d : Document)
  : Viewport * Document :=
  let heightDifference := initialViewportHeight v - innerHeight in
  let v' := {| initialViewportHeight := initialViewportHeight v;
               isKeyboardOpen := heightDifference >? keyboardThreshold |} in
  if Bool.eqb (isKeyboardOpen v) (isKeyboardOpen v') then (v', d)
  else (v', handleKeyboardToggle v' d).

(** *** chat.js: [setPreviewMode] (lines 777-796) *)
Definition setPreviewMode (enabled : bool) (d : Document) : Document :=
  if enabled then
    DOM.with_element "chatMessages" (DOM.add ["has-preview"])
      (DOM.with_element "chatInputContainer" (DOM.add ["has-preview"]) d)
  else
    DOM.with_element "chatMessages" (DOM.remove ["has-preview"])
      (DOM.with_element "chatInputContainer" (DOM.remove ["has-preview"]) d).

(** ** Where a request carries an identity

    The places of a request that the server reads an identity from:
    the header [X-Telegram-User-Id], the field [telegram_user_id] in the
    body or in the query, and the field [user_id] in the body. *)
Inductive Carrier : Type :=
| HeaderTelegramUserId
| QueryTelegramUserId
| FieldTelegramUserId
| FieldUserId.

Definition header_carriers (options : Options) : list Carrier :=
  match headers options with
  | Some h =>
      match h !! "X-Telegram-User-Id" with
      | Some _ => [HeaderTelegramUserId]
      | None => []
      end
  | None => []
  end.

Definition query_carriers (url : string) : list Carrier :=
  if includes url "telegram_user_id=" then [QueryTelegramUserId] else [].

Definition field_carrier (name : string) : list Carrier :=
  if String.eqb name "telegram_user_id" then [FieldTelegramUserId]
  else if String.eqb name "user_id" then [FieldUserId]
  else [].

Definition body_carriers {json : JSON} (b : Body) : list Carrier :=
  match b with
  | BodyFormData entries => flat_map (fun e => field_carrier (fst e)) entries
  | BodyString s =>
      match JSON_parse s with
      | Some (JObj o) => flat_map (fun kv => field_carrier (fst kv)) o
      | _ => []
      end
  | BodyUndefined => []
  end.

Definition identity_carriers {json : JSON} (sent : Sent) : list Carrier :=
  match sent with
  | FetchCall url options =>
      header_carriers options ++ query_carriers url ++ body_carriers (body options)
  | XhrSend _ url b => query_carriers url ++ body_carriers b
  end.

(** ** A JSON codec

    An instance of the interface: the compact text [JSON.stringify] writes,
    and a parser for JSON texts whose numbers are integers and whose
    [\u] escapes stay below 128. *)
Module JsonText.

Definition quote : ascii := "034".
Definition backslash : ascii := "092".

Definition is_ws (c : ascii) : bool :=
  Ascii.eqb c " " || Ascii.eqb c "009" || Ascii.eqb c "010" || Ascii.eqb c "013".

Fixpoint skip_ws (s : list ascii) : list ascii :=
  match s with
  | c :: r => if is_ws c then skip_ws r else s
  | [] => []
  end.

(** *** Numbers *)

Definition digit_of (c : ascii) : option (Decimal.uint -> Decimal.uint) :=
  if Ascii.eqb c "0" then Some Decimal.D0
  else if Ascii.eqb c "1" then Some Decimal.D1
  else if Ascii.eqb c "2" then Some Decimal.D2
  else if Ascii.eqb c "3" then Some Decimal.D3
  else if Ascii.eqb c "4" then Some Decimal.D4
  else if Ascii.eqb c "5" then Some Decimal.D5
  else if Ascii.eqb c "6" then Some Decimal.D6
  else if Ascii.eqb c "7" then Some Decimal.D7
  else if Ascii.eqb c "8" then Some Decimal.D8
  else if Ascii.eqb c "9" then Some Decimal.D9
  else None.

Definition is_number_start (c : ascii) : bool :=
  Ascii.eqb c "-" || bool_decide (is_Some (digit_of c)).

Fixpoint print_uint (d : Decimal.uint) : list ascii :=
  match d with
  | Decimal.Nil => []
  | Decimal.D0 d => "0"%char :: print_uint d
  | Decimal.D1 d => "1"%char :: print_uint d
  | Decimal.D2 d => "2"%char :: print_uint d
  | Decimal.D3 d => "3"%char :: print_uint d
  | Decimal.D4 d => "4"%char :: print_uint d
  | Decimal.D5 d => "5"%char :: print_uint d
  | Decimal.D6 d => "6"%char :: print_uint d
  | Decimal.D7 d => "7"%char :: print_uint d
  | Decimal.D8 d => "8"%char :: print_uint d
  | Decimal.D9 d => "9"%char :: print_uint d
  end.

Fixpoint parse_uint (s : list ascii) : Decimal.uint * list ascii :=
  match s with
  | c :: r =>
      match digit_of c with
      | Some D => let '(d, r') := parse_uint r in (D d, r')
      | None => (Decimal.Nil, s)
      end
  | [] => (Decimal.Nil, [])
  end.

Definition print_number (n : Z) : list ascii :=
  match Z.to_int n with
  | Decimal.Pos d => print_uint d
  | Decimal.Neg d => "-"%char :: print_uint d
  end.

#[local] Instance uint_eq_decision : EqDecision Decimal.uint := Decimal.uint_eq_dec.

(** No leading zero, and at least one digit. *)
Definition canonical (d : Decimal.uint) : bool :=
  bool_decide (Decimal.unorm d = d).

Definition parse_number (s : list ascii) : option (Z * list ascii) :=
  match s with
  | c :: r =>
      if Ascii.eqb c "-" then
        let '(d, r') := parse_uint r in
        if canonical d then Some (Z.of_int (Decimal.Neg d), r') else None
      else
        let '(d, r') := parse_uint s in
        if canonical d then Some (Z.of_int (Decimal.Pos d), r') else None
  | [] => None
  end.

(** *** Strings *)

Definition hex_digit (n : nat) : ascii :=
  if (n <? 10)%nat then ascii_of_nat (48 + n) else ascii_of_nat (87 + n).

Definition hex_value (c : ascii) : option nat :=
  let n := nat_of_ascii c in
  if (48 <=? n)%nat && (n <=? 57)%nat then Some (n - 48)%nat
  else if (97 <=? n)%nat && (n <=? 102)%nat then Some (n - 87)%nat
  else if (65 <=? n)%nat && (n <=? 70)%nat then Some (n - 55)%nat
  else None.

Definition is_control (c : ascii) : bool := (nat_of_ascii c <? 32)%nat.

Definition escape_char (c : ascii) : list ascii :=
  if Ascii.eqb c quote then [backslash; quote]
  else if Ascii.eqb c backslash then [backslash; backslash]
  else if Ascii.eqb c "008" then [backslash; "b"%char]
  else if Ascii.eqb c "009" then [backslash; "t"%char]
  else if Ascii.eqb c "010" then [backslash; "n"%char]
  else if Ascii.eqb c "012" then [backslash; "f"%char]
  else if Ascii.eqb c "013" then [backslash; "r"%char]
  else if is_control c then
    [backslash; "u"%char; "0"%char; "0"%char;
     hex_digit (nat_of_ascii c / 16); hex_digit (nat_of_ascii c mod 16)]
  else [c].

Definition print_chars (s : list ascii) : list ascii := flat_map escape_char s.

Definition print_string (s : string) : list ascii :=
  quote :: print_chars (list_ascii_of_string s) ++ [quote].

Definition unescape (e : ascii) : option ascii :=
  if Ascii.eqb e quote then Some quote
  else if Ascii.eqb e backslash then Some backslash
  else if Ascii.eqb e "/" then Some "/"%char
  else if Ascii.eqb e "b" then Some "008"%char
  else if Ascii.eqb e "t" then Some "009"%char
  else if Ascii.eqb e "n" then Some "010"%char
  else if Ascii.eqb e "f" then Some "012"%char
  else if Ascii.eqb e "r" then Some "013"%char
  else None.

Definition hex4 (h1 h2 h3 h4 : ascii) : option nat :=
  match hex_value h1, hex_value h2, hex_value h3, hex_value h4 with
  | Some a, Some b, Some c, Some d => Some (((a * 16 + b) * 16 + c) * 16 + d)%nat
  | _, _, _, _ => None
  end.

Definition cons_char (c : ascii) (r : option (list ascii * list ascii))
  : option (list ascii * list ascii) :=
  match r with
  | Some (cs, rest) => Some (c :: cs, rest)
  | None => None
  end.

(** The characters of a string up to its closing quote, and what follows. *)
Fixpoint parse_chars (s : list ascii) : option (list ascii * list ascii) :=
  match s with
  | [] => None
  | c :: r =>
      if Ascii.eqb c quote then Some ([], r)
      else if Ascii.eqb c backslash then
        match r with
        | e :: r1 =>
            if Ascii.eqb e "u" then
              match r1 with
              | h1 :: h2 :: h3 :: h4 :: r2 =>
                  match hex4 h1 h2 h3 h4 with
                  | Some n =>
                      if (n <? 128)%nat then cons_char (ascii_of_nat n) (parse_chars r2)
                      else None
                  | None => None
                  end
              | _ => None
              end
            else
              match unescape e with
              | Some c' => cons_char c' (parse_chars r1)
              | None => None
              end
        | [] => None
        end
      else if is_control c then None
      else cons_char c (parse_chars r)
  end.

(** *** Values *)

Section Print.
Variable print_value : JsValue -> list ascii.

Fixpoint print_elements (l : list JsValue) : list ascii :=
  match l with
  | [] => []
  | v :: rest =>
      print_value v ++
      match rest with
      | [] => []
      | _ :: _ => ","%char :: print_elements rest
      end
  end.

Fixpoint print_members (o : list (string * JsValue)) : list ascii :=
  match o with
  | [] => []
  | kv :: rest =>
      print_string (fst kv) ++ ":"%char :: print_value (snd kv) ++
      match rest with
      | [] => []
      | _ :: _ => ","%char :: print_members rest
      end
  end.

End Print.

Fixpoint print_value (v : JsValue) : list ascii :=
  match v with
  | JNull => list_ascii_of_string "null"
  | JBool true => list_ascii_of_string "true"
  | JBool false => list_ascii_of_string "false"
  | JNum n => print_number n
  | JStr s => print_string s
  | JArr l => "["%char :: print_elements print_value l ++ ["]"%char]
  | JObj o => "{"%char :: print_members print_value o ++ ["}"%char]
  end.

Fixpoint strip_prefix (p s : list ascii) : option (list ascii) :=
  match p, s with
  | [], _ => Some s
  | a :: p', b :: s' => if Ascii.eqb a b then strip_prefix p' s' else None
  | _ :: _, [] => None
  end.

Definition literal (word : string) (v : JsValue) (s : list ascii)
  : option (JsValue * list ascii) :=
  match strip_prefix (list_ascii_of_string word) s with
  | Some r => Some (v, r)
  | None => None
  end.

(** One layer of the parser, over the parsers of the layer below. *)
Section Step.
Variable value : list ascii -> option (JsValue * list ascii).
Variable elements : list ascii -> option (list JsValue * list ascii).
Variable members :
  list ascii -> list (string * JsValue) -> option (list (string * JsValue) * list ascii).

Definition value_step (s : list ascii) : option (JsValue * list ascii) :=
  match skip_ws s with
  | [] => None
  | c :: r =>
      if is_number_start c then
        match parse_number (c :: r) with
        | Some (n, r') => Some (JNum n, r')
        | None => None
        end
      else if Ascii.eqb c "n" then literal "null" JNull (c :: r)
      else if Ascii.eqb c "t" then literal "true" (JBool true) (c :: r)
      else if Ascii.eqb c "f" then literal "false" (JBool false) (c :: r)
      else if Ascii.eqb c quote then
        match parse_chars r with
        | Some (cs, r') => Some (JStr (string_of_list_ascii cs), r')
        | None => None
        end
      else if Ascii.eqb c "[" then
        match skip_ws r with
        | c' :: r' =>
            if Ascii.eqb c' "]" then Some (JArr [], r')
            else
              match elements r with
              | Some (l, r'') => Some (JArr l, r'')
              | None => None
              end
        | [] => None
        end
      else if Ascii.eqb c "{" then
        match skip_ws r with
        | c' :: r' =>
            if Ascii.eqb c' "}" then Some (JObj [], r')
            else
              match members r [] with
              | Some (o, r'') => Some (JObj o, r'')
              | None => None
              end
        | [] => None
        end
      else None
  end.

(** [value (',' value)* ']'] *)
Definition elements_step (s : list ascii) : option (list JsValue * list ascii) :=
  match value s with
  | Some (v, r) =>
      match skip_ws r with
      | c :: r' =>
          if Ascii.eqb c "," then
            match elements r' with
            | Some (l, r'') => Some (v :: l, r'')
            | None => None
            end
          else if Ascii.eqb c "]" then Some ([v], r')
          else None
      | [] => None
      end
  | None => None
  end.

(** [string ':' value (',' string ':' value)* '}'], onto the properties
    read so far: a repeated name keeps its place and takes the new value. *)
Definition members_step (s : list ascii) (acc : list (string * JsValue))
  : option (list (string * JsValue) * list ascii) :=
  match skip_ws s with
  | c :: r =>
      if Ascii.eqb c quote then
        match parse_chars r with
        | Some (k, r1) =>
            match skip_ws r1 with
            | c1 :: r2 =>
                if Ascii.eqb c1 ":" then
                  match value r2 with
                  | Some (v, r3) =>
                      let acc' := assoc_set (string_of_list_ascii k) v acc in
                      match skip_ws r3 with
                      | c3 :: r4 =>
                          if Ascii.eqb c3 "," then members r4 acc'
                          else if Ascii.eqb c3 "}" then Some (acc', r4)
                          else None
                      | [] => None
                      end
                  | None => None
                  end
                else None
            | [] => None
            end
        | None => None
        end
      else None
  | [] => None
  end.

End Step.

Fixpoint parse_value (fuel : nat) (s : list ascii) {struct fuel}
  : option (JsValue * list ascii) :=
  match fuel with
  | O => None
  | S fuel' => value_step (parse_elements fuel') (parse_members fuel') s
  end
with parse_elements (fuel : nat) (s : list ascii) {struct fuel}
  : option (list JsValue * list ascii) :=
  match fuel with
  | O => None
  | S fuel' => elements_step (parse_value fuel') (parse_elements fuel') s
  end
with parse_members (fuel : nat) (s : list ascii) (acc : list (string * JsValue))
    {struct fuel} : option (list (string * JsValue) * list ascii) :=
  match fuel with
  | O => None
  | S fuel' => members_step (parse_value fuel') (parse_members fuel') s acc
  end.

Definition parse (s : string) : option JsValue :=
  let l := list_ascii_of_string s in
  match parse_value (2 * length l + 2) l with
  | Some (v, r) =>
      match skip_ws r with
      | [] => Some v
      | _ :: _ => None
      end
  | None => None
  end.

Definition stringify (v : JsValue) : string :=
  string_of_list_ascii (print_value v).

(** *** What the round trip is stated with *)

(** Nothing that continues a number follows. *)
Definition follow_ok (rest : list ascii) : Prop :=
  match rest with
  | [] => True
  | c :: _ => digit_of c = None
  end.

(** The fuel a value needs. *)
Fixpoint size (v : JsValue) : nat :=
  match v with
  | JArr l => S (fold_right (fun x n => S (size x + n)) 0 l)
  | JObj o => S (fold_right (fun kv n => S (size (snd kv) + n)) 0 o)
  | JNull | JBool _ | JNum _ | JStr _ => 1
  end%nat.

Definition elements_size (l : list JsValue) : nat :=
  fold_right (fun x n => S (size x + n)) 0%nat l.
Definition members_size (o : list (string * JsValue)) : nat :=
  fold_right (fun kv n => S (size (snd kv) + n)) 0%nat o.

Definition roundtrips (v : JsValue) : Prop :=
  forall fuel rest,
    (size v <= fuel)%nat -> follow_ok rest ->
    parse_value fuel (print_value v ++ rest) = Some (v, rest).

End JsonText.

(** ** The vocabulary of the statements *)

(** The token of the Telegram branch. *)
Definition tg_token (u : TgUser) : string := "tg_" +:+ Z_toString (tg_id u).

(** The token of the generating branch. *)
Definition web_token (w : World) : string :=
  "web_" +:+ Z_toString (now w) +:+ "_" +:+ random36 w.

(** The stored identity, when there is a usable one. *)
Definition stored_id (w : World) : option string :=
  match items (localStorage w) !! "chat_user_id" with
  | Some s => if String.eqb s "" then None else Some s
  | None => None
  end.

(** The world after a token has been generated and stored. *)
Definition generated_world (w : World) : World :=
  add_console (ConsoleLog "Generated new user_id:" (web_token w))
    (set_localStorage
       {| items := <["chat_user_id" := web_token w]> (items (localStorage w));
          denied := denied (localStorage w); full := full (localStorage w) |} w).

(** [window.TelegramWebApp && window.TelegramWebApp.isInTelegram()] *)
Definition in_telegram (w : World) : bool :=
  match TelegramWebApp w with
  | Some a => isInTelegram a
  | None => false
  end.

(** The header the API client sets. *)
Definition identity_headers (tid : option string) : gmap string string :=
  match tid with
  | Some i => {["X-Telegram-User-Id" := i]}
  | None => ∅
  end.

(** The entries [ChatAPI.sendMessage] puts into its form. *)
Definition message_entries (message : string) (imageFile : option File)
  : list (string * FormValue) :=
  (if negb (String.eqb message "") then [("message", FVString message)] else []) ++
  match imageFile with
  | Some f => [("image", FVFile f)]
  | None => []
  end.

(** The carriers of a chat POST and of the history GET, in and outside
    Telegram. *)
Definition post_carriers (tid : option string) : list Carrier :=
  match tid with
  | Some _ => [HeaderTelegramUserId; FieldTelegramUserId; FieldUserId]
  | None => [FieldUserId]
  end.

(** The carriers of a chat POST that leaves without the resolved
    identity. *)
Definition unresolved_post_carriers (tid : option string) : list Carrier :=
  match tid with
  | Some _ => [HeaderTelegramUserId; FieldTelegramUserId]
  | None => []
  end.

Definition get_carriers (tid : option string) : list Carrier :=
  match tid with
  | Some _ => [HeaderTelegramUserId; QueryTelegramUserId]
  | None => []
  end.

(** The delays before the retries that follow [n] failed attempts. *)
Definition backoff (delay : Z) (n : nat) : list Z :=
  map (fun j => delay * 2 ^ Z.of_nat j) (seq 0 n).

(** The aspect ratio [W' : H'] is within 1% of [W : H]:
    [|W'/H' - W/H| < (W/H) / 100], cleared of fractions. *)
Definition ratio_within_1pct (W H W' H' : Z) : Prop :=
  100 * Z.abs (W' * H - W * H') < W * H'.

(** A step keeps [currentUserId]. *)
Definition keeps_user_id {A} (m : ChatManager.ChatM A) : Prop :=
  forall c, currentUserId (fst (m c)) = currentUserId c.

(** The query the API client adds to the URL of a GET without parameters
    of its own. *)
Definition identity_query (tid : option string) : string :=
  match tid with
  | Some i => "?telegram_user_id=" +:+ i
  | None => ""
  end.

(** The message [handleApiError] has for the error of a response with
    the given status. *)
Definition http_error_message (status : Z) : string :=
  if status =? 413 then "Файл слишком большой. Выберите файл меньшего размера."
  else if status =? 404 then "Запрашиваемый ресурс не найден."
  else if status =? 500 then "Внутренняя ошибка сервера. Обратитесь к администратору."
  else "Произошла ошибка. Попробуйте позже.".

(** The two messages of the file checks, for the limits of
    [prepareImageFile]. *)
Definition type_error : JsError :=
  Error ("Неподдерживаемый тип файла. Разрешены: " +:+
         "image/jpeg, image/png, image/webp, image/heic, image/heif").

Definition size_error : JsError :=
  Error "Файл слишком большой. Максимальный размер: 50MB".

(** The type of the file is one of those [validateFileType] allows. *)
Definition allowed_type (file : File) : bool :=
  existsb (String.eqb (file_type file)) ApiUtils.default_allowedTypes.

(** A character that can stand in an extension. *)
Definition extension_char (c : ascii) : Prop := c <> "."%char /\ c <> "/"%char.


Definition bot_message (text : string) : Message :=
  {| msg_role := "bot"; msg_text := text; msg_image := false |}.






(** A call of one of the modal manager's operations, and a sequence of
    calls made one after the other. *)
Inductive ModalCall : Type :=
| CallOpenModal (modalId : string)
| CallCloseModal (modalId : string)
| CallCloseAllModals.

Definition modal_call (w : World) (s : ModalManager.State) (call : ModalCall)
  : ModalManager.State :=
  match call with
  | CallOpenModal modalId => ModalManager.openModal w modalId s
  | CallCloseModal modalId => ModalManager.closeModal w modalId s
  | CallCloseAllModals => ModalManager.closeAllModals w s
  end.

Definition modal_calls (w : World) (calls : list ModalCall) (s : ModalManager.State)
  : ModalManager.State :=
  fold_left (modal_call w) calls s.

(** What holds of the manager's state after every call: a modal it names
    as active is on display, and the page does not scroll. *)
Definition active_displayed (s : ModalManager.State) : Prop :=
  forall m,
    ModalManager.activeModal s = Some m ->
    m <> "" /\
    display <$> DOM.getElementById m (ModalManager.document s) = Some "block" /\
    body_overflow (ModalManager.document s) = "hidden".

(** The element at position [i] is the one its id names: it has an id,
    and no element before it has the same. *)
Definition named_by_id (d : Document) (i : nat) : Prop :=
  exists e,
    doc_elements d !! i = Some e /\ el_id e <> "" /\
    forall j e', (j < i)%nat -> doc_elements d !! j = Some e' -> el_id e' <> el_id e.

(** What the manager's operations can tell of an element: its id, its
    display, and whether it is of class [modal]. *)
Definition modal_view (e : Element) : string * string * bool :=
  (el_id e, display e, DOM.contains "modal" e).

(** The view of an element after [closeAllModals]: a modal on display is
    closed, nothing else changes. *)
Definition closed_view (view : string * string * bool) : string * string * bool :=
  let '(id, shown, modal) := view in
  if modal && String.eqb shown "block" then (id, "none", modal) else view.

(** The classes the opening keyboard puts on the parts of the chat. *)
Definition keyboard_classes : gset string :=
  {["keyboard-hidden"; "header-hidden"; "keyboard-open"]}.

(** ** Scenarios *)

(** A world outside Telegram whose storage is empty and takes no more. *)
Definition quota_world : World :=
  {| Telegram := None; TelegramWebApp := None;
     localStorage := {| items := ∅; denied := false; full := true |};
     now := 1700000000000; random36 := "k3j9x0q2abc";
     console := []; network := [] |}.

(** A browser that has been given a web identity, outside Telegram. *)
Definition web_world : World :=
  {| Telegram := None; TelegramWebApp := Some (Standalone None);
     localStorage :=
       {| items := {["chat_user_id" := "web_1700000000000_k3j9x0q2abc"]};
          denied := false; full := false |};
     now := 1700000360000; random36 := "zz81m4p0qrs";
     console := []; network := [] |}.

(** The host object of a Mini App opened by user 555. *)
Definition host_555 : WebApp :=
  {| initData := "query_id=AAE";
     initDataUnsafe := Some {| user := Some {| tg_id := 555 |} |} |}.

(** The same browser inside Telegram, user 555: the adapter captured the
    host object when it loaded. *)
Definition tg_world : World :=
  {| Telegram := Some host_555;
     TelegramWebApp := Some (InTelegram host_555);
     localStorage := localStorage web_world;
     now := 1700000360000; random36 := "zz81m4p0qrs";
     console := []; network := [] |}.

(** The page of [web_world] after the host object has appeared: the
    adapter's script had loaded before, with no object to capture. *)
Definition late_host_world : World :=
  {| Telegram := Some host_555; TelegramWebApp := Some (Standalone None);
     localStorage := localStorage web_world;
     now := 1700000360000; random36 := "zz81m4p0qrs";
     console := []; network := [] |}.

(** The page of [tg_world] after [window.Telegram] has been removed: the
    adapter still holds the object it captured. *)
Definition tg_world_withdrawn : World :=
  {| Telegram := None; TelegramWebApp := TelegramWebApp tg_world;
     localStorage := localStorage tg_world;
     now := 1700000720000; random36 := "aa00bb11cc2";
     console := []; network := [] |}.

(** The options of a JSON POST, as [makeRequest] builds them. *)
Definition json_post (text : string) : Options :=
  {| method := Some "POST";
     headers := Some {["Content-Type" := "application/json"]};
     body := BodyString text |}.

(** A request that fails twice with a 503 and then answers, and one that
    always fails; the state counts the calls. *)
Definition flaky_request (calls : nat) : nat * Result string :=
  (S calls,
   if (calls <? 2)%nat then Throw (Error "HTTP error! status: 503") else Return "pong").

Definition failing_request (calls : nat) : nat * Result string :=
  (S calls, Throw (Error ("HTTP error! status: 50" +:+ Z_toString (Z.of_nat calls)))).

(** A PDF, and a photograph of 60 MB. *)
Definition pdf_file : File :=
  {| file_name := "report.pdf"; file_type := "application/pdf";
     file_size := 120000; file_image := None |}.

Definition huge_photo : File :=
  {| file_name := "IMG_0001.jpg"; file_type := "image/jpeg";
     file_size := 60 * 1024 * 1024; file_image := Some (8000, 6000) |}.

(** A reply of the server that names another identity than the local one. *)
Definition echo_reply : JsValue :=
  JObj [("success", JBool true); ("response", JStr "Здравствуйте");
        ("user_id", JStr "tg_777")].

(** A reply that reports success and includes a [user_id] that is the
    empty string. *)
Definition empty_id_reply : JsValue :=
  JObj [("success", JBool true); ("response", JStr "ok"); ("user_id", JStr "")].

(** A browser outside Telegram that has never resolved an identity, and
    the same browser six minutes later, its storage as the first
    resolution left it. *)
Definition fresh_world : World :=
  {| Telegram := None; TelegramWebApp := Some (Standalone None);
     localStorage := {| items := ∅; denied := false; full := false |};
     now := 1700000000000; random36 := "k3j9x0q2abc";
     console := []; network := [] |}.

Definition returning_world : World :=
  {| Telegram := None; TelegramWebApp := Some (Standalone None);
     localStorage := localStorage (world_after getUserId fresh_world);
     now := 1700000360000; random36 := "zz81m4p0qrs";
     console := []; network := [] |}.

(** A browser outside Telegram whose storage refuses every access. *)
Definition denied_world : World :=
  {| Telegram := None; TelegramWebApp := Some (Standalone None);
     localStorage := {| items := ∅; denied := true; full := false |};
     now := 1700000000000; random36 := "k3j9x0q2abc";
     console := []; network := [] |}.

(** A feedback POST whose caller names a Telegram id of its own, and what
    the client makes of it for user 555. *)
Definition own_header_post : Options :=
  {| method := Some "POST";
     headers := Some {["X-Telegram-User-Id" := "42"]};
     body := BodyString "{}" |}.

Definition own_header_sent : Options :=
  {| method := Some "POST";
     headers := Some {["X-Telegram-User-Id" := "42"; "Content-Type" := "application/json"]};
     body := BodyString "{}" |}.

(** A photograph of 3 MB, an animation, and a small drawing. *)
Definition large_photo : File :=
  {| file_name := "IMG_0002.heic.jpeg"; file_type := "image/jpeg";
     file_size := 3 * 1024 * 1024; file_image := Some (4000, 3000) |}.

Definition animation : File :=
  {| file_name := "cat.gif"; file_type := "image/gif";
     file_size := 500000; file_image := Some (320, 240) |}.

Definition drawing : File :=
  {| file_name := "scheme.png"; file_type := "image/png";
     file_size := 200000; file_image := Some (800, 600) |}.


(** The page of the chat as it is delivered: the greeting alone. *)
Definition opened_chat : Chat :=
  {| currentUserId := JNull; chatHistory := []; currentImage := None;
     isProcessing := false; isHistoryLoaded := false;
     chatMessages := [bot_message "Привет!"]; alerts := [] |}.

(** The page as it is delivered: three modals of the manager, the chat
    modal and the parts of the chat, nothing displayed. *)
Definition page : Document :=
  {| doc_elements :=
       [{| el_id := "newspaperModal"; classList := {["modal"]}; display := "" |};
        {| el_id := "calendarModal"; classList := {["modal"]}; display := "" |};
        {| el_id := "feedbackModal"; classList := {["modal"]}; display := "" |};
        {| el_id := "chatModal"; classList := {["modal"]}; display := "" |};
        {| el_id := "chatHeader"; classList := {["chat-header"]}; display := "" |};
        {| el_id := "chatMessages"; classList := {["chat-messages"]}; display := "" |};
        {| el_id := "chatInputContainer"; classList := {["chat-input-container"]};
           display := "" |}];
     body_overflow := "" |}.

(** The same page with the chat on display. *)
Definition chat_page : Document :=
  DOM.with_element "chatModal" (DOM.set_display "block") page.

(** A telephone whose window is 800 high, the keyboard down. *)
Definition keyboard_down : Viewport :=
  {| initialViewportHeight := 800; isKeyboardOpen := false |}.

(** The page with the newspaper opened by the manager and the chat put
    on display beside it. *)
Definition two_modals : ModalManager.State :=
  {| ModalManager.activeModal := Some "newspaperModal";
     ModalManager.document :=
       DOM.set_overflow "hidden"
         (DOM.with_element "newspaperModal" (DOM.set_display "block") chat_page) |}.

(** * Properties

    ** Property lists *)

Lemma existsb_eqb_elem (k : string) (ks : list string) :
  existsb (String.eqb k) ks = true <-> k ∈ ks.
Proof.
  induction ks as [|k' ks IH]; simpl.
  - split; [discriminate | intros H; inversion H].
  - rewrite orb_true_iff, IH, elem_of_cons, String.eqb_eq. tauto.
Qed.

Lemma unique_keys_NoDup (ks : list string) : unique_keys ks = true <-> NoDup ks.
Proof.
  induction ks as [|k ks IH]; simpl.
  - split; [constructor | reflexivity].
  - rewrite andb_true_iff, negb_true_iff, IH, NoDup_cons.
    rewrite <- not_true_iff_false, existsb_eqb_elem. tauto.
Qed.

Lemma assoc_set_fresh {A} (k : string) (v : A) (o : list (string * A)) :
  k ∉ map fst o -> assoc_set k v o = o ++ [(k, v)].
Proof.
  induction o as [|[k' v'] o IH]; simpl; intros Hk; [reflexivity|].
  rewrite not_elem_of_cons in Hk. destruct Hk as [Hne Hk].
  destruct (String.eqb_spec k k') as [->|_]; [contradiction|].
  by rewrite IH.
Qed.

Lemma assoc_set_keys {A} (k : string) (v : A) (o : list (string * A)) :
  k ∈ map fst o -> map fst (assoc_set k v o) = map fst o.
Proof.
  induction o as [|[k' v'] o IH]; simpl; intros Hk; [inversion Hk|].
  destruct (String.eqb_spec k k') as [->|Hne]; [reflexivity|].
  simpl. f_equal. apply IH. apply elem_of_cons in Hk as [?|?]; [contradiction|done].
Qed.

Lemma assoc_set_NoDup {A} (k : string) (v : A) (o : list (string * A)) :
  NoDup (map fst o) -> NoDup (map fst (assoc_set k v o)).
Proof.
  intros Hnd. destruct (decide (k ∈ map fst o)) as [Hin|Hout].
  - by rewrite assoc_set_keys.
  - rewrite assoc_set_fresh by done. rewrite map_app. simpl.
    apply NoDup_app. split; [done|]. split; [|apply NoDup_singleton].
    intros x Hx Hx'. apply list_elem_of_singleton in Hx'. by subst.
Qed.

Lemma assoc_set_Forall {A} (P : string * A -> Prop) (k : string) (v : A)
    (o : list (string * A)) :
  (forall k', P (k', v)) -> Forall P o -> Forall P (assoc_set k v o).
Proof.
  intros Hv. induction 1 as [|[k' v'] o Hx Ho IH]; simpl.
  - constructor; [apply Hv | constructor].
  - destruct (String.eqb k k'); constructor; auto.
Qed.

Lemma wf_value_obj (o : list (string * JsValue)) :
  wf_value (JObj o) = true <-> NoDup (map fst o) /\ Forall (fun kv => wf_value (snd kv) = true) o.
Proof.
  simpl. rewrite andb_true_iff, unique_keys_NoDup, forallb_forall, Forall_forall.
  split; intros [H1 H2]; (split; [exact H1|]).
  - intros x Hx. apply H2. by apply list_elem_of_In.
  - intros x Hx. apply H2. by apply list_elem_of_In.
Qed.

Lemma assoc_set_wf (k : string) (v : JsValue) (o : list (string * JsValue)) :
  wf_value (JObj o) = true -> wf_value v = true -> wf_value (JObj (assoc_set k v o)) = true.
Proof.
  rewrite !wf_value_obj. intros [Hnd Hall] Hv. split.
  - by apply assoc_set_NoDup.
  - by apply assoc_set_Forall.
Qed.

Module JsonTextFacts.
Import JsonText.

Lemma parse_chars_escape (c : ascii) (tail : list ascii) :
  parse_chars (escape_char c ++ tail) = cons_char c (parse_chars tail).
Proof.
  destruct c as [[] [] [] [] [] [] [] []]; reflexivity.
Qed.

Lemma parse_chars_print (cs rest : list ascii) :
  parse_chars (print_chars cs ++ quote :: rest) = Some (cs, rest).
Proof.
  induction cs as [|c cs IH]; [reflexivity|].
  unfold print_chars in *. simpl flat_map. rewrite <- app_assoc.
  rewrite parse_chars_escape, IH. reflexivity.
Qed.

Lemma parse_uint_rest (rest : list ascii) :
  follow_ok rest -> parse_uint rest = (Decimal.Nil, rest).
Proof.
  destruct rest as [|c r]; simpl; [reflexivity|]. intros ->. reflexivity.
Qed.

Lemma parse_uint_print (d : Decimal.uint) (rest : list ascii) :
  follow_ok rest -> parse_uint (print_uint d ++ rest) = (d, rest).
Proof.
  intros Hrest. induction d; simpl print_uint; simpl app.
  1: by apply parse_uint_rest.
  all: change (parse_uint (?c :: ?r)) with
         (match digit_of c with
          | Some D => let '(d, r') := parse_uint r in (D d, r')
          | None => (Decimal.Nil, c :: r)
          end); rewrite IHd; reflexivity.
Qed.

(** The first character of a printed number. *)
Lemma print_uint_head (d : Decimal.uint) :
  d <> Decimal.Nil ->
  exists c r, print_uint d = c :: r /\ Ascii.eqb c "-" = false /\
              is_number_start c = true /\ is_ws c = false.
Proof.
  destruct d; [congruence|..]; intros _; simpl; eauto 10.
Qed.

Lemma to_int_canonical (n : Z) :
  match Z.to_int n with
  | Decimal.Pos d | Decimal.Neg d => d <> Decimal.Nil /\ Decimal.unorm d = d
  end.
Proof.
  pose proof (DecimalZ.to_of (Z.to_int n)) as H. rewrite DecimalZ.of_to in H.
  destruct (Z.to_int n) as [d|d]; simpl in H.
  - injection H as H. split; [|congruence].
    intros ->. discriminate.
  - destruct (Decimal.nzhead d) eqn:E; try discriminate;
      injection H as H; subst d; (split; [discriminate|]);
      unfold Decimal.unorm; rewrite E; reflexivity.
Qed.

Lemma canonical_true (d : Decimal.uint) : Decimal.unorm d = d -> canonical d = true.
Proof. intros H. unfold canonical. by apply bool_decide_eq_true. Qed.

Lemma parse_number_print (n : Z) (rest : list ascii) :
  follow_ok rest -> parse_number (print_number n ++ rest) = Some (n, rest).
Proof.
  intros Hrest. unfold print_number.
  pose proof (to_int_canonical n) as Hc. pose proof (DecimalZ.of_to n) as Hn.
  destruct (Z.to_int n) as [d|d]; destruct Hc as [Hnil Hnorm].
  - destruct (print_uint_head d Hnil) as (c & r & E & Hminus & _).
    unfold parse_number. simpl app.
    assert (print_uint d ++ rest = c :: (r ++ rest)) as E' by (by rewrite E).
    rewrite E'. rewrite Hminus. rewrite <- E'.
    rewrite parse_uint_print by done. rewrite canonical_true by done. by rewrite Hn.
  - simpl. rewrite parse_uint_print by done. rewrite canonical_true by done.
    simpl in Hn. by rewrite Hn.
Qed.

Lemma print_number_head (n : Z) :
  exists c r, print_number n = c :: r /\ is_number_start c = true /\ is_ws c = false.
Proof.
  unfold print_number. pose proof (to_int_canonical n) as Hc.
  destruct (Z.to_int n) as [d|d]; destruct Hc as [Hnil _].
  - destruct (print_uint_head d Hnil) as (c & r & E & _ & Hs & Hw). eauto.
  - eexists _, _. split; [reflexivity|]. split; reflexivity.
Qed.

(** The first character of a printed value. *)
Lemma print_value_head (v : JsValue) :
  exists c r, print_value v = c :: r /\ is_ws c = false /\
              Ascii.eqb c "]" = false /\ Ascii.eqb c "}" = false.
Proof.
  destruct v as [|[]|n|s|l|o]; try (simpl; eauto 10; fail).
  - destruct (print_number_head n) as (c & r & E & Hs & Hw).
    exists c, r. split; [exact E|]. split; [exact Hw|].
    unfold is_number_start in Hs.
    split; destruct (Ascii.eqb_spec c "]"), (Ascii.eqb_spec c "}"); subst;
      try reflexivity; discriminate.
Qed.

Lemma skip_ws_head (c : ascii) (r : list ascii) :
  is_ws c = false -> skip_ws (c :: r) = c :: r.
Proof. intros H. simpl. by rewrite H. Qed.

Lemma parse_elements_print (l : list JsValue) :
  Forall roundtrips l ->
  forall x fuel rest,
    roundtrips x ->
    (elements_size (x :: l) <= fuel)%nat ->
    parse_elements fuel (print_elements print_value (x :: l) ++ "]"%char :: rest)
    = Some (x :: l, rest).
Proof.
  induction 1 as [|y l Hy Hl IH]; intros x fuel rest Hx Hfuel;
    (destruct fuel as [|fuel]; [simpl in Hfuel; lia|]);
    change (parse_elements (S fuel) ?s)
      with (elements_step (parse_value fuel) (parse_elements fuel) s);
    unfold elements_step.
  - simpl print_elements. rewrite app_nil_r.
    rewrite Hx; [|simpl in Hfuel; lia|reflexivity]. reflexivity.
  - change (print_elements print_value (x :: y :: l))
      with (print_value x ++ ","%char :: print_elements print_value (y :: l)).
    rewrite <- app_assoc, <- app_comm_cons.
    rewrite Hx; [|simpl in Hfuel |- *; lia|reflexivity].
    change (skip_ws (","%char :: ?r)) with (","%char :: r).
    cbv iota. rewrite Ascii.eqb_refl.
    rewrite IH; [reflexivity|exact Hy|].
    unfold elements_size in *. simpl in Hfuel |- *. lia.
Qed.

Lemma print_members_cons (kv : string * JsValue) (o : list (string * JsValue))
    (rest : list ascii) :
  print_members print_value (kv :: o) ++ rest =
  quote :: print_chars (list_ascii_of_string (fst kv)) ++
  quote :: ":"%char :: print_value (snd kv) ++
  match o with
  | [] => rest
  | _ :: _ => ","%char :: print_members print_value o ++ rest
  end.
Proof.
  change (print_members print_value (kv :: o))
    with (print_string (fst kv) ++ ":"%char :: print_value (snd kv) ++
          match o with
          | [] => []
          | _ :: _ => ","%char :: print_members print_value o
          end).
  unfold print_string. rewrite <- !app_comm_cons, <- !app_assoc.
  rewrite <- !app_comm_cons, <- !app_assoc. simpl.
  by destruct o.
Qed.

Lemma members_step_key value members (cs s : list ascii) acc :
  members_step value members (quote :: print_chars cs ++ quote :: ":"%char :: s) acc =
  match value s with
  | Some (v, r3) =>
      let acc' := assoc_set (string_of_list_ascii cs) v acc in
      match skip_ws r3 with
      | c3 :: r4 =>
          if Ascii.eqb c3 "," then members r4 acc'
          else if Ascii.eqb c3 "}" then Some (acc', r4)
          else None
      | [] => None
      end
  | None => None
  end.
Proof.
  unfold members_step.
  change (skip_ws (quote :: ?r)) with (quote :: r). cbv iota.
  rewrite Ascii.eqb_refl, parse_chars_print. reflexivity.
Qed.

Lemma parse_members_print (o : list (string * JsValue)) :
  Forall (fun kv => roundtrips (snd kv)) o ->
  forall kv acc fuel rest,
    roundtrips (snd kv) ->
    NoDup (map fst (acc ++ kv :: o)) ->
    (members_size (kv :: o) <= fuel)%nat ->
    parse_members fuel (print_members print_value (kv :: o) ++ "}"%char :: rest) acc
    = Some (acc ++ kv :: o, rest).
Proof.
  induction 1 as [|kv' o Hkv' Ho IH]; intros [k v] acc fuel rest Hv Hnd Hfuel;
    (destruct fuel as [|fuel]; [simpl in Hfuel; lia|]);
    change (parse_members (S fuel) ?s ?a)
      with (members_step (parse_value fuel) (parse_members fuel) s a);
    rewrite print_members_cons, members_step_key; simpl fst; simpl snd;
    rewrite string_of_list_ascii_of_string;
    (rewrite Hv; [|simpl in Hfuel |- *; lia|reflexivity]);
    cbv zeta;
    (rewrite assoc_set_fresh;
     [|rewrite map_app in Hnd; apply NoDup_app in Hnd as (_ & Hnd & _);
       intros Hin; apply (Hnd k Hin); simpl; left]).
  - reflexivity.
  - change (skip_ws (","%char :: ?r)) with (","%char :: r).
    cbv iota. rewrite Ascii.eqb_refl.
    rewrite IH; [by rewrite <- app_assoc|exact Hkv'|by rewrite <- app_assoc|].
    unfold members_size in *. simpl in Hfuel |- *. lia.
Qed.

Lemma value_step_number elements members (c : ascii) (r : list ascii) :
  is_ws c = false -> is_number_start c = true ->
  value_step elements members (c :: r) =
  match parse_number (c :: r) with
  | Some (n, r') => Some (JNum n, r')
  | None => None
  end.
Proof.
  intros Hw Hs. unfold value_step. rewrite skip_ws_head by done. by rewrite Hs.
Qed.

Lemma value_step_string elements members (r : list ascii) :
  value_step elements members (quote :: r) =
  match parse_chars r with
  | Some (cs, r') => Some (JStr (string_of_list_ascii cs), r')
  | None => None
  end.
Proof. reflexivity. Qed.

Lemma value_step_array elements members (c : ascii) (r : list ascii) :
  is_ws c = false -> Ascii.eqb c "]" = false ->
  value_step elements members ("["%char :: c :: r) =
  match elements (c :: r) with
  | Some (l, r'') => Some (JArr l, r'')
  | None => None
  end.
Proof.
  intros Hw Hc. unfold value_step.
  change (skip_ws ("["%char :: ?s)) with ("["%char :: s). cbv iota.
  change (is_number_start "[") with false. cbv iota.
  change (Ascii.eqb "[" "n") with false. change (Ascii.eqb "[" "t") with false.
  change (Ascii.eqb "[" "f") with false. change (Ascii.eqb "[" quote) with false.
  change (Ascii.eqb "[" "[") with true. cbv iota.
  rewrite skip_ws_head by done. by rewrite Hc.
Qed.

Lemma value_step_object elements members (c : ascii) (r : list ascii) :
  is_ws c = false -> Ascii.eqb c "}" = false ->
  value_step elements members ("{"%char :: c :: r) =
  match members (c :: r) [] with
  | Some (o, r'') => Some (JObj o, r'')
  | None => None
  end.
Proof.
  intros Hw Hc. unfold value_step.
  change (skip_ws ("{"%char :: ?s)) with ("{"%char :: s). cbv iota.
  change (is_number_start "{") with false. cbv iota.
  change (Ascii.eqb "{" "n") with false. change (Ascii.eqb "{" "t") with false.
  change (Ascii.eqb "{" "f") with false. change (Ascii.eqb "{" quote) with false.
  change (Ascii.eqb "{" "[") with false. change (Ascii.eqb "{" "{") with true. cbv iota.
  rewrite skip_ws_head by done. by rewrite Hc.
Qed.

Lemma print_value_roundtrips (v : JsValue) : wf_value v = true -> roundtrips v.
Proof.
  induction v as [|b|n|s|l IH|o IH] using JsValue_ind; intros Hwf fuel rest Hfuel Hrest;
    (destruct fuel as [|fuel]; [simpl in Hfuel; lia|]);
    change (parse_value (S fuel) ?s)
      with (value_step (parse_elements fuel) (parse_members fuel) s).
  - reflexivity.
  - destruct b; reflexivity.
  - destruct (print_number_head n) as (c & r & E & Hs & Hw).
    simpl print_value. pose proof (parse_number_print n rest Hrest) as Hp.
    rewrite E in Hp |- *. rewrite <- app_comm_cons in Hp |- *.
    rewrite value_step_number by done. by rewrite Hp.
  - simpl print_value. unfold print_string.
    rewrite <- app_comm_cons, <- app_assoc. simpl app.
    rewrite value_step_string, parse_chars_print.
    by rewrite string_of_list_ascii_of_string.
  - destruct l as [|x l]; [reflexivity|].
    simpl in Hwf. apply andb_true_iff in Hwf as [Hx Hl].
    inversion IH as [|? ? IHx IHl]; subst.
    assert (Forall roundtrips l) as Hall.
    { rewrite forallb_forall in Hl. rewrite Forall_forall in IHl |- *.
      intros y Hy. apply IHl; [done|]. apply Hl. by apply list_elem_of_In. }
    pose proof (parse_elements_print l Hall x fuel rest (IHx Hx)) as Hp.
    change (print_value (JArr (x :: l)))
      with ("["%char :: print_elements print_value (x :: l) ++ ["]"%char]).
    rewrite <- app_comm_cons, <- app_assoc. simpl (["]"%char] ++ rest).
    destruct (print_value_head x) as (c & r & E & Hw & Hc & _).
    assert (exists r', print_elements print_value (x :: l) ++ "]"%char :: rest = c :: r')
      as [r' E'].
    { simpl. rewrite E. simpl. eauto. }
    rewrite E' in Hp |- *. rewrite value_step_array by done.
    rewrite Hp; [reflexivity|]. simpl in Hfuel. unfold elements_size. simpl. lia.
  - destruct o as [|kv o]; [reflexivity|].
    apply wf_value_obj in Hwf as [Hnd Hwf].
    inversion IH as [|? ? IHx IHl]; subst.
    inversion Hwf as [|? ? Hx Hl]; subst.
    assert (Forall (fun kv => roundtrips (snd kv)) o) as Hall.
    { rewrite Forall_forall in IHl, Hl |- *. intros y Hy. apply IHl; [done|]. by apply Hl. }
    pose proof (parse_members_print o Hall kv [] fuel rest (IHx Hx) Hnd) as Hp.
    change (print_value (JObj (kv :: o)))
      with ("{"%char :: print_members print_value (kv :: o) ++ ["}"%char]).
    rewrite <- app_comm_cons, <- app_assoc. simpl (["}"%char] ++ rest).
    assert (exists r', print_members print_value (kv :: o) ++ "}"%char :: rest = quote :: r')
      as [r' E'].
    { rewrite print_members_cons. eauto. }
    rewrite E' in Hp |- *. rewrite value_step_object by done.
    rewrite Hp; [reflexivity|]. simpl in Hfuel. unfold members_size. simpl. lia.
Qed.

Lemma elements_size_le (l : list JsValue) :
  Forall (fun v => (size v <= length (print_value v))%nat) l ->
  (elements_size l <= S (length (print_elements print_value l)))%nat.
Proof.
  induction 1 as [|x l Hx Hl IH]; [simpl; lia|].
  unfold elements_size in *. simpl. rewrite length_app.
  destruct l; simpl in *; lia.
Qed.

Lemma members_size_le (o : list (string * JsValue)) :
  Forall (fun kv => (size (snd kv) <= length (print_value (snd kv)))%nat) o ->
  (members_size o <= S (length (print_members print_value o)))%nat.
Proof.
  induction 1 as [|x l Hx Hl IH]; [simpl; lia|].
  unfold members_size in *. simpl. rewrite !length_app. simpl. rewrite length_app.
  destruct l; simpl in *; lia.
Qed.

Lemma size_le_length (v : JsValue) : (size v <= length (print_value v))%nat.
Proof.
  induction v as [|b|n|s|l IH|o IH] using JsValue_ind.
  - simpl. lia.
  - destruct b; simpl; lia.
  - destruct (print_number_head n) as (c & r & E & _). simpl. rewrite E. simpl. lia.
  - simpl. lia.
  - pose proof (elements_size_le l IH). simpl. rewrite length_app. simpl.
    unfold elements_size in *. lia.
  - pose proof (members_size_le o IH). simpl. rewrite length_app. simpl.
    unfold members_size in *. lia.
Qed.

Theorem parse_stringify (v : JsValue) :
  wf_value v = true -> parse (stringify v) = Some v.
Proof.
  intros Hwf. unfold parse, stringify. rewrite list_ascii_of_string_of_list_ascii.
  pose proof (print_value_roundtrips v Hwf (2 * length (print_value v) + 2)%nat []) as H.
  rewrite app_nil_r in H. rewrite H; [reflexivity| |exact I].
  pose proof (size_le_length v). lia.
Qed.

Lemma literal_value (word : string) (v v' : JsValue) (s r : list ascii) :
  literal word v s = Some (v', r) -> v' = v.
Proof. unfold literal. destruct (strip_prefix _ s); congruence. Qed.

Lemma value_step_wf elements members :
  (forall s l r, elements s = Some (l, r) -> forallb wf_value l = true) ->
  (forall s o r, members s [] = Some (o, r) -> wf_value (JObj o) = true) ->
  forall s v r, value_step elements members s = Some (v, r) -> wf_value v = true.
Proof.
  intros He Hm s v r. unfold value_step.
  repeat (case_match; try discriminate);
    try (intros Hlit; apply literal_value in Hlit; subst; reflexivity);
    intros [= <- <-]; try reflexivity; eauto.
Qed.

Lemma elements_step_wf value elements :
  (forall s v r, value s = Some (v, r) -> wf_value v = true) ->
  (forall s l r, elements s = Some (l, r) -> forallb wf_value l = true) ->
  forall s l r, elements_step value elements s = Some (l, r) -> forallb wf_value l = true.
Proof.
  intros Hv He s l r. unfold elements_step.
  repeat (case_match; try discriminate); intros [= <- <-]; simpl;
    rewrite ?andb_true_r; rewrite ?andb_true_iff; eauto.
Qed.

Lemma members_step_wf value members :
  (forall s v r, value s = Some (v, r) -> wf_value v = true) ->
  (forall s acc o r, wf_value (JObj acc) = true ->
                     members s acc = Some (o, r) -> wf_value (JObj o) = true) ->
  forall s acc o r,
    wf_value (JObj acc) = true ->
    members_step value members s acc = Some (o, r) -> wf_value (JObj o) = true.
Proof.
  intros Hv Hm s acc o r Hacc. unfold members_step.
  repeat (case_match; try discriminate); cbv zeta.
  - apply Hm. apply assoc_set_wf; eauto.
  - intros [= <- <-]. apply assoc_set_wf; eauto.
Qed.

Lemma parse_fuel_wf (fuel : nat) :
  (forall s v r, parse_value fuel s = Some (v, r) -> wf_value v = true) /\
  (forall s l r, parse_elements fuel s = Some (l, r) -> forallb wf_value l = true) /\
  (forall s acc o r, wf_value (JObj acc) = true ->
                     parse_members fuel s acc = Some (o, r) -> wf_value (JObj o) = true).
Proof.
  induction fuel as [|fuel (IHv & IHe & IHm)]; [repeat split; discriminate|].
  repeat split.
  - apply value_step_wf; [exact IHe|]. intros s o r. by apply IHm.
  - by apply elements_step_wf.
  - by apply members_step_wf.
Qed.

Theorem parse_wf (s : string) (v : JsValue) : parse s = Some v -> wf_value v = true.
Proof.
  unfold parse. repeat (case_match; try discriminate). intros [= <-].
  eapply parse_fuel_wf. eassumption.
Qed.

End JsonTextFacts.

#[export] Instance json_text : JSON := {|
  JSON_parse := JsonText.parse;
  JSON_stringify := JsonText.stringify;
  JSON_parse_empty := eq_refl;
  JSON_parse_wf := JsonTextFacts.parse_wf;
  JSON_parse_stringify := JsonTextFacts.parse_stringify
|}.

(** ** The identity resolver *)

Lemma getUserId_telegram (w : World) (u : TgUser) :
  telegram_user w = Some u -> getUserId w = (w, Return (tg_token u)).
Proof. intros H. unfold getUserId. by rewrite H. Qed.

Lemma getUserId_denied (w : World) :
  telegram_user w = None -> denied (localStorage w) = true ->
  getUserId w = (w, Throw SecurityError).
Proof.
  intros Ht Hd. unfold getUserId, js_bind, getItem. by rewrite Ht, Hd.
Qed.

Lemma getUserId_stored (w : World) (s : string) :
  telegram_user w = None -> denied (localStorage w) = false -> stored_id w = Some s ->
  getUserId w = (w, Return s).
Proof.
  intros Ht Hd Hs. unfold getUserId, js_bind, getItem, stored_id in *. rewrite Ht, Hd.
  destruct (items (localStorage w) !! "chat_user_id") as [s'|]; [|discriminate].
  destruct (String.eqb s' ""); [discriminate|]. by injection Hs as ->.
Qed.

Lemma generateUserId_full (w : World) :
  denied (localStorage w) = false -> full (localStorage w) = true ->
  generateUserId w = (w, Throw QuotaExceededError).
Proof.
  intros Hd Hf. unfold generateUserId, js_bind, setItem. by rewrite Hd, Hf.
Qed.

Lemma getUserId_full (w : World) :
  telegram_user w = None -> denied (localStorage w) = false -> stored_id w = None ->
  full (localStorage w) = true ->
  getUserId w = (w, Throw QuotaExceededError).
Proof.
  intros Ht Hd Hs Hf. unfold getUserId, js_bind, getItem, stored_id in *. rewrite Ht, Hd.
  destruct (items (localStorage w) !! "chat_user_id") as [s'|].
  - destruct (String.eqb s' ""); [|discriminate]. by apply generateUserId_full.
  - by apply generateUserId_full.
Qed.

Lemma getUserId_generated (w : World) :
  telegram_user w = None -> denied (localStorage w) = false -> stored_id w = None ->
  full (localStorage w) = false ->
  getUserId w = (generated_world w, Return (web_token w)).
Proof.
  intros Ht Hd Hs Hf. unfold getUserId, js_bind, getItem, stored_id in *. rewrite Ht, Hd.
  assert (generateUserId w = (generated_world w, Return (web_token w))) as Hg.
  { unfold generateUserId, generated_world, js_bind, setItem, console_log, js_ret.
    by rewrite Hd, Hf. }
  destruct (items (localStorage w) !! "chat_user_id") as [s'|]; [|exact Hg].
  destruct (String.eqb s' ""); [exact Hg|discriminate].
Qed.

(** A resolution leaves the host object and the adapter alone. *)
Lemma getUserId_host (w : World) :
  Telegram (world_after getUserId w) = Telegram w /\
  TelegramWebApp (world_after getUserId w) = TelegramWebApp w.
Proof.
  unfold world_after.
  destruct (telegram_user w) as [u|] eqn:Ht.
  { by rewrite (getUserId_telegram w u Ht). }
  destruct (denied (localStorage w)) eqn:Hd.
  { by rewrite getUserId_denied. }
  destruct (stored_id w) as [s|] eqn:Hs.
  { by rewrite (getUserId_stored w s). }
  destruct (full (localStorage w)) eqn:Hf.
  - by rewrite getUserId_full.
  - by rewrite getUserId_generated.
Qed.

(** A resolution sends nothing. *)
Lemma getUserId_network (w : World) :
  network (world_after getUserId w) = network w.
Proof.
  unfold world_after.
  destruct (telegram_user w) as [u|] eqn:Ht.
  { by rewrite (getUserId_telegram w u Ht). }
  destruct (denied (localStorage w)) eqn:Hd.
  { by rewrite getUserId_denied. }
  destruct (stored_id w) as [s|] eqn:Hs.
  { by rewrite (getUserId_stored w s). }
  destruct (full (localStorage w)) eqn:Hf.
  - by rewrite getUserId_full.
  - by rewrite getUserId_generated.
Qed.

(** A resolved token is never the empty string. *)
Lemma getUserId_nonempty (w : World) (X : string) :
  result_of getUserId w = Return X -> String.eqb X "" = false.
Proof.
  unfold result_of.
  destruct (telegram_user w) as [u|] eqn:Ht.
  { rewrite (getUserId_telegram w u Ht). intros [= <-]. reflexivity. }
  destruct (denied (localStorage w)) eqn:Hd.
  { by rewrite getUserId_denied. }
  destruct (stored_id w) as [s|] eqn:Hs.
  { rewrite (getUserId_stored w s) by done. intros [= <-].
    unfold stored_id in Hs. destruct (items (localStorage w) !! "chat_user_id"); [|done].
    by destruct (String.eqb s0 "") eqn:E; [|injection Hs as <-]. }
  destruct (full (localStorage w)) eqn:Hf.
  - by rewrite getUserId_full.
  - rewrite getUserId_generated by done. intros [= <-]. reflexivity.
Qed.

(** A resolution that throws leaves the world as it was. *)
Lemma getUserId_throws (w : World) (e : JsError) :
  result_of getUserId w = Throw e -> getUserId w = (w, Throw e).
Proof.
  unfold result_of.
  destruct (telegram_user w) as [u|] eqn:Ht.
  { by rewrite (getUserId_telegram w u Ht). }
  destruct (denied (localStorage w)) eqn:Hd.
  { rewrite getUserId_denied by done. by intros [= <-]. }
  destruct (stored_id w) as [s|] eqn:Hs.
  { by rewrite (getUserId_stored w s). }
  destruct (full (localStorage w)) eqn:Hf.
  - rewrite getUserId_full by done. by intros [= <-].
  - by rewrite getUserId_generated.
Qed.

(** C2, as stated, fails: with no Telegram user and nothing stored, a
    [setItem] that throws makes [getUserId] throw. *)
Lemma getUserId_throws_on_failed_write :
  getUserId quota_world = (quota_world, Throw QuotaExceededError) /\
  ~ (forall w, exists token, result_of getUserId w = Return token).
Proof.
  assert (getUserId quota_world = (quota_world, Throw QuotaExceededError)) as H.
  { by apply getUserId_full. }
  split; [exact H|].
  intros Hall. destruct (Hall quota_world) as [token Ht].
  unfold result_of in Ht. rewrite H in Ht. discriminate.
Qed.

(** C2, amended: [getUserId] returns a token exactly when the host exposes
    a Telegram user, or the storage can be read and either holds an
    identity or takes the new one; otherwise it throws what the storage
    threw, and the world is as before the call. *)
Theorem getUserId_returns_iff (w : World) :
  ((exists token, result_of getUserId w = Return token) <->
   (is_Some (telegram_user w) \/
    (denied (localStorage w) = false /\
     (is_Some (stored_id w) \/ full (localStorage w) = false)))) /\
  (forall e, result_of getUserId w = Throw e ->
             world_after getUserId w = w /\
             (e = SecurityError \/ e = QuotaExceededError)).
Proof.
  unfold result_of, world_after.
  destruct (telegram_user w) as [u|] eqn:Ht.
  { rewrite (getUserId_telegram w u Ht). simpl. split; [|discriminate].
    split; eauto. }
  destruct (denied (localStorage w)) eqn:Hd.
  { rewrite getUserId_denied by done. simpl. split.
    - split; [intros [? [=]]|]. intros [[? [=]]|[[=] _]].
    - intros e [= <-]. eauto. }
  destruct (stored_id w) as [s|] eqn:Hs.
  { rewrite (getUserId_stored w s) by done. simpl. split; [|discriminate].
    split; eauto 6. }
  destruct (full (localStorage w)) eqn:Hf.
  - rewrite getUserId_full by done. simpl. split.
    + split; [intros [? [=]]|]. intros [[? [=]]|[_ [[? [=]]|[=]]]].
    + intros e [= <-]. eauto.
  - rewrite getUserId_generated by done. simpl. split; [|discriminate].
    split; eauto 6.
Qed.

(** ** Precedence of the Telegram identity *)

Lemma telegram_id_adapter (w : World) (i : string) :
  ApiClient.telegram_id w = Some i <->
  exists host d u,
    TelegramWebApp w = Some (InTelegram host) /\
    initDataUnsafe host = Some d /\ user d = Some u /\
    (tg_id u =? 0) = false /\ i = Z_toString (tg_id u).
Proof.
  unfold ApiClient.telegram_id. split.
  - destruct (TelegramWebApp w) as [[t|host]|]; simpl; try discriminate.
    destruct (initDataUnsafe host) as [d|] eqn:Hd; [|discriminate].
    destruct (user d) as [u|] eqn:Hu; [|discriminate].
    destruct (tg_id u =? 0) eqn:Hz; [discriminate|]. intros [= <-].
    exists host, d, u. by rewrite Hd.
  - intros (host & d & u & -> & Hd & Hu & Hz & ->). simpl. by rewrite Hd, Hu, Hz.
Qed.

(** [updateUserId] with the flag of the adapter not set. *)
Lemma updateUserId_outside (w : World) (c : Chat) :
  in_telegram w = false ->
  ChatManager.updateUserId w c
  = if negb (truthy (currentUserId c))
    then ChatManager.set_currentUserId (JStr ("web_session_" +:+ Z_toString (now w))) c
    else c.
Proof.
  unfold in_telegram, ChatManager.updateUserId.
  destruct (TelegramWebApp w) as [a|]; [|reflexivity]. by intros ->.
Qed.

(** [updateUserId] with a Telegram user in sight of the adapter. *)
Lemma updateUserId_user (w : World) (c : Chat) (i : string) :
  ApiClient.telegram_id w = Some i ->
  ChatManager.updateUserId w c
  = if ChatManager.JsValue_eqb_string (currentUserId c) ("tg_" +:+ i) then c
    else ChatManager.set_isHistoryLoaded false
           (ChatManager.set_currentUserId (JStr ("tg_" +:+ i)) c).
Proof.
  unfold ApiClient.telegram_id, ChatManager.updateUserId.
  destruct (TelegramWebApp w) as [a|]; [|discriminate].
  destruct (isInTelegram a); [|discriminate].
  destruct (getTelegramUser a) as [u|]; [|discriminate].
  destruct (tg_id u =? 0); [discriminate|]. intros [= <-].
  by destruct (ChatManager.JsValue_eqb_string (currentUserId c) _).
Qed.

(** [updateUserId] with the flag set and no user in sight. *)
Lemma updateUserId_no_user (w : World) (c : Chat) :
  in_telegram w = true -> ApiClient.telegram_id w = None ->
  ChatManager.updateUserId w c = c.
Proof.
  unfold in_telegram, ApiClient.telegram_id, ChatManager.updateUserId.
  destruct (TelegramWebApp w) as [a|]; [|discriminate]. intros ->.
  destruct (getTelegramUser a) as [u|]; [|reflexivity].
  by destruct (tg_id u =? 0).
Qed.

Lemma updateUserId_telegram (w : World) (c : Chat) (i : string) :
  ApiClient.telegram_id w = Some i ->
  currentUserId (ChatManager.updateUserId w c) = JStr ("tg_" +:+ i).
Proof.
  intros Htid. rewrite (updateUserId_user w c i Htid).
  destruct (currentUserId c) as [| | |s| |] eqn:E; simpl; try reflexivity.
  destruct (String.eqb_spec s ("tg_" +:+ i)) as [->|]; simpl; done.
Qed.

(** C4, as stated, fails. The host object appears after the adapter's
    script has loaded (the adapter is as it loaded in [web_world]):
    [getUserId] sees user 555 at once and returns
    [tg_555], and the resolution of the chat manager that follows, in the
    same state of the page, goes by the adapter's flag, which was fixed at
    load, and makes a web session identity. And nothing is remembered of
    a Telegram identity: once [window.Telegram] is gone, [getUserId]
    returns the stored web identity again. *)
Lemma web_identity_after_telegram_identity :
  TelegramWebApp late_host_world = Some (load_adapter web_world) /\
  getUserId late_host_world = (late_host_world, Return "tg_555") /\
  currentUserId (ChatManager.updateUserId late_host_world initial_chat)
  = JStr "web_session_1700000360000" /\
  result_of getUserId tg_world = Return "tg_555" /\
  result_of getUserId tg_world_withdrawn = Return "web_1700000000000_k3j9x0q2abc" /\
  ~ (forall w c u,
       result_of getUserId w = Return (tg_token u) ->
       currentUserId (ChatManager.updateUserId (world_after getUserId w) c)
       = JStr (tg_token u)).
Proof.
  split; [reflexivity|].
  split; [reflexivity|]. split; [reflexivity|]. split; [reflexivity|].
  split; [reflexivity|].
  intros Hall.
  specialize (Hall late_host_world initial_chat {| tg_id := 555 |} eq_refl).
  discriminate Hall.
Qed.

(** C4, amended. Each resolution goes by what it reads at that call; none
    remembers an earlier one. [getUserId] reads [window.Telegram.WebApp]
    at every call: while that exposes a user with an id the result is
    [tg_<id>] and the storage is left alone; when it exposes none, a
    call that returns gives the stored identity or, with none stored, the
    newly made web identity, whatever was returned before. [updateUserId]
    does not read [window.Telegram]: its result is the same in every state
    of the page with the same adapter and the same clock. It goes by the flag
    and the host object the adapter fixed when its script loaded: with
    the flag set and a user on that object the identity becomes [tg_<id>];
    with the flag set and no user nothing changes; with the flag not set
    an identity that is there is kept and else [web_session_<now>] is
    made, also while [getUserId] returns [tg_<id>]. The two resolvers
    agree on [tg_<id>] when the adapter loaded inside Telegram and the
    object it captured is the one [window.Telegram.WebApp] holds. *)
Theorem resolution_reads_the_present (w : World) (c : Chat) :
  (forall u, telegram_user w = Some u -> getUserId w = (w, Return (tg_token u))) /\
  (telegram_user w = None ->
   forall X, result_of getUserId w = Return X ->
             stored_id w = Some X \/ (stored_id w = None /\ X = web_token w)) /\
  (forall w', TelegramWebApp w' = TelegramWebApp w -> now w' = now w ->
              ChatManager.updateUserId w' c = ChatManager.updateUserId w c) /\
  (forall i, ApiClient.telegram_id w = Some i ->
             currentUserId (ChatManager.updateUserId w c) = JStr ("tg_" +:+ i)) /\
  (in_telegram w = true -> ApiClient.telegram_id w = None ->
   ChatManager.updateUserId w c = c) /\
  (in_telegram w = false ->
   currentUserId (ChatManager.updateUserId w c)
   = if truthy (currentUserId c) then currentUserId c
     else JStr ("web_session_" +:+ Z_toString (now w))) /\
  (forall host u,
     Telegram w = Some host -> TelegramWebApp w = Some (InTelegram host) ->
     telegram_user w = Some u ->
     result_of getUserId w = Return (tg_token u) /\
     currentUserId (ChatManager.updateUserId w c) = JStr (tg_token u)).
Proof.
  split; [|split; [|split; [|split; [|split; [|split]]]]].
  - intros u. apply getUserId_telegram.
  - intros Ht X. unfold result_of.
    destruct (denied (localStorage w)) eqn:Hd.
    { by rewrite getUserId_denied. }
    destruct (stored_id w) as [s|] eqn:Hs.
    { rewrite (getUserId_stored w s) by done. intros [= <-]. by left. }
    destruct (full (localStorage w)) eqn:Hf.
    + by rewrite getUserId_full.
    + rewrite getUserId_generated by done. intros [= <-]. by right.
  - intros w' Ha Hn. unfold ChatManager.updateUserId. by rewrite Ha, Hn.
  - intros i. apply updateUserId_telegram.
  - apply updateUserId_no_user.
  - intros Hout. rewrite updateUserId_outside by done.
    by destruct (truthy (currentUserId c)).
  - intros host u Hhost Ha Hu. split.
    + unfold result_of. by rewrite (getUserId_telegram w u Hu).
    + apply updateUserId_telegram. apply telegram_id_adapter.
      unfold telegram_user in Hu. rewrite Hhost in Hu.
      destruct (initDataUnsafe host) as [d|] eqn:Hd; [|discriminate].
      destruct (user d) as [u'|] eqn:Hu'; [|discriminate].
      destruct (tg_id u' =? 0) eqn:Hz; [discriminate|]. injection Hu as <-.
      by exists host, d, u'.
Qed.

Lemma resolution_reads_the_present_witness :
  getUserId late_host_world = (late_host_world, Return (tg_token {| tg_id := 555 |})) /\
  currentUserId (ChatManager.updateUserId tg_world_withdrawn initial_chat)
  = JStr ("tg_" +:+ "555") /\
  currentUserId (ChatManager.updateUserId late_host_world initial_chat)
  = (if truthy (currentUserId initial_chat) then currentUserId initial_chat
     else JStr ("web_session_" +:+ Z_toString (now late_host_world))) /\
  (result_of getUserId tg_world = Return (tg_token {| tg_id := 555 |}) /\
   currentUserId (ChatManager.updateUserId tg_world initial_chat)
   = JStr (tg_token {| tg_id := 555 |})).
Proof.
  split; [|split; [|split]].
  - apply (proj1 (resolution_reads_the_present late_host_world initial_chat)).
    reflexivity.
  - apply (proj1 (proj2 (proj2 (proj2
             (resolution_reads_the_present tg_world_withdrawn initial_chat))))).
    reflexivity.
  - apply (proj1 (proj2 (proj2 (proj2 (proj2 (proj2
             (resolution_reads_the_present late_host_world initial_chat))))))).
    reflexivity.
  - apply (proj2 (proj2 (proj2 (proj2 (proj2 (proj2
             (resolution_reads_the_present tg_world initial_chat))))))
             host_555 {| tg_id := 555 |}); reflexivity.
Defined.

(** ** The request identity injector *)

(** A second resolution right after a first returns the same token and
    changes nothing more. *)
Lemma getUserId_again (w : World) (X : string) :
  result_of getUserId w = Return X ->
  getUserId (world_after getUserId w) = (world_after getUserId w, Return X).
Proof.
  unfold result_of, world_after.
  destruct (telegram_user w) as [u|] eqn:Ht.
  { rewrite (getUserId_telegram w u Ht). simpl. intros [= <-].
    by apply getUserId_telegram. }
  destruct (denied (localStorage w)) eqn:Hd.
  { by rewrite getUserId_denied. }
  destruct (stored_id w) as [s|] eqn:Hs.
  { rewrite (getUserId_stored w s) by done. simpl. intros [= <-].
    by apply getUserId_stored. }
  destruct (full (localStorage w)) eqn:Hf.
  - by rewrite getUserId_full.
  - rewrite getUserId_generated by done. simpl. intros [= <-].
    apply getUserId_stored; [exact Ht|exact Hd|].
    unfold stored_id, generated_world. simpl. rewrite lookup_insert_eq. reflexivity.
Qed.

Lemma assoc_get_set {A} (k : string) (v : A) (o : list (string * A)) :
  assoc_get k (assoc_set k v o) = Some v.
Proof.
  induction o as [|[k' v'] o IH]; simpl.
  - by rewrite String.eqb_refl.
  - destruct (String.eqb k k') eqn:E; simpl; rewrite E; [reflexivity|exact IH].
Qed.

Lemma count_key_absent {A} (k : string) (o : list (string * A)) :
  k ∉ map fst o -> count_key k o = 0%nat.
Proof.
  unfold count_key. induction o as [|[k' v'] o IH]; [reflexivity|].
  simpl. intros Hk. apply not_elem_of_cons in Hk as [Hne Hk].
  rewrite filter_cons. simpl.
  destruct (decide (String.eqb k k' = true)) as [E|E].
  - apply String.eqb_eq in E. contradiction.
  - by apply IH.
Qed.

Lemma count_key_NoDup {A} (k : string) (o : list (string * A)) :
  NoDup (map fst o) -> k ∈ map fst o -> count_key k o = 1%nat.
Proof.
  unfold count_key. induction o as [|[k' v'] o IH]; simpl; intros Hnd Hk.
  - inversion Hk.
  - apply NoDup_cons in Hnd as [Hk' Hnd]. rewrite filter_cons. simpl.
    destruct (decide (String.eqb k k' = true)) as [E|E].
    + apply String.eqb_eq in E. subst k'. simpl. f_equal.
      by apply (count_key_absent k o).
    + apply elem_of_cons in Hk as [->|Hk].
      * by rewrite String.eqb_refl in E.
      * by apply IH.
Qed.

Lemma assoc_set_key_in {A} (k : string) (v : A) (o : list (string * A)) :
  k ∈ map fst (assoc_set k v o).
Proof.
  induction o as [|[k' v'] o IH]; simpl.
  - apply elem_of_cons. by left.
  - destruct (String.eqb_spec k k') as [->|_]; simpl; apply elem_of_cons; auto.
Qed.

(** [formData.append] adds one entry of the name. *)
Lemma count_key_append (entries : list (string * FormValue)) (name : string)
    (v : FormValue) :
  FormData.has entries name = false ->
  count_key name (FormData.append entries name v) = 1%nat.
Proof.
  intros Hhas. unfold FormData.append, count_key.
  rewrite filter_app, length_app.
  assert (filter (fun kv => String.eqb name (fst kv) = true) entries = []) as ->.
  { induction entries as [|[k x] es IH]; [reflexivity|].
    simpl in Hhas. apply orb_false_iff in Hhas as [Hk Hes].
    rewrite filter_cons. simpl. rewrite String.eqb_sym, Hk.
    destruct (decide (false = true)); [discriminate|]. by apply IH. }
  rewrite filter_cons. simpl. rewrite String.eqb_refl.
  destruct (decide (true = true)); [reflexivity|contradiction].
Qed.

Lemma has_append (entries : list (string * FormValue)) (name : string) (v : FormValue) :
  FormData.has (FormData.append entries name v) name = true.
Proof.
  unfold FormData.has, FormData.append. rewrite existsb_app. simpl.
  rewrite String.eqb_refl. by rewrite orb_true_r.
Qed.

Section Injector.

Context {json : JSON}.

(** The injector on a multipart body that has a [user_id]. *)
Lemma inject_formdata_present (url : string) (options : Options)
    (entries : list (string * FormValue)) (w : World) :
  body options = BodyFormData entries ->
  FormData.has entries "user_id" = true ->
  inject_user_id url options w = (w, Return options).
Proof.
  intros Hb Hhas. unfold inject_user_id. rewrite Hb, Hhas.
  by destruct (is_chat_post url options).
Qed.

(** The injector on a multipart body without one. *)
Lemma inject_formdata_absent (url : string) (options : Options)
    (entries : list (string * FormValue)) (X : string) (w : World) :
  is_chat_post url options = true ->
  body options = BodyFormData entries ->
  FormData.has entries "user_id" = false ->
  result_of getUserId w = Return X ->
  inject_user_id url options w =
    (add_console (ConsoleLog "Added user_id to FormData:" X) (world_after getUserId w),
     Return (with_body options
               (BodyFormData (FormData.append entries "user_id" (FVString X))))).
Proof.
  intros Hc Hb Hhas HX. unfold inject_user_id. rewrite Hc, Hb, Hhas. simpl.
  pose proof (getUserId_again w X HX) as H2.
  unfold result_of, world_after in *. unfold js_bind.
  destruct (getUserId w) as [w1 r]. simpl in *. subst r. by rewrite H2.
Qed.

(** The injector on a JSON object without a (truthy) [user_id]. *)
Lemma inject_json_absent (url : string) (options : Options) (s : string)
    (o : list (string * JsValue)) (X : string) (w : World) :
  is_chat_post url options = true ->
  is_json_request options = true ->
  body options = BodyString s ->
  JSON_parse s = Some (JObj o) ->
  truthy_opt (assoc_get "user_id" o) = false ->
  result_of getUserId w = Return X ->
  inject_user_id url options w =
    (add_console (ConsoleLog "Added user_id to JSON:" X) (world_after getUserId w),
     Return (with_body options
               (BodyString (JSON_stringify (JObj (assoc_set "user_id" (JStr X) o)))))).
Proof.
  intros Hc Hj Hb Hp Hu HX. unfold inject_user_id. rewrite Hc, Hb, Hj.
  pose proof (getUserId_again w X HX) as H2.
  unfold result_of, world_after in *.
  unfold js_try, js_bind, parse_body, js_lift, js_ret. rewrite Hp. simpl. rewrite Hu. simpl.
  destruct (getUserId w) as [w1 r]. simpl in *. subst r. simpl. by rewrite H2.
Qed.

(** The injector on a JSON object that has a truthy [user_id]. *)
Lemma inject_json_present (url : string) (options : Options) (s : string)
    (o : list (string * JsValue)) (w : World) :
  body options = BodyString s ->
  JSON_parse s = Some (JObj o) ->
  truthy_opt (assoc_get "user_id" o) = true ->
  inject_user_id url options w = (w, Return options).
Proof.
  intros Hb Hp Hu. unfold inject_user_id. rewrite Hb.
  destruct (is_chat_post url options); [|reflexivity].
  destruct (is_json_request options); [|reflexivity].
  unfold js_try, js_bind, parse_body, js_lift, js_ret. rewrite Hp. simpl. by rewrite Hu.
Qed.

(** The injector on a multipart body without a [user_id] when the
    identity cannot be resolved: the exception leaves the patch. *)
Lemma inject_formdata_throws (url : string) (options : Options)
    (entries : list (string * FormValue)) (e : JsError) (w : World) :
  is_chat_post url options = true ->
  body options = BodyFormData entries ->
  FormData.has entries "user_id" = false ->
  result_of getUserId w = Throw e ->
  inject_user_id url options w = (w, Throw e).
Proof.
  intros Hc Hb Hhas He. apply getUserId_throws in He.
  unfold inject_user_id. rewrite Hc, Hb, Hhas. simpl. unfold js_bind. by rewrite He.
Qed.

(** The injector on a JSON object without a [user_id] when the identity
    cannot be resolved: the exception ends in the [catch]. *)
Lemma inject_json_throws (url : string) (options : Options) (s : string)
    (o : list (string * JsValue)) (e : JsError) (w : World) :
  is_chat_post url options = true ->
  is_json_request options = true ->
  body options = BodyString s ->
  JSON_parse s = Some (JObj o) ->
  truthy_opt (assoc_get "user_id" o) = false ->
  result_of getUserId w = Throw e ->
  inject_user_id url options w
  = (add_console (ConsoleError "Error parsing JSON body:" e) w, Return options).
Proof.
  intros Hc Hj Hb Hp Hu He. apply getUserId_throws in He.
  unfold inject_user_id. rewrite Hc, Hb, Hj.
  unfold js_try, js_bind, parse_body, js_lift, js_ret. rewrite Hp. simpl.
  rewrite Hu. simpl. by rewrite He.
Qed.

End Injector.

(** C5. Injection happens at most once. A multipart body that has a
    [user_id] entry gets no second one. A JSON body without a [user_id],
    with resolved identity [X], leaves as a text that parses to an object
    whose [user_id] is [X], held once; a multipart body without one leaves
    with one [user_id] entry, [X]. Running the injector again on what it
    produced, in any world, changes nothing. *)
Theorem injection_at_most_once {json : JSON} (url : string) (options : Options)
    (w : World) :
  (forall entries,
     body options = BodyFormData entries ->
     FormData.has entries "user_id" = true ->
     inject_user_id url options w = (w, Return options)) /\
  (forall s o X,
     is_chat_post url options = true ->
     is_json_request options = true ->
     body options = BodyString s ->
     JSON_parse s = Some (JObj o) ->
     truthy_opt (assoc_get "user_id" o) = false ->
     result_of getUserId w = Return X ->
     exists options' s' o',
       result_of (inject_user_id url options) w = Return options' /\
       body options' = BodyString s' /\
       JSON_parse s' = Some (JObj o') /\
       assoc_get "user_id" o' = Some (JStr X) /\
       count_key "user_id" o' = 1%nat /\
       forall w', inject_user_id url options' w' = (w', Return options')) /\
  (forall entries X,
     is_chat_post url options = true ->
     body options = BodyFormData entries ->
     FormData.has entries "user_id" = false ->
     result_of getUserId w = Return X ->
     exists options' entries',
       result_of (inject_user_id url options) w = Return options' /\
       body options' = BodyFormData entries' /\
       assoc_get "user_id" entries' = Some (FVString X) /\
       count_key "user_id" entries' = 1%nat /\
       forall w', inject_user_id url options' w' = (w', Return options')).
Proof.
  split; [|split].
  - intros entries Hb Hhas. by apply (inject_formdata_present url options entries).
  - intros s o X Hc Hj Hb Hp Hu HX.
    set (o' := assoc_set "user_id" (JStr X) o).
    assert (wf_value (JObj o') = true) as Hwf.
    { apply assoc_set_wf; [|reflexivity]. by apply (JSON_parse_wf s). }
    exists (with_body options (BodyString (JSON_stringify (JObj o')))),
           (JSON_stringify (JObj o')), o'.
    split; [|split; [|split; [|split; [|split]]]].
    + unfold result_of. by rewrite (inject_json_absent url options s o X).
    + reflexivity.
    + by apply JSON_parse_stringify.
    + apply assoc_get_set.
    + apply wf_value_obj in Hwf as [Hnd _].
      apply count_key_NoDup; [exact Hnd|apply assoc_set_key_in].
    + intros w'.
      apply (inject_json_present url _ (JSON_stringify (JObj o')) o');
        [reflexivity|by apply JSON_parse_stringify|].
      unfold o'. rewrite assoc_get_set. simpl.
      by rewrite (getUserId_nonempty w X HX).
  - intros entries X Hc Hb Hhas HX.
    exists (with_body options
              (BodyFormData (FormData.append entries "user_id" (FVString X)))),
           (FormData.append entries "user_id" (FVString X)).
    split; [|split; [|split; [|split]]].
    + unfold result_of. by rewrite (inject_formdata_absent url options entries X).
    + reflexivity.
    + unfold FormData.append.
      assert ("user_id" ∉ map fst entries) as Hout.
      { intros Hin. apply list_elem_of_In, in_map_iff in Hin as ([k x] & E & Hin).
        simpl in E. subst k.
        assert (FormData.has entries "user_id" = true) as Ht; [|congruence].
        apply existsb_exists. exists ("user_id", x). split; [exact Hin|reflexivity]. }
      rewrite <- (assoc_set_fresh "user_id" (FVString X) entries Hout).
      apply assoc_get_set.
    + by apply count_key_append.
    + intros w'. eapply inject_formdata_present; [reflexivity|apply has_append].
Qed.

(** C6. A chat POST sent as JSON whose body does not parse: the parse
    error goes to [console.error], the options object is as it was, and
    the original [fetch] is called with it. *)
Theorem malformed_json_forwarded {json : JSON} (url : string) (options : Options)
    (s : string) (w : World) :
  is_chat_post url options = true ->
  is_json_request options = true ->
  body options = BodyString s ->
  JSON_parse s = None ->
  fetch url options w =
    (add_network (FetchCall url options)
       (add_console (ConsoleError "Error parsing JSON body:" SyntaxError) w),
     Return options).
Proof.
  intros Hc Hj Hb Hp. unfold fetch, inject_user_id. rewrite Hc, Hb, Hj.
  unfold js_try, js_bind, parse_body, js_throw. rewrite Hp. reflexivity.
Qed.

Lemma injection_at_most_once_witness :
  exists options' s' o',
    result_of (inject_user_id "/api/chat/clear" (json_post "{}")) tg_world
    = Return options' /\
    body options' = BodyString s' /\
    JSON_parse s' = Some (JObj o') /\
    assoc_get "user_id" o' = Some (JStr "tg_555") /\
    count_key "user_id" o' = 1%nat /\
    forall w', inject_user_id "/api/chat/clear" options' w' = (w', Return options').
Proof.
  apply (proj1 (proj2 (injection_at_most_once "/api/chat/clear" (json_post "{}") tg_world))
           "{}" [] "tg_555");
    vm_compute; reflexivity.
Defined.

Lemma malformed_json_forwarded_witness :
  fetch "/api/chat/clear" (json_post "{user_id:") web_world =
    (add_network (FetchCall "/api/chat/clear" (json_post "{user_id:"))
       (add_console (ConsoleError "Error parsing JSON body:" SyntaxError) web_world),
     Return (json_post "{user_id:")).
Proof.
  apply (malformed_json_forwarded "/api/chat/clear" (json_post "{user_id:") "{user_id:");
    vm_compute; reflexivity.
Defined.

(** What the injector makes of [{}] for user 555, as text. *)
Example inject_json_text :
  result_of (inject_user_id "/api/chat/clear" (json_post "{}")) tg_world
  = Return (json_post (String "{" (String "034" ("user_id" +:+
             String "034" (String ":" (String "034" ("tg_555" +:+
             String "034" "}"))))))).
Proof. vm_compute. reflexivity. Qed.

(** ** Where the injector acts *)

Lemma includes_nonempty (u sub : string) :
  includes u sub = true -> String.eqb sub "" = false -> String.eqb u "" = false.
Proof. destruct u, sub; simpl; try discriminate; reflexivity. Qed.

(** C3, as stated, fails on the raw transport: the patched [send] looks at
    the URL that [open] recorded and not at the method, so a PUT to a chat
    URL has the identity appended to its multipart body. *)
Lemma xhr_injects_into_non_post :
  XMLHttpRequest.send
    (XMLHttpRequest.open XMLHttpRequest.new "PUT" "/api/chat/settings")
    (BodyFormData [("theme", FVString "dark")]) tg_world
  = (add_network
       (XhrSend "PUT" "/api/chat/settings"
          (BodyFormData [("theme", FVString "dark"); ("user_id", FVString "tg_555")]))
       (add_console (ConsoleLog "Added user_id to XMLHttpRequest FormData:" "tg_555")
          tg_world),
     Return (BodyFormData [("theme", FVString "dark"); ("user_id", FVString "tg_555")])) /\
  ~ (forall meth url b w,
       meth <> "POST" ->
       result_of (XMLHttpRequest.send (XMLHttpRequest.open XMLHttpRequest.new meth url) b) w
       = Return b).
Proof.
  split; [reflexivity|].
  intros Hall.
  specialize (Hall "PUT" "/api/chat/settings" (BodyFormData [("theme", FVString "dark")])
                tg_world).
  discriminate Hall. discriminate.
Qed.

(** C3, amended. The patched [fetch] passes on, untouched, every request
    that is not a POST or whose URL is outside the chat endpoints. The
    patched [XMLHttpRequest.send] passes on, untouched, every request whose
    URL is outside the chat endpoints; for a chat URL it appends the
    identity to a multipart body that lacks it, whatever the method. *)
Theorem injection_scope {json : JSON} (w : World) :
  (forall url options,
     includes url "/api/chat" = false \/ method options <> Some "POST" ->
     fetch url options w = (add_network (FetchCall url options) w, Return options)) /\
  (forall meth url b,
     includes url "/api/chat" = false ->
     XMLHttpRequest.send (XMLHttpRequest.open XMLHttpRequest.new meth url) b w
     = (add_network (XhrSend meth url b) w, Return b)) /\
  (forall meth url entries X,
     includes url "/api/chat" = true ->
     FormData.has entries "user_id" = false ->
     result_of getUserId w = Return X ->
     result_of (XMLHttpRequest.send (XMLHttpRequest.open XMLHttpRequest.new meth url)
                  (BodyFormData entries)) w
     = Return (BodyFormData (FormData.append entries "user_id" (FVString X)))).
Proof.
  split; [|split].
  - intros url options Hout.
    assert (is_chat_post url options = false) as Hc.
    { unfold is_chat_post. destruct Hout as [->|Hm]; [reflexivity|].
      apply andb_false_iff. right.
      destruct (method options) as [m|]; [|reflexivity].
      destruct (String.eqb_spec m "POST") as [->|]; [contradiction|reflexivity]. }
    unfold fetch, inject_user_id. rewrite Hc. reflexivity.
  - intros meth url b Hout.
    unfold XMLHttpRequest.send, XMLHttpRequest.inject_user_id, XMLHttpRequest.open.
    simpl. rewrite Hout, andb_false_r. reflexivity.
  - intros meth url entries X Hin Hhas HX.
    pose proof (getUserId_again w X HX) as H2.
    unfold XMLHttpRequest.send, XMLHttpRequest.inject_user_id, XMLHttpRequest.open.
    simpl. rewrite Hin, (includes_nonempty url "/api/chat" Hin eq_refl), Hhas. simpl.
    unfold result_of, world_after, js_bind in *.
    destruct (getUserId w) as [w1 r]. simpl in *. subst r. rewrite H2. reflexivity.
Qed.

Lemma injection_scope_witness :
  fetch "/api/chat/history?limit=10"
    {| method := Some "GET"; headers := Some ∅; body := BodyUndefined |} tg_world
  = (add_network
       (FetchCall "/api/chat/history?limit=10"
          {| method := Some "GET"; headers := Some ∅; body := BodyUndefined |}) tg_world,
     Return {| method := Some "GET"; headers := Some ∅; body := BodyUndefined |}) /\
  XMLHttpRequest.send (XMLHttpRequest.open XMLHttpRequest.new "POST" "/api/feedback")
    (BodyFormData [("message", FVString "hello")]) tg_world
  = (add_network (XhrSend "POST" "/api/feedback" (BodyFormData [("message", FVString "hello")]))
       tg_world,
     Return (BodyFormData [("message", FVString "hello")])) /\
  result_of (XMLHttpRequest.send
               (XMLHttpRequest.open XMLHttpRequest.new "DELETE" "/api/chat/clear")
               (BodyFormData [])) tg_world
  = Return (BodyFormData [("user_id", FVString "tg_555")]).
Proof.
  destruct (injection_scope tg_world) as (H1 & H2 & H3).
  split; [|split].
  - apply H1. right. discriminate.
  - apply H2. reflexivity.
  - apply (H3 "DELETE" "/api/chat/clear" [] "tg_555"); reflexivity.
Defined.

(** ** The identity on the chat requests *)

Lemma getUserHeaders_eq (w : World) :
  ApiClient.getUserHeaders w = (w, Return (identity_headers (ApiClient.telegram_id w))).
Proof.
  unfold ApiClient.getUserHeaders, ApiClient.getTelegramUserId, js_bind, js_ret.
  destruct (ApiClient.telegram_id w); simpl; [|reflexivity].
  by rewrite insert_empty.
Qed.

Section Requests.

Context {json : JSON}.

Lemma stringify_nonempty (v : JsValue) :
  wf_value v = true -> String.eqb (JSON_stringify v) "" = false.
Proof.
  intros Hwf. destruct (String.eqb_spec (JSON_stringify v) "") as [E|]; [|reflexivity].
  pose proof (JSON_parse_stringify v Hwf) as H. rewrite E, JSON_parse_empty in H.
  discriminate.
Qed.

(** A multipart POST to a chat URL, as it leaves. *)
Lemma makeRequest_formdata (endpoint : string) (entries : list (string * FormValue))
    (X : string) (w : World) :
  includes endpoint "/api/chat" = true ->
  FormData.has entries "user_id" = false ->
  result_of getUserId w = Return X ->
  let sent :=
    {| method := Some "POST";
       headers := Some (identity_headers (ApiClient.telegram_id w));
       body := BodyFormData (FormData.append entries "user_id" (FVString X)) |} in
  ApiClient.makeRequest endpoint
    {| method := Some "POST"; headers := Some ∅; body := BodyFormData entries |} w
  = (add_network (FetchCall endpoint sent)
       (add_console (ConsoleLog "Added user_id to FormData:" X) (world_after getUserId w)),
     Return sent).
Proof.
  intros Hin Hhas HX sent. unfold ApiClient.makeRequest, API_BASE_URL, js_bind, js_try.
  change ("" +:+ ?e) with e.
  rewrite getUserHeaders_eq. simpl.
  rewrite (left_id_L ∅ (∪)). unfold fetch, js_bind.
  erewrite inject_formdata_absent; [reflexivity| |reflexivity|exact Hhas|exact HX].
  unfold is_chat_post. simpl. by rewrite Hin.
Qed.

(** A JSON POST of an object to a chat URL, as it leaves. *)
Lemma makeRequest_json (endpoint : string) (o : list (string * JsValue))
    (X : string) (w : World) :
  includes endpoint "/api/chat" = true ->
  wf_value (JObj o) = true ->
  truthy_opt (assoc_get "user_id" o) = false ->
  result_of getUserId w = Return X ->
  let sent :=
    {| method := Some "POST";
       headers := Some (<["Content-Type" := "application/json"]>
                          (identity_headers (ApiClient.telegram_id w)));
       body := BodyString (JSON_stringify (JObj (assoc_set "user_id" (JStr X) o))) |} in
  ApiClient.makeRequest endpoint
    {| method := Some "POST"; headers := None; body := BodyString (JSON_stringify (JObj o)) |} w
  = (add_network (FetchCall endpoint sent)
       (add_console (ConsoleLog "Added user_id to JSON:" X) (world_after getUserId w)),
     Return sent).
Proof.
  intros Hin Hwf Hu HX sent. unfold ApiClient.makeRequest, API_BASE_URL, js_bind, js_try.
  change ("" +:+ ?e) with e.
  rewrite getUserHeaders_eq. simpl.
  rewrite (stringify_nonempty _ Hwf). simpl.
  rewrite (left_id_L ∅ (∪)). unfold fetch, js_bind.
  erewrite (inject_json_absent _ _ (JSON_stringify (JObj o)) o X);
    [reflexivity| | |reflexivity|by apply JSON_parse_stringify|exact Hu|exact HX].
  - unfold is_chat_post. simpl. by rewrite Hin.
  - unfold is_json_request. simpl. by rewrite lookup_insert_eq.
Qed.

(** A GET, as it leaves. *)
Lemma makeRequest_get (url : string) (w : World) :
  let sent :=
    {| method := Some "GET";
       headers := Some (identity_headers (ApiClient.telegram_id w));
       body := BodyUndefined |} in
  ApiClient.makeRequest url
    {| method := Some "GET"; headers := None; body := BodyUndefined |} w
  = (add_network (FetchCall url sent) w, Return sent).
Proof.
  intros sent. unfold ApiClient.makeRequest, API_BASE_URL, js_bind, js_try.
  change ("" +:+ ?e) with e.
  rewrite getUserHeaders_eq. simpl.
  rewrite (left_id_L ∅ (∪)). unfold fetch, js_bind, inject_user_id, is_chat_post. simpl.
  by rewrite andb_false_r.
Qed.

(** A multipart POST to a chat URL when the identity cannot be resolved:
    nothing leaves. *)
Lemma makeRequest_formdata_throws (endpoint : string)
    (entries : list (string * FormValue)) (e : JsError) (w : World) :
  includes endpoint "/api/chat" = true ->
  FormData.has entries "user_id" = false ->
  result_of getUserId w = Throw e ->
  ApiClient.makeRequest endpoint
    {| method := Some "POST"; headers := Some ∅; body := BodyFormData entries |} w
  = (w, Throw e).
Proof.
  intros Hin Hhas He. unfold ApiClient.makeRequest, API_BASE_URL, js_bind, js_try.
  change ("" +:+ ?x) with x.
  rewrite getUserHeaders_eq. simpl.
  rewrite (left_id_L ∅ (∪)). unfold fetch, js_bind.
  erewrite inject_formdata_throws; [reflexivity| |reflexivity|exact Hhas|exact He].
  unfold is_chat_post. simpl. by rewrite Hin.
Qed.

(** A JSON POST of an object to a chat URL when the identity cannot be
    resolved: it leaves as the client made it. *)
Lemma makeRequest_json_throws (endpoint : string) (o : list (string * JsValue))
    (e : JsError) (w : World) :
  includes endpoint "/api/chat" = true ->
  wf_value (JObj o) = true ->
  truthy_opt (assoc_get "user_id" o) = false ->
  result_of getUserId w = Throw e ->
  let sent :=
    {| method := Some "POST";
       headers := Some (<["Content-Type" := "application/json"]>
                          (identity_headers (ApiClient.telegram_id w)));
       body := BodyString (JSON_stringify (JObj o)) |} in
  ApiClient.makeRequest endpoint
    {| method := Some "POST"; headers := None; body := BodyString (JSON_stringify (JObj o)) |} w
  = (add_network (FetchCall endpoint sent)
       (add_console (ConsoleError "Error parsing JSON body:" e) w),
     Return sent).
Proof.
  intros Hin Hwf Hu He sent. unfold ApiClient.makeRequest, API_BASE_URL, js_bind, js_try.
  change ("" +:+ ?x) with x.
  rewrite getUserHeaders_eq. simpl.
  rewrite (stringify_nonempty _ Hwf). simpl.
  rewrite (left_id_L ∅ (∪)). unfold fetch, js_bind.
  erewrite (inject_json_throws _ _ (JSON_stringify (JObj o)) o e);
    [reflexivity| | |reflexivity|by apply JSON_parse_stringify|exact Hu|exact He].
  - unfold is_chat_post. simpl. by rewrite Hin.
  - unfold is_json_request. simpl. by rewrite lookup_insert_eq.
Qed.

End Requests.

(** C1, as stated, fails. Inside Telegram a chat message leaves with the
    identity in three places, the header and two body fields, and with two
    different values; outside Telegram the history request leaves with
    none. *)
Lemma telegram_send_carries_identity_thrice :
  network (world_after (ChatAPI.sendMessage "Привет" None) tg_world)
  = [FetchCall "/api/chat"
       {| method := Some "POST";
          headers := Some {["X-Telegram-User-Id" := "555"]};
          body := BodyFormData [("message", FVString "Привет");
                                ("telegram_user_id", FVString "555");
                                ("user_id", FVString "tg_555")] |}] /\
  map identity_carriers (network (world_after (ChatAPI.sendMessage "Привет" None) tg_world))
  = [[HeaderTelegramUserId; FieldTelegramUserId; FieldUserId]] /\
  map identity_carriers (network (world_after (ChatAPI.getHistory 10) web_world)) = [[]] /\
  ~ (forall w message,
       Forall (fun sent => length (identity_carriers sent) = 1%nat)
         (network (world_after (ChatAPI.sendMessage message None) w))).
Proof.
  split; [vm_compute; reflexivity|]. split; [vm_compute; reflexivity|].
  split; [vm_compute; reflexivity|].
  intros Hall. specialize (Hall tg_world "Привет").
  assert (network (world_after (ChatAPI.sendMessage "Привет" None) tg_world)
          = [FetchCall "/api/chat"
               {| method := Some "POST";
                  headers := Some {["X-Telegram-User-Id" := "555"]};
                  body := BodyFormData [("message", FVString "Привет");
                                        ("telegram_user_id", FVString "555");
                                        ("user_id", FVString "tg_555")] |}]) as Hnet.
  { vm_compute. reflexivity. }
  rewrite Hnet in Hall. apply Forall_cons in Hall as [Hlen _].
  vm_compute in Hlen. discriminate Hlen.
Qed.

Ltac nodup_carriers :=
  repeat (apply NoDup_cons; split;
          [rewrite ?elem_of_cons, ?elem_of_nil; intuition discriminate|]);
  apply NoDup_nil_2.

(** C1, amended. Each chat operation hands at most one request to the
    network, and on it no carrier of the identity occurs twice. With the
    identity resolved, a POST (send, clear) is handed over once and
    carries the identity once, in the body field [user_id]; when the
    adapter exposes a Telegram id it carries that as well, in the header
    and in the body field [telegram_user_id]. With the identity
    unresolved ([getUserId] throws), the send hands over nothing and
    throws, and the clear is handed over once, without a [user_id]. The
    history GET is always handed over once; it carries the Telegram id in
    the header and in the query when the adapter exposes one, and no
    identity otherwise. *)
Theorem chat_requests_identity {json : JSON} (w : World) :
  (forall message imageFile,
     match result_of getUserId w with
     | Return X =>
         exists options,
           network (world_after (ChatAPI.sendMessage message imageFile) w)
           = network w ++ [FetchCall "/api/chat" options] /\
           method options = Some "POST" /\
           headers options = Some (identity_headers (ApiClient.telegram_id w)) /\
           body options =
             BodyFormData
               (message_entries message imageFile ++
                match ApiClient.telegram_id w with
                | Some i => [("telegram_user_id", FVString i)]
                | None => []
                end ++ [("user_id", FVString X)]) /\
           identity_carriers (FetchCall "/api/chat" options)
           = post_carriers (ApiClient.telegram_id w)
     | Throw e =>
         ChatAPI.sendMessage message imageFile w = (w, Throw e)
     end) /\
  (exists options o,
     network (world_after ChatAPI.clearHistory w)
     = network w ++ [FetchCall "/api/chat/clear" options] /\
     method options = Some "POST" /\
     headers options = Some (<["Content-Type" := "application/json"]>
                               (identity_headers (ApiClient.telegram_id w))) /\
     body options = BodyString (JSON_stringify (JObj o)) /\
     JSON_parse (JSON_stringify (JObj o)) = Some (JObj o) /\
     o = match ApiClient.telegram_id w with
         | Some i => [("telegram_user_id", JStr i)]
         | None => []
         end ++
         match result_of getUserId w with
         | Return X => [("user_id", JStr X)]
         | Throw _ => []
         end /\
     identity_carriers (FetchCall "/api/chat/clear" options)
     = match result_of getUserId w with
       | Return _ => post_carriers (ApiClient.telegram_id w)
       | Throw _ => unresolved_post_carriers (ApiClient.telegram_id w)
       end) /\
  (exists url options,
     network (world_after (ChatAPI.getHistory 10) w) = network w ++ [FetchCall url options] /\
     url = "/api/chat/history?limit=10" +:+
           match ApiClient.telegram_id w with
           | Some i => "&telegram_user_id=" +:+ i
           | None => ""
           end /\
     method options = Some "GET" /\
     headers options = Some (identity_headers (ApiClient.telegram_id w)) /\
     body options = BodyUndefined /\
     identity_carriers (FetchCall url options) = get_carriers (ApiClient.telegram_id w)) /\
  NoDup (post_carriers (ApiClient.telegram_id w)) /\
  NoDup (unresolved_post_carriers (ApiClient.telegram_id w)) /\
  NoDup (get_carriers (ApiClient.telegram_id w)).
Proof.
  split; [|split; [|split; [|split; [|split]]]].
  - intros message imageFile.
    destruct (result_of getUserId w) as [X|e] eqn:HX.
    + unfold ChatAPI.sendMessage, ApiClient.postFormData, ApiClient.getTelegramUserId, js_bind.
      unfold world_after. simpl.
      destruct (ApiClient.telegram_id w) as [i|] eqn:Htid; simpl.
      * rewrite (makeRequest_formdata _ _ X);
          [|reflexivity|by destruct (String.eqb message ""), imageFile|exact HX].
        rewrite Htid. eexists. split; [simpl; by rewrite getUserId_network|]. simpl.
        split; [reflexivity|]. split; [reflexivity|]. split.
        -- unfold message_entries, FormData.append.
           by destruct (String.eqb message ""), imageFile.
        -- unfold identity_carriers, header_carriers. simpl.
           rewrite lookup_singleton_eq.
           destruct (String.eqb message ""), imageFile; reflexivity.
      * rewrite (makeRequest_formdata _ _ X);
          [|reflexivity|by destruct (String.eqb message ""), imageFile|exact HX].
        rewrite Htid. eexists. split; [simpl; by rewrite getUserId_network|]. simpl.
        split; [reflexivity|]. split; [reflexivity|]. split.
        -- unfold message_entries, FormData.append.
           by destruct (String.eqb message ""), imageFile.
        -- unfold identity_carriers, header_carriers. simpl.
           destruct (String.eqb message ""), imageFile; reflexivity.
    + unfold ChatAPI.sendMessage, ApiClient.postFormData, ApiClient.getTelegramUserId, js_bind.
      simpl.
      destruct (ApiClient.telegram_id w) as [i|] eqn:Htid; simpl;
        apply makeRequest_formdata_throws;
        try exact HX; try reflexivity;
        by destruct (String.eqb message ""), imageFile.
  - unfold ChatAPI.clearHistory, ApiClient.post, ApiClient.getTelegramUserId, js_bind.
    unfold world_after. simpl.
    destruct (result_of getUserId w) as [X|e] eqn:HX;
      destruct (ApiClient.telegram_id w) as [i|] eqn:Htid; simpl.
    + rewrite (makeRequest_json _ [("telegram_user_id", JStr i)] X);
        [|reflexivity|reflexivity|reflexivity|exact HX].
      rewrite Htid. simpl.
      assert (JSON_parse (JSON_stringify (JObj [("telegram_user_id", JStr i);
                                                 ("user_id", JStr X)]))
              = Some (JObj [("telegram_user_id", JStr i); ("user_id", JStr X)])) as Hp.
      { by apply JSON_parse_stringify. }
      eexists _, _. split; [simpl; by rewrite getUserId_network|]. simpl.
      split; [reflexivity|]. split; [reflexivity|]. split; [reflexivity|].
      split; [exact Hp|]. split; [reflexivity|].
      unfold identity_carriers, header_carriers, body_carriers. simpl.
      rewrite Hp. rewrite lookup_insert_ne by discriminate.
      rewrite lookup_singleton_eq. reflexivity.
    + rewrite (makeRequest_json _ [] X); [|reflexivity|reflexivity|reflexivity|exact HX].
      rewrite Htid. simpl.
      assert (JSON_parse (JSON_stringify (JObj [("user_id", JStr X)]))
              = Some (JObj [("user_id", JStr X)])) as Hp.
      { by apply JSON_parse_stringify. }
      eexists _, _. split; [simpl; by rewrite getUserId_network|]. simpl.
      split; [reflexivity|]. split; [reflexivity|]. split; [reflexivity|].
      split; [exact Hp|]. split; [reflexivity|].
      unfold identity_carriers, header_carriers, body_carriers. simpl.
      rewrite Hp. rewrite lookup_insert_ne by discriminate. rewrite lookup_empty.
      reflexivity.
    + rewrite (makeRequest_json_throws _ [("telegram_user_id", JStr i)] e);
        [|reflexivity|reflexivity|reflexivity|exact HX].
      rewrite Htid. simpl.
      assert (JSON_parse (JSON_stringify (JObj [("telegram_user_id", JStr i)]))
              = Some (JObj [("telegram_user_id", JStr i)])) as Hp.
      { by apply JSON_parse_stringify. }
      eexists _, _. split; [reflexivity|]. simpl.
      split; [reflexivity|]. split; [reflexivity|]. split; [reflexivity|].
      split; [exact Hp|]. split; [reflexivity|].
      unfold identity_carriers, header_carriers, body_carriers. simpl.
      rewrite Hp. rewrite lookup_insert_ne by discriminate.
      rewrite lookup_singleton_eq. reflexivity.
    + rewrite (makeRequest_json_throws _ [] e);
        [|reflexivity|reflexivity|reflexivity|exact HX].
      rewrite Htid. simpl.
      assert (JSON_parse (JSON_stringify (JObj [])) = Some (JObj [])) as Hp.
      { by apply JSON_parse_stringify. }
      eexists _, _. split; [reflexivity|]. simpl.
      split; [reflexivity|]. split; [reflexivity|]. split; [reflexivity|].
      split; [exact Hp|]. split; [reflexivity|].
      unfold identity_carriers, header_carriers, body_carriers. simpl.
      rewrite Hp. rewrite lookup_insert_ne by discriminate. rewrite lookup_empty.
      reflexivity.
  - unfold ChatAPI.getHistory, ApiClient.get, ApiClient.getTelegramUserId, js_bind.
    unfold world_after. simpl.
    destruct (ApiClient.telegram_id w) as [i|] eqn:Htid; simpl;
      rewrite makeRequest_get; rewrite Htid; simpl;
      eexists _, _; (split; [reflexivity|]); simpl;
      (split; [reflexivity|]); (split; [reflexivity|]); (split; [reflexivity|]);
      (split; [reflexivity|]).
    + unfold identity_carriers, header_carriers. simpl. rewrite lookup_singleton_eq.
      vm_compute. reflexivity.
    + reflexivity.
  - destruct (ApiClient.telegram_id w); simpl; nodup_carriers.
  - destruct (ApiClient.telegram_id w); simpl; nodup_carriers.
  - destruct (ApiClient.telegram_id w); simpl; nodup_carriers.
Qed.

Lemma chat_requests_identity_witness :
  (exists options,
     network (world_after (ChatAPI.sendMessage "Привет" None) tg_world)
     = network tg_world ++ [FetchCall "/api/chat" options] /\
     method options = Some "POST" /\
     headers options = Some (identity_headers (ApiClient.telegram_id tg_world)) /\
     body options =
       BodyFormData
         (message_entries "Привет" None ++
          match ApiClient.telegram_id tg_world with
          | Some i => [("telegram_user_id", FVString i)]
          | None => []
          end ++ [("user_id", FVString "tg_555")]) /\
     identity_carriers (FetchCall "/api/chat" options)
     = post_carriers (ApiClient.telegram_id tg_world)) /\
  ChatAPI.sendMessage "Привет" None quota_world = (quota_world, Throw QuotaExceededError).
Proof.
  split.
  - apply (proj1 (chat_requests_identity tg_world) "Привет" None).
  - apply (proj1 (chat_requests_identity quota_world) "Привет" None).
Defined.

(** ** The retry helper *)

Lemma backoff_doubles (delay : Z) (n j : nat) (d : Z) :
  backoff delay n !! j = Some d -> (S j < n)%nat ->
  backoff delay n !! S j = Some (2 * d).
Proof.
  unfold backoff. rewrite !list_lookup_fmap. intros H Hj.
  rewrite !lookup_seq_lt in * by lia. simpl in *. injection H as <-.
  f_equal. rewrite Nat2Z.inj_succ, Z.pow_succ_r by lia. lia.
Qed.

Lemma backoff_first (delay : Z) (n : nat) :
  (0 < n)%nat -> backoff delay n !! 0%nat = Some delay.
Proof.
  intros Hn. unfold backoff. rewrite list_lookup_fmap, lookup_seq_lt by lia.
  simpl. f_equal. lia.
Qed.

Section RetryFacts.

Context {St A : Type}.
Variable requestFunction : St -> St * Result A.
Variables maxRetries delay : Z.

#[local] Abbreviation state_before := (ApiUtils.state_before requestFunction).
#[local] Abbreviation outcome := (ApiUtils.outcome requestFunction).
#[local] Abbreviation retry_loop := (ApiUtils.retry_loop requestFunction maxRetries delay).

Lemma state_before_shift (n : nat) (s : St) :
  state_before (S n) s = state_before n (fst (requestFunction s)).
Proof.
  induction n as [|n IH]; [reflexivity|].
  change (state_before (S (S n)) s)
    with (fst (requestFunction (state_before (S n) s))).
  rewrite IH. reflexivity.
Qed.

Lemma outcome_shift (n : nat) (s : St) :
  outcome (S n) s = outcome n (fst (requestFunction s)).
Proof. unfold ApiUtils.outcome. by rewrite state_before_shift. Qed.

(** [n] failed attempts, none of them the last: the loop goes on with the
    next attempt, having waited after each. *)
Lemma retry_loop_failures (n : nat) :
  forall (remaining : nat) (attempt : Z) (s : St) (waits : list Z),
    (forall j, (j < n)%nat -> exists e, outcome j s = Throw e) ->
    attempt + Z.of_nat n <= maxRetries ->
    Z.of_nat remaining = maxRetries - attempt + 1 ->
    retry_loop remaining attempt s waits =
    retry_loop (remaining - n) (attempt + Z.of_nat n) (state_before n s)
      (waits ++ map (fun j => delay * 2 ^ (attempt - 1 + Z.of_nat j)) (seq 0 n)).
Proof.
  induction n as [|n IH]; intros remaining attempt s waits Hfail Hle Hrem.
  - simpl. rewrite Nat.sub_0_r, Z.add_0_r, app_nil_r. reflexivity.
  - destruct remaining as [|r]; [lia|].
    destruct (Hfail 0%nat ltac:(lia)) as [e He].
    unfold ApiUtils.outcome in He. simpl in He.
    simpl ApiUtils.retry_loop at 1.
    destruct (requestFunction s) as [s' res] eqn:Hf. simpl in He. subst res.
    replace (attempt <=? maxRetries) with true by (symmetry; apply Z.leb_le; lia).
    replace (attempt =? maxRetries) with false by (symmetry; apply Z.eqb_neq; lia).
    rewrite (IH r (attempt + 1) s').
    + rewrite state_before_shift, Hf. simpl fst.
      replace (S r - S n)%nat with (r - n)%nat by lia.
      replace (attempt + 1 + Z.of_nat n) with (attempt + Z.of_nat (S n)) by lia.
      f_equal. rewrite <- app_assoc. f_equal.
      change (seq 0 (S n)) with (0%nat :: seq 1 n).
      rewrite <- seq_shift, map_cons, map_map. simpl app. f_equal.
      * f_equal. f_equal. lia.
      * apply map_ext. intros j. f_equal. f_equal. lia.
    + intros j Hj. destruct (Hfail (S j) ltac:(lia)) as [e' He'].
      exists e'. rewrite outcome_shift, Hf in He'. exact He'.
    + lia.
    + lia.
Qed.

End RetryFacts.

(** C7. After [n] failed attempts, with attempt [n + 1] still within
    [maxRetries]: the helper has waited [delay], [2 * delay], ...,
    [2^(n-1) * delay], one delay after each failure; if attempt [n + 1]
    succeeds its result is returned as it is, and if it fails and was the
    last one allowed its error is thrown. In both cases the request
    function has been called [n + 1] times and no more. *)
Theorem retryRequest_backoff {St A : Type} (requestFunction : St -> St * Result A)
    (maxRetries delay : Z) (s : St) (n : nat) :
  Z.of_nat n < maxRetries ->
  (forall j, (j < n)%nat -> exists e, ApiUtils.outcome requestFunction j s = Throw e) ->
  (forall a,
     ApiUtils.outcome requestFunction n s = Return a ->
     ApiUtils.retryRequest requestFunction maxRetries delay s
     = (ApiUtils.state_before requestFunction (S n) s, backoff delay n, Return (Some a))) /\
  (forall e,
     ApiUtils.outcome requestFunction n s = Throw e ->
     Z.of_nat (S n) = maxRetries ->
     ApiUtils.retryRequest requestFunction maxRetries delay s
     = (ApiUtils.state_before requestFunction (S n) s, backoff delay n, Throw e)).
Proof.
  intros Hn Hfail.
  assert (ApiUtils.retryRequest requestFunction maxRetries delay s
          = ApiUtils.retry_loop requestFunction maxRetries delay
              (Z.to_nat maxRetries - n) (1 + Z.of_nat n)
              (ApiUtils.state_before requestFunction n s) (backoff delay n)) as Hloop.
  { unfold ApiUtils.retryRequest.
    rewrite (retry_loop_failures requestFunction maxRetries delay n) by (done || lia).
    reflexivity. }
  rewrite Hloop.
  destruct (Z.to_nat maxRetries - n)%nat as [|r] eqn:Hr; [lia|].
  unfold ApiUtils.outcome. simpl ApiUtils.retry_loop.
  replace (1 + Z.of_nat n <=? maxRetries) with true by (symmetry; apply Z.leb_le; lia).
  change (ApiUtils.state_before requestFunction (S n) s)
    with (fst (requestFunction (ApiUtils.state_before requestFunction n s))).
  destruct (requestFunction (ApiUtils.state_before requestFunction n s)) as [s' res].
  simpl. split.
  - intros a ->. reflexivity.
  - intros e -> Hlast.
    replace (1 + Z.of_nat n =? maxRetries) with true by (symmetry; apply Z.eqb_eq; lia).
    reflexivity.
Qed.

Lemma retryRequest_backoff_witness :
  ApiUtils.retryRequest flaky_request ApiUtils.default_maxRetries ApiUtils.default_delay 0%nat
  = (3%nat, [1000; 2000], Return (Some "pong")) /\
  ApiUtils.retryRequest failing_request ApiUtils.default_maxRetries ApiUtils.default_delay
    0%nat
  = (3%nat, [1000; 2000], Throw (Error "HTTP error! status: 502")).
Proof.
  split.
  - apply (proj1 (retryRequest_backoff flaky_request 3 1000 0%nat 2 ltac:(lia)
                    ltac:(intros [|[|j]] Hj; [eexists; reflexivity..|lia])) "pong").
    reflexivity.
  - apply (proj2 (retryRequest_backoff failing_request 3 1000 0%nat 2 ltac:(lia)
                    ltac:(intros [|[|j]] Hj; [eexists; reflexivity..|lia]))
             (Error "HTTP error! status: 502")); reflexivity.
Defined.

(** With no attempt allowed the loop body never runs: nothing is called and
    the helper returns [undefined]. *)
Lemma retryRequest_no_attempt {St A : Type} (requestFunction : St -> St * Result A)
    (maxRetries delay : Z) (s : St) :
  maxRetries <= 0 ->
  ApiUtils.retryRequest requestFunction maxRetries delay s = (s, [], Return None).
Proof.
  intros H. unfold ApiUtils.retryRequest.
  replace (Z.to_nat maxRetries) with 0%nat by lia. reflexivity.
Qed.

(** ** Image compression *)

(** C8, as stated, fails for elongated pictures: the shorter edge of the
    canvas is a whole number of pixels, and dropping the fraction of a
    short edge moves the ratio by more than 1%. *)
Lemma canvas_size_elongated :
  ApiUtils.canvas_size 2400 3 = (1200, 1) /\
  ~ ratio_within_1pct 2400 3 1200 1 /\
  ~ (forall W H W' H',
       0 < W -> 0 < H -> ApiUtils.maxDimension < Z.max W H ->
       ApiUtils.canvas_size W H = (W', H') ->
       Z.max W' H' <= 1200 /\ ratio_within_1pct W H W' H').
Proof.
  split; [reflexivity|]. split.
  - unfold ratio_within_1pct. simpl. lia.
  - intros Hall.
    destruct (Hall 2400 3 1200 1 ltac:(lia) ltac:(lia) ltac:(unfold ApiUtils.maxDimension; lia)
                eq_refl) as [_ Hr].
    unfold ratio_within_1pct in Hr. simpl in Hr. lia.
Qed.

(** C8, amended. A picture of 4000 by 2000 gets a canvas of 1200 by 600:
    longest edge 1200, the same ratio. For every picture with an edge
    above 1200 the longest edge of the canvas is 1200 and the other one is
    the proportional length without its fraction; the ratio is within 1%
    of the picture's whenever that other edge is at least 100 pixels. *)
Theorem canvas_size_scaled :
  ApiUtils.canvas_size 4000 2000 = (1200, 600) /\
  ratio_within_1pct 4000 2000 1200 600 /\
  (forall W H W' H',
     0 < W -> 0 < H -> ApiUtils.maxDimension < Z.max W H ->
     ApiUtils.canvas_size W H = (W', H') ->
     Z.max W' H' = 1200 /\
     Z.min W' H' = Z.min W H * 1200 / Z.max W H /\
     (100 <= Z.min W' H' -> ratio_within_1pct W H W' H')).
Proof.
  split; [reflexivity|]. split; [unfold ratio_within_1pct; simpl; lia|].
  intros W H W' H' HW HH Hbig. unfold ApiUtils.canvas_size, ApiUtils.maxDimension in *.
  replace ((W >? 1200) || (H >? 1200)) with true
    by (symmetry; apply orb_true_iff; rewrite !Z.gtb_ltb, !Z.ltb_lt; lia).
  destruct (W >? H) eqn:Hcmp; intros [= <- <-].
  - apply Z.gtb_lt in Hcmp.
    pose proof (Z.div_mod (H * 1200) W ltac:(lia)) as Hdm.
    pose proof (Z.mod_pos_bound (H * 1200) W ltac:(lia)) as Hr.
    assert (H * 1200 / W < 1200) as Hq by (apply Z.div_lt_upper_bound; nia).
    assert (0 <= H * 1200 / W) as Hq0 by (apply Z.div_pos; lia).
    rewrite Z.max_l, Z.min_r, (Z.min_r W H), (Z.max_l W H) by lia.
    split; [reflexivity|]. split; [reflexivity|].
    intros Hmin. unfold ratio_within_1pct.
    rewrite Z.abs_eq by nia. nia.
  - rewrite Z.gtb_ltb in Hcmp. apply Z.ltb_ge in Hcmp.
    pose proof (Z.div_mod (W * 1200) H ltac:(lia)) as Hdm.
    pose proof (Z.mod_pos_bound (W * 1200) H ltac:(lia)) as Hr.
    assert (W * 1200 / H <= 1200) as Hq by (apply Z.div_le_upper_bound; nia).
    assert (0 <= W * 1200 / H) as Hq0 by (apply Z.div_pos; lia).
    rewrite Z.max_r, Z.min_l, (Z.min_l W H), (Z.max_r W H) by lia.
    split; [reflexivity|]. split; [reflexivity|].
    intros Hmin. unfold ratio_within_1pct.
    rewrite Z.abs_neq by nia. nia.
Qed.

Lemma canvas_size_scaled_witness :
  Z.max 1200 800 = 1200 /\
  Z.min 1200 800 = Z.min 3000 2000 * 1200 / Z.max 3000 2000 /\
  (100 <= Z.min 1200 800 -> ratio_within_1pct 3000 2000 1200 800).
Proof.
  apply (proj2 (proj2 canvas_size_scaled) 3000 2000 1200 800);
    [lia|lia|unfold ApiUtils.maxDimension; lia|reflexivity].
Defined.

(** [compressImage] gives the picture the size of the canvas. *)
Lemma compressImage_size (toBlob_size : Z -> Z -> Z) (file : File) (W H : Z) :
  file_image file = Some (W, H) ->
  exists compressed,
    ApiUtils.compressImage toBlob_size file = Resolved compressed /\
    file_image compressed = Some (ApiUtils.canvas_size W H) /\
    file_type compressed = "image/jpeg".
Proof.
  intros Hi. unfold ApiUtils.compressImage. rewrite Hi.
  destruct (ApiUtils.canvas_size W H) as [W' H']. eauto.
Qed.

(** ** File validation *)

Lemma validateFileType_pdf (file : File) :
  file_type file = "application/pdf" ->
  exists e, ApiUtils.validateFileType file ApiUtils.default_allowedTypes = Throw e.
Proof.
  intros Ht. unfold ApiUtils.validateFileType. rewrite Ht. simpl. eauto.
Qed.

Lemma validateFileSize_over (file : File) (maxSizeMB : Z) :
  maxSizeMB * 1024 * 1024 < file_size file ->
  exists e, ApiUtils.validateFileSize file maxSizeMB = Throw e.
Proof.
  intros Hs. unfold ApiUtils.validateFileSize.
  replace (file_size file >? maxSizeMB * 1024 * 1024) with true
    by (symmetry; rewrite Z.gtb_ltb; apply Z.ltb_lt; lia).
  eauto.
Qed.

Lemma prepareImageFile_rejects (toBlob_size : Z -> Z -> Z) (file : File) :
  file_type file = "application/pdf" \/ 50 * 1024 * 1024 < file_size file ->
  exists e, ApiUtils.prepareImageFile toBlob_size file = Rejected e.
Proof.
  intros Hbad. unfold ApiUtils.prepareImageFile.
  destruct Hbad as [Ht|Hs].
  - destruct (validateFileType_pdf file Ht) as [e ->]. eauto.
  - destruct (ApiUtils.validateFileType file _) as [?|e]; [|eauto].
    destruct (validateFileSize_over file 50 Hs) as [e ->]. eauto.
Qed.

(** C9. A file declared as [application/pdf], or larger than 50 MB, is
    rejected by the preparation; selecting it ends in one alert to the
    user, the picture to send stays what it was, and the world, with the
    list of requests handed to the network, is untouched. *)
Theorem invalid_file_rejected (toBlob_size : Z -> Z -> Z) (file : File) (c : Chat)
    (w : World) :
  file_type file = "application/pdf" \/ 50 * 1024 * 1024 < file_size file ->
  (exists e, ApiUtils.prepareImageFile toBlob_size file = Rejected e) /\
  exists c' message,
    ChatManager.handleImageSelect toBlob_size (Some file) c w = (w, Return c') /\
    alerts c' = alerts c ++ [message] /\
    currentImage c' = currentImage c /\
    network (world_after (ChatManager.handleImageSelect toBlob_size (Some file) c) w)
    = network w.
Proof.
  intros Hbad. pose proof (prepareImageFile_rejects toBlob_size file Hbad) as [e He].
  split; [eauto|].
  unfold world_after, ChatManager.handleImageSelect.
  destruct (startsWith (file_type file) "image/"); simpl.
  - rewrite He. eexists _, _. repeat split; reflexivity.
  - eexists _, _. repeat split; reflexivity.
Qed.

Lemma invalid_file_rejected_witness :
  ((exists e, ApiUtils.prepareImageFile (fun w h => w * h) pdf_file = Rejected e) /\
   exists c' message,
     ChatManager.handleImageSelect (fun w h => w * h) (Some pdf_file) initial_chat web_world
     = (web_world, Return c') /\
     alerts c' = alerts initial_chat ++ [message] /\
     currentImage c' = currentImage initial_chat /\
     network (world_after
                (ChatManager.handleImageSelect (fun w h => w * h) (Some pdf_file)
                   initial_chat) web_world)
     = network web_world) /\
  ((exists e, ApiUtils.prepareImageFile (fun w h => w * h) huge_photo = Rejected e) /\
   exists c' message,
     ChatManager.handleImageSelect (fun w h => w * h) (Some huge_photo) initial_chat web_world
     = (web_world, Return c') /\
     alerts c' = alerts initial_chat ++ [message] /\
     currentImage c' = currentImage initial_chat /\
     network (world_after
                (ChatManager.handleImageSelect (fun w h => w * h) (Some huge_photo)
                   initial_chat) web_world)
     = network web_world).
Proof.
  split.
  - apply (invalid_file_rejected (fun w h => w * h) pdf_file initial_chat web_world).
    left. reflexivity.
  - apply (invalid_file_rejected (fun w h => w * h) huge_photo initial_chat web_world).
    right. simpl. lia.
Defined.

(** The alerts of the two rejections. *)
Example rejection_alerts :
  ChatManager.handleImageSelect (fun w h => w * h) (Some pdf_file) initial_chat web_world
  = (web_world,
     Return (ChatManager.show_alert "Пожалуйста, выберите файл изображения" initial_chat)) /\
  ChatManager.handleImageSelect (fun w h => w * h) (Some huge_photo) initial_chat web_world
  = (web_world,
     Return (ChatManager.show_alert "Файл слишком большой. Максимальный размер: 50MB"
               initial_chat)).
Proof. split; reflexivity. Qed.

(** ** The identity the server echoes *)

Lemma keeps_bind {A B} (m : ChatManager.ChatM A) (k : A -> ChatManager.ChatM B) :
  keeps_user_id m -> (forall a, keeps_user_id (k a)) ->
  keeps_user_id (ChatManager.chat_bind m k).
Proof.
  intros Hm Hk c. unfold ChatManager.chat_bind. specialize (Hm c).
  destruct (m c) as [c1 [a|e]]; simpl in *; [|exact Hm].
  by rewrite Hk.
Qed.

Lemma keeps_lift {A} (r : Result A) : keeps_user_id (ChatManager.chat_lift r).
Proof. intros c. reflexivity. Qed.

Lemma keeps_addMessageToChat (role : string) (message : option JsValue) (image : bool) :
  keeps_user_id (ChatManager.addMessageToChat role message image).
Proof.
  intros c. unfold ChatManager.addMessageToChat.
  by destruct message as [[| | |text| |]|].
Qed.

Lemma keeps_render_history_msg (msg : JsValue) :
  keeps_user_id (ChatManager.render_history_msg msg).
Proof.
  unfold ChatManager.render_history_msg.
  apply keeps_bind; [apply keeps_lift|]. intros role.
  repeat case_match; try apply keeps_lift;
    repeat (apply keeps_bind; [apply keeps_lift|]; intros ?);
    apply keeps_addMessageToChat.
Qed.

Lemma keeps_render_history (history : list JsValue) :
  keeps_user_id (ChatManager.render_history history).
Proof.
  induction history as [|msg rest IH]; simpl; [apply keeps_lift|].
  apply keeps_bind; [apply keeps_render_history_msg|]. by intros _.
Qed.

Lemma keeps_show_history (history : option JsValue) :
  keeps_user_id (ChatManager.show_history history).
Proof.
  unfold ChatManager.show_history.
  destruct (ChatManager.has_entries history); [|apply keeps_lift].
  apply keeps_bind; [by intros c|]. intros _.
  repeat case_match; try apply keeps_lift.
  apply keeps_bind; [apply keeps_render_history|]. intros _.
  apply keeps_bind; [apply keeps_lift|]. by intros es c.
Qed.

(** What [if (data.user_id) ...] leaves in [currentUserId]. *)
Lemma adopt_user_id_truthy (data uid : JsValue) (c : Chat) :
  get_prop data "user_id" = Return (Some uid) -> truthy uid = true ->
  ChatManager.adopt_user_id data c = (ChatManager.set_currentUserId uid c, Return tt).
Proof.
  intros Hu Hv. unfold ChatManager.adopt_user_id, ChatManager.chat_bind,
    ChatManager.chat_lift. rewrite Hu. simpl. by rewrite Hv.
Qed.

Lemma adopt_user_id_falsy (data : JsValue) (uid : option JsValue) (c : Chat) :
  get_prop data "user_id" = Return uid -> truthy_opt uid = false ->
  ChatManager.adopt_user_id data c = (c, Return tt).
Proof.
  intros Hu Hv. unfold ChatManager.adopt_user_id, ChatManager.chat_bind,
    ChatManager.chat_lift. rewrite Hu. by rewrite Hv.
Qed.

(** The identity after the handler of a history reply that reports
    success: the one [adopt_user_id] leaves. *)
Lemma on_history_user_id (data : JsValue) (success : option JsValue) (c : Chat) :
  get_prop data "success" = Return success -> truthy_opt success = true ->
  currentUserId (fst (ChatManager.on_history data c))
  = currentUserId (fst (ChatManager.adopt_user_id data c)).
Proof.
  intros Hs Ht. unfold ChatManager.on_history.
  unfold ChatManager.chat_bind at 1, ChatManager.chat_lift at 1. rewrite Hs, Ht.
  unfold ChatManager.chat_bind at 1.
  destruct (ChatManager.adopt_user_id data c) as [c1 [[]|e]]; [|reflexivity].
  match goal with
  | |- currentUserId (fst (?m c1)) = _ =>
      assert (keeps_user_id m) as Hk; [|by rewrite Hk]
  end.
  apply keeps_bind; [apply keeps_lift|]. intros history.
  apply keeps_bind; [apply keeps_show_history|]. by intros _ c'.
Qed.

(** The same for the handler of a reply to a send. *)
Lemma on_reply_user_id (message : string) (data : JsValue) (success : option JsValue)
    (c : Chat) :
  get_prop data "success" = Return success -> truthy_opt success = true ->
  currentUserId (fst (ChatManager.on_reply message data c))
  = currentUserId (fst (ChatManager.adopt_user_id data c)).
Proof.
  intros Hs Ht. unfold ChatManager.on_reply.
  unfold ChatManager.chat_bind at 1, ChatManager.chat_lift at 1. rewrite Hs, Ht.
  unfold ChatManager.chat_bind at 1.
  destruct (ChatManager.adopt_user_id data c) as [c1 [[]|e]]; [|reflexivity].
  match goal with
  | |- currentUserId (fst (?m c1)) = _ =>
      assert (keeps_user_id m) as Hk; [|by rewrite Hk]
  end.
  apply keeps_bind; [apply keeps_lift|]. intros response.
  apply keeps_bind; [apply keeps_addMessageToChat|]. by intros _ c'.
Qed.

(** The identity after a send whose request has left and has been
    answered with a reply that reports success. *)
Lemma sendMessage_user_id {json : JSON} (message : string) (data : JsValue)
    (success : option JsValue) (o : Options) (c : Chat) (w : World) :
  get_prop data "success" = Return success -> truthy_opt success = true ->
  isProcessing c = false ->
  message <> "" \/ is_Some (currentImage c) ->
  result_of (ChatAPI.sendMessage message (currentImage c)) w = Return o ->
  exists c' c0,
    result_of (ChatManager.sendMessage message (Return data) c) w = Return c' /\
    currentUserId c0 = currentUserId (ChatManager.updateUserId w c) /\
    currentUserId c' = currentUserId (fst (ChatManager.adopt_user_id data c0)).
Proof.
  intros Hs Ht Hproc Hinput Hsent.
  unfold result_of, ChatManager.sendMessage in *. rewrite Hproc.
  assert (String.eqb message "" && negb (bool_decide (is_Some (currentImage c))) = false)
    as ->.
  { destruct Hinput as [Hm|Hi].
    - apply andb_false_iff. left. by apply String.eqb_neq.
    - apply andb_false_iff. right. by rewrite bool_decide_eq_true_2. }
  assert (currentImage (ChatManager.updateUserId w c) = currentImage c) as Hi.
  { unfold ChatManager.updateUserId. by repeat case_match. }
  simpl. rewrite Hi.
  destruct (ChatAPI.sendMessage message (currentImage c) w) as [w1 sent]. simpl in Hsent.
  subst sent.
  match goal with
  | |- context [ChatManager.on_reply message data ?c2] =>
      pose proof (on_reply_user_id message data success c2 Hs Ht) as Hr;
      exists (ChatManager.set_isProcessing false
                match ChatManager.on_reply message data c2 with
                | (c', Return _) => c'
                | (c', Throw e) => ChatManager.on_send_error e c'
                end), c2;
      destruct (ChatManager.on_reply message data c2) as [c3 [?|e]]
  end; simpl in *; (split; [reflexivity|]); (split; [reflexivity|exact Hr]).
Qed.

(** The same for a history load. *)
Lemma loadChatHistory_user_id {json : JSON} (data : JsValue) (success : option JsValue)
    (c : Chat) (w : World) :
  get_prop data "success" = Return success -> truthy_opt success = true ->
  exists c',
    result_of (ChatManager.loadChatHistory (Return data) c) w = Return c' /\
    currentUserId c'
    = currentUserId (fst (ChatManager.adopt_user_id data (ChatManager.updateUserId w c))).
Proof.
  intros Hs Ht.
  unfold result_of, ChatManager.loadChatHistory, ChatAPI.getHistory, ApiClient.get,
    ApiClient.getTelegramUserId, js_bind. simpl.
  rewrite makeRequest_get. simpl. eexists. split; [reflexivity|].
  by apply (on_history_user_id data success).
Qed.

(** C10, as stated, fails. A reply that reports success and includes a
    [user_id], the empty string: [if (data.user_id)] passes it over, and
    after the send, as after the history load, the identity is the local
    one, [tg_555], not the value the server returned. *)
Lemma falsy_user_id_not_adopted :
  get_prop empty_id_reply "success" = Return (Some (JBool true)) /\
  get_prop empty_id_reply "user_id" = Return (Some (JStr "")) /\
  (exists c',
     result_of (ChatManager.sendMessage "Привет" (Return empty_id_reply) initial_chat) tg_world
     = Return c' /\
     currentUserId c' = JStr "tg_555") /\
  (exists c',
     result_of (ChatManager.loadChatHistory (Return empty_id_reply) initial_chat) tg_world
     = Return c' /\
     currentUserId c' = JStr "tg_555") /\
  ~ (forall (w : World) (c c' : Chat) (data uid : JsValue),
       get_prop data "success" = Return (Some (JBool true)) ->
       get_prop data "user_id" = Return (Some uid) ->
       result_of (ChatManager.loadChatHistory (Return data) c) w = Return c' ->
       currentUserId c' = uid).
Proof.
  split; [reflexivity|]. split; [reflexivity|].
  split; [eexists; split; reflexivity|]. split; [eexists; split; reflexivity|].
  intros Hall.
  specialize (Hall tg_world initial_chat _ empty_id_reply (JStr "") eq_refl eq_refl eq_refl).
  discriminate Hall.
Qed.

(** C10, amended. A reply that reports success, to a history load or to
    a send that is carried out (no send in progress, a text or a picture
    to send, the request handed over): when its [user_id] is truthy,
    [currentUserId] is that value once the handler is through, whatever
    the identity before and whatever else the reply holds; when its
    [user_id] is missing or falsy (the empty string, [null], [0],
    [false]), [currentUserId] is the identity [updateUserId] resolved
    locally at the start of the operation. *)
Theorem server_identity_adopted {json : JSON} (w : World) (c : Chat)
    (data : JsValue) (success : option JsValue) :
  get_prop data "success" = Return success -> truthy_opt success = true ->
  (forall uid,
     get_prop data "user_id" = Return (Some uid) -> truthy uid = true ->
     (forall message o,
        isProcessing c = false ->
        message <> "" \/ is_Some (currentImage c) ->
        result_of (ChatAPI.sendMessage message (currentImage c)) w = Return o ->
        exists c',
          result_of (ChatManager.sendMessage message (Return data) c) w = Return c' /\
          currentUserId c' = uid) /\
     (exists c',
        result_of (ChatManager.loadChatHistory (Return data) c) w = Return c' /\
        currentUserId c' = uid)) /\
  (forall uid,
     get_prop data "user_id" = Return uid -> truthy_opt uid = false ->
     (forall message o,
        isProcessing c = false ->
        message <> "" \/ is_Some (currentImage c) ->
        result_of (ChatAPI.sendMessage message (currentImage c)) w = Return o ->
        exists c',
          result_of (ChatManager.sendMessage message (Return data) c) w = Return c' /\
          currentUserId c' = currentUserId (ChatManager.updateUserId w c)) /\
     (exists c',
        result_of (ChatManager.loadChatHistory (Return data) c) w = Return c' /\
        currentUserId c' = currentUserId (ChatManager.updateUserId w c))).
Proof.
  intros Hs Ht. split.
  - intros uid Hu Hv. split.
    + intros message o Hproc Hinput Hsent.
      destruct (sendMessage_user_id message data success o c w Hs Ht Hproc Hinput Hsent)
        as (c' & c0 & Hc' & _ & Hid).
      exists c'. split; [exact Hc'|].
      by rewrite Hid, (adopt_user_id_truthy data uid c0 Hu Hv).
    + destruct (loadChatHistory_user_id data success c w Hs Ht) as (c' & Hc' & Hid).
      exists c'. split; [exact Hc'|].
      by rewrite Hid, (adopt_user_id_truthy data uid _ Hu Hv).
  - intros uid Hu Hv. split.
    + intros message o Hproc Hinput Hsent.
      destruct (sendMessage_user_id message data success o c w Hs Ht Hproc Hinput Hsent)
        as (c' & c0 & Hc' & H0 & Hid).
      exists c'. split; [exact Hc'|].
      by rewrite Hid, (adopt_user_id_falsy data uid c0 Hu Hv).
    + destruct (loadChatHistory_user_id data success c w Hs Ht) as (c' & Hc' & Hid).
      exists c'. split; [exact Hc'|].
      by rewrite Hid, (adopt_user_id_falsy data uid _ Hu Hv).
Qed.

Lemma server_identity_adopted_witness :
  ((forall message o,
      isProcessing initial_chat = false ->
      message <> "" \/ is_Some (currentImage initial_chat) ->
      result_of (ChatAPI.sendMessage message (currentImage initial_chat)) tg_world
      = Return o ->
      exists c',
        result_of (ChatManager.sendMessage message (Return echo_reply) initial_chat) tg_world
        = Return c' /\
        currentUserId c' = JStr "tg_777") /\
   (exists c',
      result_of (ChatManager.loadChatHistory (Return echo_reply) initial_chat) tg_world
      = Return c' /\
      currentUserId c' = JStr "tg_777")) /\
  ((forall message o,
      isProcessing initial_chat = false ->
      message <> "" \/ is_Some (currentImage initial_chat) ->
      result_of (ChatAPI.sendMessage message (currentImage initial_chat)) tg_world
      = Return o ->
      exists c',
        result_of (ChatManager.sendMessage message (Return empty_id_reply) initial_chat)
          tg_world
        = Return c' /\
        currentUserId c' = currentUserId (ChatManager.updateUserId tg_world initial_chat)) /\
   (exists c',
      result_of (ChatManager.loadChatHistory (Return empty_id_reply) initial_chat) tg_world
      = Return c' /\
      currentUserId c' = currentUserId (ChatManager.updateUserId tg_world initial_chat))).
Proof.
  split.
  - apply (proj1 (server_identity_adopted tg_world initial_chat echo_reply
                    (Some (JBool true)) eq_refl eq_refl) (JStr "tg_777")); reflexivity.
  - apply (proj2 (server_identity_adopted tg_world initial_chat empty_id_reply
                    (Some (JBool true)) eq_refl eq_refl) (Some (JStr ""))); reflexivity.
Defined.

(** The scenario of the specification: user 555 sends a greeting and the
    server answers; the log gains the two entries in order, and the
    identity is the one the server named. *)
Example send_scenario :
  result_of (ChatManager.sendMessage "Привет" (Return echo_reply) initial_chat) tg_world
  = Return
      {| currentUserId := JStr "tg_777";
         chatHistory :=
           [{| entry_role := Some (JStr "user"); entry_content := JStr "Привет" |};
            {| entry_role := Some (JStr "bot"); entry_content := JStr "Здравствуйте" |}];
         currentImage := None; isProcessing := false; isHistoryLoaded := false;
         chatMessages :=
           [{| msg_role := "user"; msg_text := "Привет"; msg_image := false |};
            {| msg_role := "bot"; msg_text := "Здравствуйте"; msg_image := false |}];
         alerts := [] |}.
Proof. vm_compute. reflexivity. Qed.

(** ** The resolver over time *)

(** X1. A web identity, once issued, stays the identity of the browser: in
    any later state of the page outside Telegram whose storage is as the
    issuing call left it, whatever the clock and the random source say
    then, [getUserId] returns the same token and writes nothing. *)
Theorem web_identity_persists (w w' : World) (X : string) :
  telegram_user w = None ->
  result_of getUserId w = Return X ->
  telegram_user w' = None ->
  localStorage w' = localStorage (world_after getUserId w) ->
  getUserId w' = (w', Return X).
Proof.
  unfold result_of, world_after. intros Ht HX Ht' Hst.
  destruct (denied (localStorage w)) eqn:Hd.
  { by rewrite getUserId_denied in HX. }
  destruct (stored_id w) as [s|] eqn:Hs.
  { rewrite (getUserId_stored w s) in HX, Hst by done. simpl in *.
    injection HX as <-. apply getUserId_stored; [done|by rewrite Hst|].
    unfold stored_id in *. by rewrite Hst. }
  destruct (full (localStorage w)) eqn:Hf.
  - by rewrite getUserId_full in HX.
  - rewrite getUserId_generated in HX, Hst by done. simpl in *.
    injection HX as <-. apply getUserId_stored; [done|by rewrite Hst|].
    unfold stored_id. rewrite Hst. simpl. by rewrite lookup_insert_eq.
Qed.

Lemma web_identity_persists_witness :
  getUserId returning_world = (returning_world, Return "web_1700000000000_k3j9x0q2abc").
Proof.
  apply (web_identity_persists fresh_world returning_world); reflexivity.
Defined.

(** ** More on the injector *)

Lemma has_assoc_get (entries : list (string * FormValue)) (name : string) :
  FormData.has entries name = false -> assoc_get name entries = None.
Proof.
  induction entries as [|[k x] es IH]; [reflexivity|].
  simpl. intros H. apply orb_false_iff in H as [Hk Hes].
  rewrite String.eqb_sym, Hk. by apply IH.
Qed.

Lemma assoc_get_append (entries : list (string * FormValue)) (name : string)
    (v : FormValue) :
  FormData.has entries name = false ->
  assoc_get name (FormData.append entries name v) = Some v.
Proof.
  unfold FormData.append.
  induction entries as [|[k x] es IH]; simpl.
  - by rewrite String.eqb_refl.
  - intros H. apply orb_false_iff in H as [Hk Hes].
    rewrite String.eqb_sym, Hk. by apply IH.
Qed.

(** X2. The patched [XMLHttpRequest.send] adds the identity at most once.
    A multipart body that has a [user_id] entry, and every body that is
    not multipart (a JSON text, nothing), goes out as it is, whatever the
    request. A multipart body without one, sent to a chat URL, goes out
    with one [user_id] entry, the resolved identity; sent again, on any
    request and in any state of the page, it is not touched again. *)
Theorem xhr_injection_at_most_once (w : World) :
  (forall xhr entries,
     FormData.has entries "user_id" = true ->
     XMLHttpRequest.inject_user_id xhr (BodyFormData entries) w
     = (w, Return (BodyFormData entries))) /\
  (forall xhr b,
     (forall entries, b <> BodyFormData entries) ->
     XMLHttpRequest.inject_user_id xhr b w = (w, Return b)) /\
  (forall meth url entries X,
     includes url "/api/chat" = true ->
     FormData.has entries "user_id" = false ->
     result_of getUserId w = Return X ->
     exists entries',
       XMLHttpRequest.send (XMLHttpRequest.open XMLHttpRequest.new meth url)
         (BodyFormData entries) w
       = (add_network (XhrSend meth url (BodyFormData entries'))
            (add_console (ConsoleLog "Added user_id to XMLHttpRequest FormData:" X)
               (world_after getUserId w)),
          Return (BodyFormData entries')) /\
       assoc_get "user_id" entries' = Some (FVString X) /\
       count_key "user_id" entries' = 1%nat /\
       forall meth' url' w',
         XMLHttpRequest.send (XMLHttpRequest.open XMLHttpRequest.new meth' url')
           (BodyFormData entries') w'
         = (add_network (XhrSend meth' url' (BodyFormData entries')) w',
            Return (BodyFormData entries'))).
Proof.
  assert (forall xhr entries w0,
            FormData.has entries "user_id" = true ->
            XMLHttpRequest.inject_user_id xhr (BodyFormData entries) w0
            = (w0, Return (BodyFormData entries))) as Hpresent.
  { intros xhr entries w0 Hhas. unfold XMLHttpRequest.inject_user_id. rewrite Hhas.
    destruct (XMLHttpRequest._url xhr) as [u|]; [|reflexivity].
    by destruct (negb (String.eqb u "") && includes u "/api/chat"). }
  split; [|split].
  - intros xhr entries. apply Hpresent.
  - intros xhr b Hb. unfold XMLHttpRequest.inject_user_id.
    destruct (XMLHttpRequest._url xhr) as [u|]; [|reflexivity].
    destruct (negb (String.eqb u "") && includes u "/api/chat"); [|reflexivity].
    destruct b as [|s|entries]; [reflexivity|reflexivity|].
    by destruct (Hb entries).
  - intros meth url entries X Hin Hhas HX.
    exists (FormData.append entries "user_id" (FVString X)).
    split; [|split; [|split]].
    + pose proof (getUserId_again w X HX) as H2.
      unfold XMLHttpRequest.send, XMLHttpRequest.inject_user_id, XMLHttpRequest.open.
      simpl. rewrite Hin, (includes_nonempty url "/api/chat" Hin eq_refl), Hhas. simpl.
      unfold result_of, world_after, js_bind in *.
      destruct (getUserId w) as [w1 r]. simpl in *. subst r. rewrite H2. reflexivity.
    + by apply assoc_get_append.
    + by apply count_key_append.
    + intros meth' url' w'. unfold XMLHttpRequest.send, js_bind.
      rewrite Hpresent by apply has_append. reflexivity.
Qed.

Lemma xhr_injection_at_most_once_witness :
  exists entries',
    XMLHttpRequest.send (XMLHttpRequest.open XMLHttpRequest.new "POST" "/api/chat")
      (BodyFormData [("message", FVString "Привет")]) tg_world
    = (add_network (XhrSend "POST" "/api/chat" (BodyFormData entries'))
         (add_console (ConsoleLog "Added user_id to XMLHttpRequest FormData:" "tg_555")
            (world_after getUserId tg_world)),
       Return (BodyFormData entries')) /\
    assoc_get "user_id" entries' = Some (FVString "tg_555") /\
    count_key "user_id" entries' = 1%nat /\
    forall meth' url' w',
      XMLHttpRequest.send (XMLHttpRequest.open XMLHttpRequest.new meth' url')
        (BodyFormData entries') w'
      = (add_network (XhrSend meth' url' (BodyFormData entries')) w',
         Return (BodyFormData entries')).
Proof.
  apply (proj2 (proj2 (xhr_injection_at_most_once tg_world))
           "POST" "/api/chat" [("message", FVString "Привет")] "tg_555");
    reflexivity.
Defined.

Lemma assoc_get_set_other {A} (k k' : string) (v : A) (o : list (string * A)) :
  k' <> k -> assoc_get k' (assoc_set k v o) = assoc_get k' o.
Proof.
  intros Hne. induction o as [|[k0 v0] o IH]; simpl.
  - destruct (String.eqb_spec k' k); [contradiction|reflexivity].
  - destruct (String.eqb_spec k k0) as [->|Hk]; simpl.
    + destruct (String.eqb_spec k' k0); [contradiction|reflexivity].
    + by rewrite IH.
Qed.

Section InjectorMore.

Context {json : JSON}.

(** X3. A chat POST sent as JSON whose text is a JSON value other than an
    object or an array ([null], a number, a string, a boolean): nothing
    can be set on it, the exception ends in the [catch], and the request
    leaves with the options object as it was. *)
Theorem primitive_json_forwarded (url : string) (options : Options) (s : string)
    (v : JsValue) (w : World) :
  is_chat_post url options = true ->
  is_json_request options = true ->
  body options = BodyString s ->
  JSON_parse s = Some v ->
  ApiClient.is_object v = false ->
  exists w1 e,
    fetch url options w
    = (add_network (FetchCall url options)
         (add_console (ConsoleError "Error parsing JSON body:" e) w1),
       Return options) /\
    network w1 = network w.
Proof.
  intros Hc Hj Hb Hp Hv. unfold fetch, inject_user_id. rewrite Hc, Hb, Hj.
  unfold js_try, js_bind, parse_body, js_lift, js_ret. rewrite Hp.
  pose proof (getUserId_network w) as Hn. unfold world_after in Hn.
  destruct v as [|b|n|t|l|o]; try discriminate Hv; simpl.
  - eexists _, _. split; reflexivity.
  - destruct (getUserId w) as [w1 [uid|e]]; simpl in *; eexists _, _; split; eauto.
  - destruct (getUserId w) as [w1 [uid|e]]; simpl in *; eexists _, _; split; eauto.
  - destruct (getUserId w) as [w1 [uid|e]]; simpl in *; eexists _, _; split; eauto.
Qed.

(** X4. When the identity cannot be resolved (the storage throws), the two
    branches of the patched [fetch] part ways. With a multipart body the
    exception leaves [fetch]: the call throws and nothing is sent. With a
    JSON body it ends in the [catch]: it is logged, and the request leaves
    as the caller made it, without a [user_id]. *)
Theorem injection_when_resolution_fails (url : string) (options : Options)
    (w : World) (e : JsError) :
  is_chat_post url options = true ->
  result_of getUserId w = Throw e ->
  (forall entries,
     body options = BodyFormData entries ->
     FormData.has entries "user_id" = false ->
     fetch url options w = (w, Throw e)) /\
  (forall s o,
     is_json_request options = true ->
     body options = BodyString s ->
     JSON_parse s = Some (JObj o) ->
     truthy_opt (assoc_get "user_id" o) = false ->
     fetch url options w
     = (add_network (FetchCall url options)
          (add_console (ConsoleError "Error parsing JSON body:" e) w),
        Return options)).
Proof.
  intros Hc He. apply getUserId_throws in He. split.
  - intros entries Hb Hhas. unfold fetch, inject_user_id. rewrite Hc, Hb, Hhas. simpl.
    unfold js_bind. by rewrite He.
  - intros s o Hj Hb Hp Hu. unfold fetch, inject_user_id. rewrite Hc, Hb, Hj.
    unfold js_try, js_bind, parse_body, js_lift, js_ret. rewrite Hp. simpl.
    rewrite Hu. simpl. by rewrite He.
Qed.

(** X5. Injection into a JSON body changes nothing but [user_id]: the text
    that leaves parses to an object with the same property names in the
    same order ([user_id] last when it was not there) and with the same
    value under every other name. *)
Theorem json_injection_keeps_fields (url : string) (options : Options) (s : string)
    (o : list (string * JsValue)) (X : string) (w : World) :
  is_chat_post url options = true ->
  is_json_request options = true ->
  body options = BodyString s ->
  JSON_parse s = Some (JObj o) ->
  truthy_opt (assoc_get "user_id" o) = false ->
  result_of getUserId w = Return X ->
  exists s' o',
    network (world_after (fetch url options) w)
    = network w ++ [FetchCall url (with_body options (BodyString s'))] /\
    JSON_parse s' = Some (JObj o') /\
    (forall k, k <> "user_id" -> assoc_get k o' = assoc_get k o) /\
    map fst o' = (if bool_decide ("user_id" ∈ map fst o) then map fst o
                  else map fst o ++ ["user_id"]).
Proof.
  intros Hc Hj Hb Hp Hu HX.
  exists (JSON_stringify (JObj (assoc_set "user_id" (JStr X) o))),
         (assoc_set "user_id" (JStr X) o).
  split; [|split; [|split]].
  - unfold world_after, fetch, js_bind.
    rewrite (inject_json_absent url options s o X) by done. simpl.
    by rewrite getUserId_network.
  - apply JSON_parse_stringify. apply assoc_set_wf; [|reflexivity].
    by apply (JSON_parse_wf s).
  - intros k Hk. by apply assoc_get_set_other.
  - destruct (decide ("user_id" ∈ map fst o)) as [Hin|Hout].
    + rewrite bool_decide_eq_true_2 by done. by apply assoc_set_keys.
    + rewrite bool_decide_eq_false_2 by done. rewrite assoc_set_fresh by done.
      by rewrite map_app.
Qed.

(** What the injector can do to a request, in every case: it sends
    nothing itself, and of the options object it changes the body alone. *)
Lemma inject_user_id_frame (url : string) (options : Options) (w : World) :
  network (world_after (inject_user_id url options) w) = network w /\
  forall options',
    result_of (inject_user_id url options) w = Return options' ->
    method options' = method options /\ headers options' = headers options.
Proof.
  unfold world_after, result_of, inject_user_id.
  destruct (is_chat_post url options); [|by split; [|intros ? [= <-]]].
  pose proof (getUserId_network w) as Hn. unfold world_after in Hn.
  destruct (body options) as [|s|entries] eqn:Hb.
  - destruct (is_json_request options); [|by split; [|intros ? [= <-]]].
    simpl. by split; [|intros ? [= <-]].
  - destruct (is_json_request options); [|by split; [|intros ? [= <-]]].
    unfold js_try, js_bind, parse_body, js_lift, js_ret, js_throw.
    destruct (JSON_parse s) as [v|]; [|by split; [|intros ? [= <-]]].
    destruct (get_prop v "user_id") as [current|e]; simpl;
      [|by split; [|intros ? [= <-]]].
    destruct (negb (truthy_opt current)); [|by split; [|intros ? [= <-]]].
    destruct (getUserId w) as [w1 [uid|e]] eqn:Hg; simpl in *;
      [|by split; [|intros ? [= <-]]].
    destruct (set_prop v "user_id" (JStr uid)) as [data'|e]; simpl;
      [|by split; [|intros ? [= <-]]].
    pose proof (getUserId_network w1) as Hn1. unfold world_after in Hn1.
    destruct (getUserId w1) as [w2 [uid'|e]]; simpl in *;
      (split; [congruence|by intros ? [= <-]]).
  - destruct (negb (FormData.has entries "user_id")); [|by split; [|intros ? [= <-]]].
    unfold js_bind. destruct (getUserId w) as [w1 [uid|e]] eqn:Hg; simpl in *;
      [|by split].
    pose proof (getUserId_network w1) as Hn1. unfold world_after in Hn1.
    destruct (getUserId w1) as [w2 [uid'|e]]; simpl in *;
      (split; [congruence|]); [by intros ? [= <-]|done].
Qed.

(** X6. Whatever the request, the patched [fetch] hands the original
    [fetch] one call when it returns, to the URL it was given and with the
    method and the headers it was given: the patch changes the body and
    nothing else. When it throws, nothing has been sent. *)
Theorem fetch_request_line (url : string) (options : Options) (w : World) :
  (forall options',
     result_of (fetch url options) w = Return options' ->
     network (world_after (fetch url options) w) = network w ++ [FetchCall url options'] /\
     method options' = method options /\
     headers options' = headers options) /\
  (forall e,
     result_of (fetch url options) w = Throw e ->
     network (world_after (fetch url options) w) = network w).
Proof.
  destruct (inject_user_id_frame url options w) as [Hn Hframe].
  unfold world_after, result_of, fetch, js_bind in *.
  destruct (inject_user_id url options w) as [w1 [o1|e1]]; simpl in *.
  - split; [|discriminate]. intros options' [= <-].
    rewrite Hn. split; [reflexivity|]. by apply Hframe.
  - split; [discriminate|]. by intros e _.
Qed.

End InjectorMore.

Lemma primitive_json_forwarded_witness :
  exists w1 e,
    fetch "/api/chat/settings" (json_post "42") fresh_world
    = (add_network (FetchCall "/api/chat/settings" (json_post "42"))
         (add_console (ConsoleError "Error parsing JSON body:" e) w1),
       Return (json_post "42")) /\
    network w1 = network fresh_world.
Proof.
  apply (primitive_json_forwarded "/api/chat/settings" (json_post "42") "42" (JNum 42));
    reflexivity.
Defined.

Lemma injection_when_resolution_fails_witness :
  fetch "/api/chat" {| method := Some "POST"; headers := Some ∅;
                       body := BodyFormData [("message", FVString "Привет")] |}
    denied_world
  = (denied_world, Throw SecurityError) /\
  fetch "/api/chat/clear" (json_post "{}") denied_world
  = (add_network (FetchCall "/api/chat/clear" (json_post "{}"))
       (add_console (ConsoleError "Error parsing JSON body:" SecurityError) denied_world),
     Return (json_post "{}")).
Proof.
  split.
  - apply (proj1 (injection_when_resolution_fails "/api/chat"
                    {| method := Some "POST"; headers := Some ∅;
                       body := BodyFormData [("message", FVString "Привет")] |}
                    denied_world SecurityError eq_refl eq_refl)
             [("message", FVString "Привет")]); reflexivity.
  - apply (proj2 (injection_when_resolution_fails "/api/chat/clear" (json_post "{}")
                    denied_world SecurityError eq_refl eq_refl) "{}" []); reflexivity.
Defined.

Lemma json_injection_keeps_fields_witness :
  exists s' o',
    network (world_after (fetch "/api/chat/settings"
                            (json_post (JSON_stringify
                               (JObj [("theme", JStr "dark"); ("user_id", JNull)]))))
               tg_world)
    = network tg_world ++
      [FetchCall "/api/chat/settings"
         (with_body (json_post (JSON_stringify
                       (JObj [("theme", JStr "dark"); ("user_id", JNull)])))
            (BodyString s'))] /\
    JSON_parse s' = Some (JObj o') /\
    (forall k, k <> "user_id" ->
               assoc_get k o' = assoc_get k [("theme", JStr "dark"); ("user_id", JNull)]) /\
    map fst o' = ["theme"; "user_id"].
Proof.
  apply (json_injection_keeps_fields "/api/chat/settings" _
           (JSON_stringify (JObj [("theme", JStr "dark"); ("user_id", JNull)]))
           [("theme", JStr "dark"); ("user_id", JNull)] "tg_555");
    vm_compute; reflexivity.
Defined.

Lemma fetch_request_line_witness :
  network (world_after (fetch "/api/chat/clear" (json_post "{}")) tg_world)
  = network tg_world ++
    [FetchCall "/api/chat/clear"
       (json_post (JSON_stringify (JObj [("user_id", JStr "tg_555")])))] /\
  method (json_post (JSON_stringify (JObj [("user_id", JStr "tg_555")])))
  = method (json_post "{}") /\
  headers (json_post (JSON_stringify (JObj [("user_id", JStr "tg_555")])))
  = headers (json_post "{}").
Proof.
  apply (proj1 (fetch_request_line "/api/chat/clear" (json_post "{}") tg_world)).
  vm_compute. reflexivity.
Defined.

(** ** The API client's requests *)

Lemma append_empty_r (s : string) : s +:+ "" = s.
Proof.
  induction s as [|c s IH]; [reflexivity|].
  change (String c (s +:+ "") = String c s). by rewrite IH.
Qed.

Section RequestsMore.

Context {json : JSON}.

(** A GET without parameters of the caller's. *)
Lemma get_plain (endpoint : string) (w : World) :
  let sent :=
    {| method := Some "GET";
       headers := Some (identity_headers (ApiClient.telegram_id w));
       body := BodyUndefined |} in
  ApiClient.get endpoint [] w
  = (add_network
       (FetchCall (endpoint +:+ identity_query (ApiClient.telegram_id w)) sent) w,
     Return sent).
Proof.
  intros sent. unfold ApiClient.get, ApiClient.getTelegramUserId, js_bind. simpl.
  destruct (ApiClient.telegram_id w) as [i|] eqn:Htid; simpl.
  - rewrite makeRequest_get. rewrite Htid. reflexivity.
  - rewrite makeRequest_get. rewrite Htid.
    by rewrite append_empty_r.
Qed.

(** X7. The requests for the newspaper, the events, the server test, the
    health check, the chat settings and the chat status: each is one GET
    to its endpoint, without a body and without a [Content-Type], that the
    identity patch does not touch. When the adapter has a Telegram id to
    give, the request carries it in the header and in the query; when it
    has none, the request carries no identity. *)
Theorem plain_get_requests (w : World) :
  let tid := ApiClient.telegram_id w in
  let sent :=
    {| method := Some "GET"; headers := Some (identity_headers tid);
       body := BodyUndefined |} in
  let leaves (request : Js Options) (endpoint : string) :=
    request w = (add_network (FetchCall (endpoint +:+ identity_query tid) sent) w,
                 Return sent) in
  leaves NewspaperAPI.getArticles "/api/newspaper" /\
  leaves EventsAPI.getEvents "/api/events" /\
  leaves TestAPI.test "/api/test" /\
  leaves TestAPI.health "/health" /\
  leaves ChatAPI.getSettings "/api/chat/settings" /\
  leaves ChatAPI.getStatus "/api/chat/status" /\
  (tid = None ->
   Forall (fun endpoint =>
             identity_carriers (FetchCall (endpoint +:+ identity_query tid) sent) = [])
     ["/api/newspaper"; "/api/events"; "/api/test"; "/health";
      "/api/chat/settings"; "/api/chat/status"]).
Proof.
  cbv zeta. repeat split; try apply get_plain.
  intros ->. repeat constructor.
Qed.

(** A JSON POST to a URL outside the chat endpoints, as it leaves. *)
Lemma makeRequest_json_plain (endpoint : string) (v : JsValue) (w : World) :
  includes endpoint "/api/chat" = false ->
  wf_value v = true ->
  let sent :=
    {| method := Some "POST";
       headers := Some (<["Content-Type" := "application/json"]>
                          (identity_headers (ApiClient.telegram_id w)));
       body := BodyString (JSON_stringify v) |} in
  ApiClient.makeRequest endpoint
    {| method := Some "POST"; headers := None; body := BodyString (JSON_stringify v) |} w
  = (add_network (FetchCall endpoint sent) w, Return sent).
Proof.
  intros Hout Hwf sent. unfold ApiClient.makeRequest, API_BASE_URL, js_bind, js_try.
  change ("" +:+ ?e) with e.
  rewrite getUserHeaders_eq. simpl.
  rewrite (stringify_nonempty _ Hwf). simpl.
  rewrite (left_id_L ∅ (∪)). unfold fetch, js_bind, inject_user_id, is_chat_post.
  by rewrite Hout.
Qed.

(** X8. The two JSON POSTs of an object beside the chat's own. The
    feedback goes to a URL outside the chat endpoints: it leaves as the
    client serialised it, with the Telegram id as [telegram_user_id] when
    the adapter has one to give and with no [user_id], and needs no
    identity to be resolved. The chat settings go to a chat URL and get
    the [user_id] on top. *)
Theorem json_post_requests (w : World) (o : list (string * JsValue)) :
  wf_value (JObj o) = true ->
  let tid := ApiClient.telegram_id w in
  let o1 :=
    match tid with
    | Some i => assoc_set "telegram_user_id" (JStr i) o
    | None => o
    end in
  let leaves (v : JsValue) :=
    {| method := Some "POST";
       headers := Some (<["Content-Type" := "application/json"]> (identity_headers tid));
       body := BodyString (JSON_stringify v) |} in
  FeedbackAPI.submitFeedback (JObj o) w
  = (add_network (FetchCall "/api/feedback" (leaves (JObj o1))) w,
     Return (leaves (JObj o1))) /\
  (forall X,
     truthy_opt (assoc_get "user_id" o) = false ->
     result_of getUserId w = Return X ->
     network (world_after (ChatAPI.updateSettings (JObj o)) w)
     = network w ++
       [FetchCall "/api/chat/settings" (leaves (JObj (assoc_set "user_id" (JStr X) o1)))]).
Proof.
  intros Hwf tid o1 leaves.
  assert (wf_value (JObj o1) = true) as Hwf1.
  { unfold o1. destruct tid; [|exact Hwf]. by apply assoc_set_wf. }
  split.
  - unfold FeedbackAPI.submitFeedback, ApiClient.post, ApiClient.getTelegramUserId, js_bind.
    simpl. fold tid.
    assert ((match tid with
             | Some i => js_lift (Return (JObj (assoc_set "telegram_user_id" (JStr i) o)))
             | None => js_ret (JObj o)
             end) w = (w, Return (JObj o1))) as ->.
    { unfold o1. by destruct tid. }
    by rewrite makeRequest_json_plain.
  - intros X Hu HX.
    unfold world_after, ChatAPI.updateSettings, ApiClient.post, ApiClient.getTelegramUserId,
      js_bind. simpl. fold tid.
    assert ((match tid with
             | Some i => js_lift (Return (JObj (assoc_set "telegram_user_id" (JStr i) o)))
             | None => js_ret (JObj o)
             end) w = (w, Return (JObj o1))) as ->.
    { unfold o1. by destruct tid. }
    rewrite (makeRequest_json _ o1 X); [|reflexivity|exact Hwf1| |exact HX].
    + simpl. by rewrite getUserId_network.
    + unfold o1. destruct tid; [|exact Hu]. by rewrite assoc_get_set_other.
Qed.

(** X9. Inside Telegram, with the adapter holding the host object of the
    page and a user on it: a chat message always leaves, whatever the
    state of the storage, and the identities on it agree. The [user_id]
    the patch adds is [tg_] followed by the very id the client put into
    the header and into [telegram_user_id]. *)
Theorem telegram_send_consistent (w : World) (host : WebApp) (i message : string)
    (imageFile : option File) :
  Telegram w = Some host ->
  TelegramWebApp w = Some (InTelegram host) ->
  ApiClient.telegram_id w = Some i ->
  getUserId w = (w, Return ("tg_" +:+ i)) /\
  network (world_after (ChatAPI.sendMessage message imageFile) w)
  = network w ++
    [FetchCall "/api/chat"
       {| method := Some "POST";
          headers := Some {["X-Telegram-User-Id" := i]};
          body := BodyFormData
                    (message_entries message imageFile ++
                     [("telegram_user_id", FVString i);
                      ("user_id", FVString ("tg_" +:+ i))]) |}].
Proof.
  intros Hhost Ha Htid.
  assert (getUserId w = (w, Return ("tg_" +:+ i))) as Hg.
  { apply telegram_id_adapter in Htid as (host' & d & u & Ha' & Hd & Hu & Hz & ->).
    rewrite Ha in Ha'. injection Ha' as <-.
    apply getUserId_telegram. unfold telegram_user. by rewrite Hhost, Hd, Hu, Hz. }
  split; [exact Hg|].
  unfold ChatAPI.sendMessage, ApiClient.postFormData, ApiClient.getTelegramUserId, js_bind.
  unfold world_after. simpl. rewrite Htid. simpl.
  rewrite (makeRequest_formdata _ _ ("tg_" +:+ i));
    [|reflexivity|by destruct (String.eqb message ""), imageFile
     |unfold result_of; by rewrite Hg].
  rewrite Htid. simpl. rewrite getUserId_network. do 4 f_equal.
  unfold message_entries, FormData.append.
  by destruct (String.eqb message ""), imageFile.
Qed.

End RequestsMore.

Lemma plain_get_requests_witness :
  Forall (fun endpoint =>
            identity_carriers
              (FetchCall (endpoint +:+ identity_query (ApiClient.telegram_id web_world))
                 {| method := Some "GET";
                    headers := Some (identity_headers (ApiClient.telegram_id web_world));
                    body := BodyUndefined |}) = [])
    ["/api/newspaper"; "/api/events"; "/api/test"; "/health";
     "/api/chat/settings"; "/api/chat/status"].
Proof.
  apply (proj2 (proj2 (proj2 (proj2 (proj2 (proj2 (plain_get_requests web_world))))))).
  reflexivity.
Defined.

Lemma json_post_requests_witness :
  FeedbackAPI.submitFeedback (JObj [("message", JStr "Спасибо")]) tg_world
  = (add_network
       (FetchCall "/api/feedback"
          {| method := Some "POST";
             headers := Some (<["Content-Type" := "application/json"]>
                                (identity_headers (Some "555")));
             body := BodyString (JSON_stringify
                       (JObj [("message", JStr "Спасибо");
                              ("telegram_user_id", JStr "555")])) |}) tg_world,
     Return
       {| method := Some "POST";
          headers := Some (<["Content-Type" := "application/json"]>
                             (identity_headers (Some "555")));
          body := BodyString (JSON_stringify
                    (JObj [("message", JStr "Спасибо");
                           ("telegram_user_id", JStr "555")])) |}).
Proof.
  apply (proj1 (json_post_requests tg_world [("message", JStr "Спасибо")] eq_refl)).
Defined.

Lemma telegram_send_consistent_witness :
  getUserId tg_world = (tg_world, Return "tg_555") /\
  network (world_after (ChatAPI.sendMessage "Привет" None) tg_world)
  = network tg_world ++
    [FetchCall "/api/chat"
       {| method := Some "POST";
          headers := Some {["X-Telegram-User-Id" := "555"]};
          body := BodyFormData
                    (message_entries "Привет" None ++
                     [("telegram_user_id", FVString "555");
                      ("user_id", FVString "tg_555")]) |}].
Proof.
  apply (telegram_send_consistent tg_world host_555 "555" "Привет" None); reflexivity.
Defined.

(** ** The headers of a request *)

(** X10. The headers a request of the client leaves with: those the caller
    gave win over the client's own; where the caller gave none, the
    [Content-Type] is [application/json] exactly for a body that is a
    non-empty text (never for a multipart body), [X-Telegram-User-Id] is
    the Telegram id when there is one, and no other header is set. *)
Theorem makeRequest_headers {json : JSON} (endpoint : string) (options options' : Options)
    (w : World) :
  result_of (ApiClient.makeRequest endpoint options) w = Return options' ->
  exists sent,
    headers options' = Some sent /\
    network (world_after (ApiClient.makeRequest endpoint options) w)
    = network w ++ [FetchCall endpoint options'] /\
    (forall given k v,
       headers options = Some given -> given !! k = Some v -> sent !! k = Some v) /\
    (forall k,
       default ∅ (headers options) !! k = None ->
       sent !! k =
         if String.eqb k "Content-Type" then
           if ApiClient.is_plain_body (body options) then Some "application/json" else None
         else if String.eqb k "X-Telegram-User-Id" then ApiClient.telegram_id w
         else None).
Proof.
  unfold result_of, world_after, ApiClient.makeRequest, API_BASE_URL, js_bind, js_try.
  change ("" +:+ ?e) with e. rewrite getUserHeaders_eq. simpl.
  set (defaults := if ApiClient.is_plain_body (body options)
                   then <["Content-Type" := "application/json"]>
                          (identity_headers (ApiClient.telegram_id w))
                   else identity_headers (ApiClient.telegram_id w)).
  set (request := {| method := method options;
                     headers := Some (default ∅ (headers options) ∪ defaults);
                     body := body options |}).
  destruct (inject_user_id_frame endpoint request w) as [Hn Hframe].
  unfold world_after, result_of, fetch, js_bind in *.
  destruct (inject_user_id endpoint request w) as [w1 [o1|e1]]; simpl in *;
    [|discriminate].
  intros [= <-]. destruct (Hframe o1 eq_refl) as [_ Hh].
  exists (default ∅ (headers options) ∪ defaults).
  split; [exact Hh|]. split; [by rewrite Hn|]. split.
  - intros given k v Hg Hk. rewrite Hg. simpl. by apply lookup_union_Some_l.
  - intros k Hk. rewrite lookup_union_r by exact Hk. unfold defaults.
    destruct (String.eqb_spec k "Content-Type") as [->|Hct].
    + destruct (ApiClient.is_plain_body (body options)).
      * by rewrite lookup_insert_eq.
      * unfold identity_headers. destruct (ApiClient.telegram_id w).
        -- by rewrite lookup_singleton_ne.
        -- apply lookup_empty.
    + assert (identity_headers (ApiClient.telegram_id w) !! k
              = if String.eqb k "X-Telegram-User-Id" then ApiClient.telegram_id w
                else None) as Hid.
      { unfold identity_headers.
        destruct (String.eqb_spec k "X-Telegram-User-Id") as [->|Hx].
        - destruct (ApiClient.telegram_id w); [apply lookup_singleton_eq|apply lookup_empty].
        - destruct (ApiClient.telegram_id w);
            [by rewrite lookup_singleton_ne|apply lookup_empty]. }
      destruct (ApiClient.is_plain_body (body options)); [|exact Hid].
      by rewrite lookup_insert_ne.
Qed.

Lemma makeRequest_headers_witness :
  exists sent,
    headers own_header_sent = Some sent /\
    network (world_after (ApiClient.makeRequest "/api/feedback" own_header_post) tg_world)
    = network tg_world ++ [FetchCall "/api/feedback" own_header_sent] /\
    (forall given k v,
       headers own_header_post = Some given -> given !! k = Some v -> sent !! k = Some v) /\
    (forall k,
       default ∅ (headers own_header_post) !! k = None ->
       sent !! k =
         if String.eqb k "Content-Type" then
           if ApiClient.is_plain_body (body own_header_post)
           then Some "application/json" else None
         else if String.eqb k "X-Telegram-User-Id" then ApiClient.telegram_id tg_world
         else None).
Proof.
  apply (makeRequest_headers "/api/feedback" own_header_post own_header_sent tg_world).
  vm_compute. reflexivity.
Defined.

(** ** Responses and the messages for their errors *)

Lemma handleApiError_statuses :
  forallb (fun n =>
             String.eqb
               (ApiUtils.handleApiError
                  (Error ("HTTP error! status: " +:+ Z_toString (Z.of_nat n))))
               (http_error_message (Z.of_nat n)))
    (seq 100 500) = true.
Proof. vm_compute. reflexivity. Qed.

(** X11. A response with a status of three digits outside 200-299 makes
    the request throw, and the message [handleApiError] finds for that
    error by searching its text goes by the status alone: its own for 413,
    404 and 500, the general one for every other status. *)
Theorem http_error_messages {json : JSON} (response : ApiClient.Response) :
  100 <= ApiClient.status response <= 599 ->
  ApiClient.ok response = false ->
  exists e,
    ApiClient.settle (Return response) = Throw e /\
    ApiUtils.handleApiError e = http_error_message (ApiClient.status response).
Proof.
  intros Hrange Hok. unfold ApiClient.settle, ApiClient.receive. rewrite Hok. simpl.
  eexists. split; [reflexivity|].
  pose proof handleApiError_statuses as Hall. rewrite forallb_forall in Hall.
  specialize (Hall (Z.to_nat (ApiClient.status response))).
  rewrite Z2Nat.id in Hall by lia.
  apply String.eqb_eq, Hall. apply in_seq. lia.
Qed.

Lemma http_error_messages_witness :
  exists e,
    ApiClient.settle
      (Return {| ApiClient.status := 413; ApiClient.contentType := Some "text/html";
                 ApiClient.text := "Request Entity Too Large" |}) = Throw e /\
    ApiUtils.handleApiError e = "Файл слишком большой. Выберите файл меньшего размера.".
Proof.
  apply (http_error_messages
           {| ApiClient.status := 413; ApiClient.contentType := Some "text/html";
              ApiClient.text := "Request Entity Too Large" |}).
  - simpl. lia.
  - reflexivity.
Defined.

(** ** The retry helper, for every request function *)

Section RetryOutcomes.

Context {St A : Type}.
Variable requestFunction : St -> St * Result A.
Variables maxRetries delay : Z.

#[local] Abbreviation state_before := (ApiUtils.state_before requestFunction).
#[local] Abbreviation outcome := (ApiUtils.outcome requestFunction).
#[local] Abbreviation retry_loop := (ApiUtils.retry_loop requestFunction maxRetries delay).

(** How the loop ends when it has attempts left: after some failures it
    meets a success, or the failure of the last attempt. *)
Lemma retry_loop_outcomes (remaining : nat) :
  forall (attempt : Z) (s : St) (waits : list Z),
    (0 < remaining)%nat ->
    Z.of_nat remaining = maxRetries - attempt + 1 ->
    exists (n : nat) (r : Result (option A)),
      (n < remaining)%nat /\
      (forall j, (j < n)%nat -> exists e, outcome j s = Throw e) /\
      retry_loop remaining attempt s waits
      = (state_before (S n) s,
         waits ++ map (fun j => delay * 2 ^ (attempt - 1 + Z.of_nat j)) (seq 0 n), r) /\
      ((exists a, outcome n s = Return a /\ r = Return (Some a)) \/
       (exists e, outcome n s = Throw e /\ S n = remaining /\ r = Throw e)).
Proof.
  induction remaining as [|rem IH]; intros attempt s waits Hpos Hrem; [lia|].
  simpl ApiUtils.retry_loop.
  replace (attempt <=? maxRetries) with true by (symmetry; apply Z.leb_le; lia).
  destruct (requestFunction s) as [s' res] eqn:Hf.
  destruct res as [a|e].
  - exists 0%nat, (Return (Some a)).
    split; [lia|]. split; [intros j Hj; lia|]. split.
    + simpl. rewrite Hf, app_nil_r. reflexivity.
    + left. exists a. unfold ApiUtils.outcome. simpl. by rewrite Hf.
  - destruct (attempt =? maxRetries) eqn:Hlast.
    + apply Z.eqb_eq in Hlast.
      exists 0%nat, (Throw e).
      split; [lia|]. split; [intros j Hj; lia|]. split.
      * simpl. rewrite Hf, app_nil_r. reflexivity.
      * right. exists e. unfold ApiUtils.outcome. simpl. rewrite Hf.
        split; [reflexivity|]. split; [lia|reflexivity].
    + apply Z.eqb_neq in Hlast.
      destruct (IH (attempt + 1) s' (waits ++ [delay * 2 ^ (attempt - 1)]))
        as (n & r & Hn & Hfail & Hloop & Hend); [lia|lia|].
      exists (S n), r.
      split; [lia|]. split; [|split].
      * intros [|j] Hj.
        -- exists e. unfold ApiUtils.outcome. simpl. by rewrite Hf.
        -- destruct (Hfail j ltac:(lia)) as [e' He'].
           exists e'. rewrite outcome_shift, Hf. exact He'.
      * rewrite Hloop. rewrite (state_before_shift requestFunction (S n) s), Hf. simpl fst.
        f_equal. f_equal. rewrite <- app_assoc. f_equal.
        change (seq 0 (S n)) with (0%nat :: seq 1 n).
        rewrite <- seq_shift, map_cons, map_map. simpl app. f_equal.
        -- f_equal. f_equal. lia.
        -- apply map_ext. intros j. f_equal. f_equal. lia.
      * rewrite !outcome_shift, Hf. simpl fst.
        destruct Hend as [(a & Ha & ->)|(e' & He' & Hlen & ->)].
        -- left. eauto.
        -- right. exists e'. split; [exact He'|]. split; [lia|reflexivity].
Qed.

End RetryOutcomes.

(** X12. For every request function and every positive [maxRetries], the
    retry helper ends in one of two ways and no other: after [n] failed
    attempts, [n] below [maxRetries], it returns the result of a
    successful attempt, or it throws the error of the attempt that was the
    last one allowed. It has then called the request function [n + 1]
    times and waited [delay], [2 * delay], ... between the calls; it never
    resolves to [undefined]. With no attempt allowed it calls nothing and
    resolves to [undefined]. *)
Theorem retryRequest_outcomes {St A : Type} (requestFunction : St -> St * Result A)
    (maxRetries delay : Z) (s : St) :
  (0 < maxRetries ->
   exists (n : nat) (r : Result (option A)),
     Z.of_nat n < maxRetries /\
     (forall j, (j < n)%nat -> exists e, ApiUtils.outcome requestFunction j s = Throw e) /\
     ApiUtils.retryRequest requestFunction maxRetries delay s
     = (ApiUtils.state_before requestFunction (S n) s, backoff delay n, r) /\
     ((exists a, ApiUtils.outcome requestFunction n s = Return a /\ r = Return (Some a)) \/
      (exists e, ApiUtils.outcome requestFunction n s = Throw e /\
                 Z.of_nat (S n) = maxRetries /\ r = Throw e))) /\
  (maxRetries <= 0 ->
   ApiUtils.retryRequest requestFunction maxRetries delay s = (s, [], Return None)).
Proof.
  split.
  - intros Hpos.
    destruct (retry_loop_outcomes requestFunction maxRetries delay (Z.to_nat maxRetries)
                1 s [] ltac:(lia) ltac:(lia)) as (n & r & Hn & Hfail & Hloop & Hend).
    exists n, r. split; [lia|]. split; [exact Hfail|]. split.
    + unfold ApiUtils.retryRequest. rewrite Hloop. reflexivity.
    + destruct Hend as [?|(e & He & Hlen & ->)]; [by left|].
      right. exists e. split; [exact He|]. split; [lia|reflexivity].
  - intros Hnone. unfold ApiUtils.retryRequest.
    replace (Z.to_nat maxRetries) with 0%nat by lia. reflexivity.
Qed.

Lemma retryRequest_outcomes_witness :
  (exists (n : nat) (r : Result (option string)),
     Z.of_nat n < 3 /\
     (forall j, (j < n)%nat -> exists e, ApiUtils.outcome flaky_request j 0%nat = Throw e) /\
     ApiUtils.retryRequest flaky_request 3 1000 0%nat
     = (ApiUtils.state_before flaky_request (S n) 0%nat, backoff 1000 n, r) /\
     ((exists a, ApiUtils.outcome flaky_request n 0%nat = Return a /\ r = Return (Some a)) \/
      (exists e, ApiUtils.outcome flaky_request n 0%nat = Throw e /\
                 Z.of_nat (S n) = 3 /\ r = Throw e))) /\
  ApiUtils.retryRequest flaky_request 0 1000 0%nat = (0%nat, [], Return None).
Proof.
  split.
  - apply (proj1 (retryRequest_outcomes flaky_request 3 1000 0%nat)). lia.
  - apply (proj2 (retryRequest_outcomes flaky_request 0 1000 0%nat)). lia.
Defined.

(** ** The picture that is sent *)

(** X13. For a picture of positive width and height: the canvas never
    enlarges it and never exceeds 1200 on either edge; a picture within
    1200 by 1200 keeps its size, and the size of a canvas is a size the
    computation leaves alone (compressing twice does not shrink twice). *)
Theorem canvas_size_bounds (W H W' H' : Z) :
  0 < W -> 0 < H ->
  ApiUtils.canvas_size W H = (W', H') ->
  0 <= W' <= Z.min W ApiUtils.maxDimension /\
  0 <= H' <= Z.min H ApiUtils.maxDimension /\
  ApiUtils.canvas_size W' H' = (W', H') /\
  (W <= ApiUtils.maxDimension -> H <= ApiUtils.maxDimension -> (W', H') = (W, H)).
Proof.
  intros HW HH. unfold ApiUtils.canvas_size, ApiUtils.maxDimension.
  destruct ((W >? 1200) || (H >? 1200)) eqn:Hbig.
  - apply orb_true_iff in Hbig. rewrite !Z.gtb_ltb, !Z.ltb_lt in Hbig.
    destruct (W >? H) eqn:Hcmp; intros [= <- <-].
    + apply Z.gtb_lt in Hcmp.
      assert (0 <= H * 1200 / W) as Hq0 by (apply Z.div_pos; lia).
      assert (H * 1200 / W <= H) as Hq1 by (apply Z.div_le_upper_bound; nia).
      assert (H * 1200 / W < 1200) as Hq2 by (apply Z.div_lt_upper_bound; nia).
      replace ((1200 >? 1200) || (H * 1200 / W >? 1200)) with false
        by (symmetry; apply orb_false_iff; rewrite !Z.gtb_ltb, !Z.ltb_ge; lia).
      repeat split; lia.
    + rewrite Z.gtb_ltb in Hcmp. apply Z.ltb_ge in Hcmp.
      assert (0 <= W * 1200 / H) as Hq0 by (apply Z.div_pos; lia).
      assert (W * 1200 / H <= W) as Hq1 by (apply Z.div_le_upper_bound; nia).
      assert (W * 1200 / H <= 1200) as Hq2 by (apply Z.div_le_upper_bound; nia).
      replace ((W * 1200 / H >? 1200) || (1200 >? 1200)) with false
        by (symmetry; apply orb_false_iff; rewrite !Z.gtb_ltb, !Z.ltb_ge; lia).
      repeat split; lia.
  - apply orb_false_iff in Hbig. rewrite !Z.gtb_ltb, !Z.ltb_ge in Hbig.
    intros [= <- <-].
    replace ((W >? 1200) || (H >? 1200)) with false
      by (symmetry; apply orb_false_iff; rewrite !Z.gtb_ltb, !Z.ltb_ge; lia).
    repeat split; lia.
Qed.

Lemma canvas_size_bounds_witness :
  0 <= 900 <= Z.min 3000 ApiUtils.maxDimension /\
  0 <= 1200 <= Z.min 4000 ApiUtils.maxDimension /\
  ApiUtils.canvas_size 900 1200 = (900, 1200) /\
  (3000 <= ApiUtils.maxDimension -> 4000 <= ApiUtils.maxDimension ->
   (900, 1200) = (3000, 4000)).
Proof.
  apply (canvas_size_bounds 3000 4000 900 1200); [lia|lia|reflexivity].
Defined.

Lemma list_ascii_of_string_app (a b : string) :
  list_ascii_of_string (a +:+ b) = list_ascii_of_string a ++ list_ascii_of_string b.
Proof.
  induction a as [|c a IH]; [reflexivity|].
  change (c :: list_ascii_of_string (a +:+ b)
          = c :: (list_ascii_of_string a ++ list_ascii_of_string b)).
  by rewrite IH.
Qed.

(** The scan of the reversed name, over the characters of an extension
    and up to the dot before them. *)
Lemma drop_extension_rev_ext (ext rest : list ascii) (seen : nat) :
  Forall extension_char ext ->
  ApiUtils.drop_extension_rev (ext ++ "."%char :: rest) seen
  = if Nat.eqb (seen + length ext) 0 then None else Some rest.
Proof.
  intros Hext. revert seen. induction Hext as [|c ext [Hdot Hslash] _ IH]; intros seen.
  - simpl. by rewrite Nat.add_0_r.
  - simpl. apply Ascii.eqb_neq in Hdot, Hslash. rewrite Hdot, Hslash, IH.
    by replace (S seen + length ext)%nat with (seen + S (length ext))%nat by lia.
Qed.

Lemma drop_extension_rev_none (name : list ascii) (seen : nat) :
  Forall (fun c => c <> "."%char) name ->
  ApiUtils.drop_extension_rev name seen = None.
Proof.
  intros Hname. revert seen. induction Hname as [|c name Hdot _ IH]; intros seen.
  - reflexivity.
  - simpl. apply Ascii.eqb_neq in Hdot. rewrite Hdot.
    destruct (Ascii.eqb c "/"); [reflexivity|apply IH].
Qed.

(** X14. The name of the compressed picture, for a file the browser can
    decode. A name that ends in a dot and an extension (one character or
    more, no dot and no slash among them) has that last extension, and
    nothing more, replaced by [_compressed.jpg]; a name without a dot has
    [_compressed.jpg] appended. *)
Theorem compressed_file_name (toBlob_size : Z -> Z -> Z) (file : File) (W H : Z) :
  file_image file = Some (W, H) ->
  (forall base ext,
     file_name file = base +:+ "." +:+ ext ->
     ext <> "" ->
     Forall extension_char (list_ascii_of_string ext) ->
     exists compressed,
       ApiUtils.compressImage toBlob_size file = Resolved compressed /\
       file_name compressed = base +:+ "_compressed.jpg") /\
  (Forall (fun c => c <> "."%char) (list_ascii_of_string (file_name file)) ->
   exists compressed,
     ApiUtils.compressImage toBlob_size file = Resolved compressed /\
     file_name compressed = file_name file +:+ "_compressed.jpg").
Proof.
  intros Hi. unfold ApiUtils.compressImage. rewrite Hi.
  destruct (ApiUtils.canvas_size W H) as [W' H']. split.
  - intros base ext Hname Hne Hext. eexists. split; [reflexivity|]. simpl.
    unfold ApiUtils.remove_extension. rewrite Hname.
    rewrite !list_ascii_of_string_app, !rev_app_distr. simpl rev at 2.
    rewrite <- app_assoc. simpl app at 2.
    rewrite drop_extension_rev_ext by (apply Forall_rev; exact Hext).
    rewrite length_rev. destruct ext as [|c ext]; [contradiction|]. simpl Nat.eqb.
    cbv iota. by rewrite rev_involutive, string_of_list_ascii_of_string.
  - intros Hname. eexists. split; [reflexivity|]. simpl.
    unfold ApiUtils.remove_extension.
    rewrite drop_extension_rev_none by (apply Forall_rev; exact Hname). reflexivity.
Qed.

Lemma compressed_file_name_witness :
  exists compressed,
    ApiUtils.compressImage (fun w h => w * h) large_photo = Resolved compressed /\
    file_name compressed = "IMG_0002.heic" +:+ "_compressed.jpg".
Proof.
  apply (proj1 (compressed_file_name (fun w h => w * h) large_photo 4000 3000 eq_refl)
           "IMG_0002.heic" "jpeg"); [reflexivity|discriminate|].
  repeat constructor; discriminate.
Defined.

Lemma validateFileType_allowed (file : File) :
  ApiUtils.validateFileType file ApiUtils.default_allowedTypes
  = if allowed_type file then Return true else Throw type_error.
Proof.
  unfold ApiUtils.validateFileType, allowed_type.
  by destruct (existsb (String.eqb (file_type file)) ApiUtils.default_allowedTypes).
Qed.

Lemma allowed_type_image (file : File) :
  allowed_type file = true -> startsWith (file_type file) "image/" = true.
Proof.
  unfold allowed_type, ApiUtils.default_allowedTypes. cbn [existsb].
  rewrite !orb_true_iff, !String.eqb_eq.
  intros [->|[->|[->|[->|[->|[=]]]]]]; reflexivity.
Qed.

Lemma prepareImageFile_other_type (toBlob_size : Z -> Z -> Z) (file : File) :
  allowed_type file = false ->
  ApiUtils.prepareImageFile toBlob_size file = Rejected type_error.
Proof.
  unfold ApiUtils.prepareImageFile. rewrite validateFileType_allowed. by intros ->.
Qed.

Lemma prepareImageFile_small (toBlob_size : Z -> Z -> Z) (file : File) :
  allowed_type file = true -> file_size file <= 2 * 1024 * 1024 ->
  ApiUtils.prepareImageFile toBlob_size file = Resolved file.
Proof.
  unfold ApiUtils.prepareImageFile. rewrite validateFileType_allowed.
  intros -> Hsize. unfold ApiUtils.validateFileSize.
  replace (file_size file >? 50 * 1024 * 1024) with false
    by (symmetry; rewrite Z.gtb_ltb; apply Z.ltb_ge; lia).
  replace (file_size file >? 2 * 1024 * 1024) with false
    by (symmetry; rewrite Z.gtb_ltb; apply Z.ltb_ge; lia).
  reflexivity.
Qed.

(** X15. What the preparation makes of every file. The type is checked
    first: a file of another type than the five allowed is rejected with
    the message that lists them, whatever its size. A file of an allowed
    type above 50 MB is rejected with the size message. Up to 2 MB the
    file itself comes back, unchanged. Between the two limits the file is
    compressed: the result is a JPEG with the size of the canvas when the
    browser can decode the picture, and a promise that never settles when
    it cannot. *)
Theorem prepareImageFile_outcome (toBlob_size : Z -> Z -> Z) (file : File) :
  (allowed_type file = false ->
   ApiUtils.prepareImageFile toBlob_size file = Rejected type_error) /\
  (allowed_type file = true -> 50 * 1024 * 1024 < file_size file ->
   ApiUtils.prepareImageFile toBlob_size file = Rejected size_error) /\
  (allowed_type file = true -> file_size file <= 2 * 1024 * 1024 ->
   ApiUtils.prepareImageFile toBlob_size file = Resolved file) /\
  (allowed_type file = true ->
   2 * 1024 * 1024 < file_size file <= 50 * 1024 * 1024 ->
   match file_image file with
   | Some (W, H) =>
       exists compressed,
         ApiUtils.prepareImageFile toBlob_size file = Resolved compressed /\
         file_type compressed = "image/jpeg" /\
         file_image compressed = Some (ApiUtils.canvas_size W H) /\
         file_size compressed = toBlob_size (ApiUtils.canvas_size W H).1
                                  (ApiUtils.canvas_size W H).2
   | None => ApiUtils.prepareImageFile toBlob_size file = Pending
   end).
Proof.
  split; [apply prepareImageFile_other_type|].
  split; [|split; [apply prepareImageFile_small|]];
    unfold ApiUtils.prepareImageFile; rewrite validateFileType_allowed.
  - intros -> Hsize. unfold ApiUtils.validateFileSize.
    replace (file_size file >? 50 * 1024 * 1024) with true
      by (symmetry; rewrite Z.gtb_ltb; apply Z.ltb_lt; lia).
    reflexivity.
  - intros -> Hsize. unfold ApiUtils.validateFileSize.
    replace (file_size file >? 50 * 1024 * 1024) with false
      by (symmetry; rewrite Z.gtb_ltb; apply Z.ltb_ge; lia).
    replace (file_size file >? 2 * 1024 * 1024) with true
      by (symmetry; rewrite Z.gtb_ltb; apply Z.ltb_lt; lia).
    unfold ApiUtils.compressImage.
    destruct (file_image file) as [[W H]|]; [|reflexivity].
    destruct (ApiUtils.canvas_size W H) as [W' H']. eexists. repeat split.
Qed.

Lemma prepareImageFile_outcome_witness :
  ApiUtils.prepareImageFile (fun w h => w * h) animation = Rejected type_error /\
  ApiUtils.prepareImageFile (fun w h => w * h) huge_photo = Rejected size_error /\
  ApiUtils.prepareImageFile (fun w h => w * h) drawing = Resolved drawing /\
  exists compressed,
    ApiUtils.prepareImageFile (fun w h => w * h) large_photo = Resolved compressed /\
    file_type compressed = "image/jpeg" /\
    file_image compressed = Some (ApiUtils.canvas_size 4000 3000) /\
    file_size compressed = (ApiUtils.canvas_size 4000 3000).1
                           * (ApiUtils.canvas_size 4000 3000).2.
Proof.
  split; [|split; [|split]].
  - apply (proj1 (prepareImageFile_outcome (fun w h => w * h) animation)). reflexivity.
  - apply (proj1 (proj2 (prepareImageFile_outcome (fun w h => w * h) huge_photo)));
      [reflexivity|simpl; lia].
  - apply (proj1 (proj2 (proj2 (prepareImageFile_outcome (fun w h => w * h) drawing))));
      [reflexivity|simpl; lia].
  - apply (proj2 (proj2 (proj2 (prepareImageFile_outcome (fun w h => w * h) large_photo))));
      [reflexivity|simpl; lia].
Defined.

(** X16. Selecting a picture. With no file chosen nothing happens. A file
    whose type does not begin with [image/] gets the request to choose a
    picture, before any other check. A picture of a type that is not among
    the allowed ones gets the message that lists them. A picture of an
    allowed type up to 2 MB becomes, unchanged, the picture to send. In no
    case is anything sent. *)
Theorem image_selection (toBlob_size : Z -> Z -> Z) (file : File) (c : Chat) (w : World) :
  ChatManager.handleImageSelect toBlob_size None c w = (w, Return c) /\
  (startsWith (file_type file) "image/" = false ->
   ChatManager.handleImageSelect toBlob_size (Some file) c w
   = (w, Return (ChatManager.show_alert "Пожалуйста, выберите файл изображения" c))) /\
  (startsWith (file_type file) "image/" = true -> allowed_type file = false ->
   ChatManager.handleImageSelect toBlob_size (Some file) c w
   = (w, Return (ChatManager.show_alert
                   ("Неподдерживаемый тип файла. Разрешены: " +:+
                    "image/jpeg, image/png, image/webp, image/heic, image/heif") c))) /\
  (allowed_type file = true -> file_size file <= 2 * 1024 * 1024 ->
   ChatManager.handleImageSelect toBlob_size (Some file) c w
   = (w, Return (ChatManager.set_currentImage (Some file) c))).
Proof.
  split; [reflexivity|]. unfold ChatManager.handleImageSelect. split; [|split].
  - by intros ->.
  - intros -> Hno. simpl. by rewrite prepareImageFile_other_type.
  - intros Hyes Hsize. rewrite (allowed_type_image file Hyes). simpl.
    by rewrite prepareImageFile_small.
Qed.

Lemma image_selection_witness :
  ChatManager.handleImageSelect (fun w h => w * h) (Some animation) initial_chat web_world
  = (web_world,
     Return (ChatManager.show_alert
               ("Неподдерживаемый тип файла. Разрешены: " +:+
                "image/jpeg, image/png, image/webp, image/heic, image/heif")
               initial_chat)) /\
  ChatManager.handleImageSelect (fun w h => w * h) (Some drawing) initial_chat web_world
  = (web_world, Return (ChatManager.set_currentImage (Some drawing) initial_chat)).
Proof.
  split.
  - apply (proj1 (proj2 (proj2 (image_selection (fun w h => w * h) animation
                                  initial_chat web_world)))); reflexivity.
  - apply (proj2 (proj2 (proj2 (image_selection (fun w h => w * h) drawing
                                  initial_chat web_world)))); [reflexivity|simpl; lia].
Defined.

(** ** The identity of the chat manager *)

Lemma JsValue_eqb_string_spec (v : JsValue) (s : string) :
  ChatManager.JsValue_eqb_string v s = true <-> v = JStr s.
Proof.
  destruct v; simpl; try (split; [discriminate|intros [=]]).
  rewrite String.eqb_eq. split; [by intros ->|by intros [= ->]].
Qed.

(** X17. [updateUserId] settles: a second call in the same state of the
    page changes nothing. Outside Telegram an identity that is there is
    kept, whatever it is and however much later the call comes, so the
    session identity is made once. With a Telegram user in sight the
    identity becomes [tg_<id>], and the history counts as not loaded
    exactly when that changes the identity. *)
Theorem updateUserId_settles (w : World) (c : Chat) :
  ChatManager.updateUserId w (ChatManager.updateUserId w c) = ChatManager.updateUserId w c /\
  (in_telegram w = false -> truthy (currentUserId c) = true ->
   ChatManager.updateUserId w c = c) /\
  (forall w', in_telegram w = false -> in_telegram w' = false ->
   ChatManager.updateUserId w' (ChatManager.updateUserId w c)
   = ChatManager.updateUserId w c) /\
  (forall i, ApiClient.telegram_id w = Some i ->
   (currentUserId c = JStr ("tg_" +:+ i) -> ChatManager.updateUserId w c = c) /\
   (currentUserId c <> JStr ("tg_" +:+ i) ->
    ChatManager.updateUserId w c
    = ChatManager.set_isHistoryLoaded false
        (ChatManager.set_currentUserId (JStr ("tg_" +:+ i)) c))).
Proof.
  assert (forall w', in_telegram w = false -> in_telegram w' = false ->
            ChatManager.updateUserId w' (ChatManager.updateUserId w c)
            = ChatManager.updateUserId w c) as Hlater.
  { intros w' Hw Hw'. rewrite (updateUserId_outside w' _ Hw'), (updateUserId_outside w c Hw).
    destruct (truthy (currentUserId c)) eqn:Ht; simpl; [by rewrite Ht|reflexivity]. }
  split; [|split; [|split]].
  - destruct (in_telegram w) eqn:Hin; [|by apply Hlater].
    destruct (ApiClient.telegram_id w) as [i|] eqn:Htid.
    + rewrite !(updateUserId_user w _ i Htid).
      destruct (ChatManager.JsValue_eqb_string (currentUserId c) ("tg_" +:+ i)) eqn:E.
      * by rewrite E.
      * simpl. by rewrite String.eqb_refl.
    + by rewrite !updateUserId_no_user.
  - intros Hw Ht. rewrite updateUserId_outside by done. by rewrite Ht.
  - exact Hlater.
  - intros i Htid. rewrite (updateUserId_user w c i Htid). split.
    + intros E. apply JsValue_eqb_string_spec in E. by rewrite E.
    + intros E. destruct (ChatManager.JsValue_eqb_string _ _) eqn:E'; [|reflexivity].
      apply JsValue_eqb_string_spec in E'. contradiction.
Qed.

Lemma updateUserId_settles_witness :
  ChatManager.updateUserId web_world
    (ChatManager.set_currentUserId (JStr "tg_777") initial_chat)
  = ChatManager.set_currentUserId (JStr "tg_777") initial_chat /\
  ChatManager.updateUserId tg_world
    (ChatManager.set_isHistoryLoaded true
       (ChatManager.set_currentUserId (JStr "tg_777") initial_chat))
  = ChatManager.set_isHistoryLoaded false
      (ChatManager.set_currentUserId (JStr "tg_555")
         (ChatManager.set_isHistoryLoaded true
            (ChatManager.set_currentUserId (JStr "tg_777") initial_chat))).
Proof.
  split.
  - apply (proj1 (proj2 (updateUserId_settles web_world _))); reflexivity.
  - apply (proj2 (proj2 (proj2 (proj2 (updateUserId_settles tg_world _)))
                    "555" eq_refl)).
    discriminate.
Defined.

(** ** Sending a message *)












(** ** Loading and clearing the history *)









Section ClearHistory.

Context {json : JSON}.

(** The request of a clear always leaves, with or without an identity. *)
Lemma clearHistory_leaves (w : World) :
  exists w1 options,
    ChatAPI.clearHistory w = (w1, Return options) /\
    network w1 = network w ++ [FetchCall "/api/chat/clear" options].
Proof.
  unfold ChatAPI.clearHistory, ApiClient.post, ApiClient.getTelegramUserId, js_bind.
  cbn [fst snd truthy ApiClient.is_object andb].
  destruct (result_of getUserId w) as [X|e] eqn:HX;
    destruct (ApiClient.telegram_id w) as [i|] eqn:Htid;
    cbn [js_lift js_ret set_prop assoc_set].
  - rewrite (makeRequest_json _ [("telegram_user_id", JStr i)] X);
      [|reflexivity|reflexivity|reflexivity|exact HX].
    eexists _, _. split; [reflexivity|]. cbn. by rewrite getUserId_network.
  - rewrite (makeRequest_json _ [] X); [|reflexivity|reflexivity|reflexivity|exact HX].
    eexists _, _. split; [reflexivity|]. cbn. by rewrite getUserId_network.
  - rewrite (makeRequest_json_throws _ [("telegram_user_id", JStr i)] e);
      [|reflexivity|reflexivity|reflexivity|exact HX].
    eexists _, _. split; reflexivity.
  - rewrite (makeRequest_json_throws _ [] e);
      [|reflexivity|reflexivity|reflexivity|exact HX].
    eexists _, _. split; reflexivity.
Qed.

(** X22. Clearing the history. Declined, nothing happens and nothing is
    sent. Confirmed, one request leaves, and the chat manager goes by the
    reply: when it reports success the local log is emptied, the page
    shows the greeting alone, the history counts as loaded and the user is
    told; when it does not, or when the request fails, log and page stay
    as they are and the user is told of the error. No exception leaves the
    operation. *)
Theorem history_cleared (c : Chat) (w : World) :
  (forall response, ChatManager.clearChatHistory false response c w = (w, Return c)) /\
  exists w1 options,
    network w1 = network w ++ [FetchCall "/api/chat/clear" options] /\
    (forall data success,
       get_prop data "success" = Return success -> truthy_opt success = true ->
       ChatManager.clearChatHistory true (Return data) c w
       = (w1,
          Return {| currentUserId := currentUserId c; chatHistory := [];
                    currentImage := currentImage c; isProcessing := isProcessing c;
                    isHistoryLoaded := true;
                    chatMessages := [ChatManager.welcome_message];
                    alerts := alerts c ++ ["✅ История диалога очищена"] |})) /\
    (forall data success,
       get_prop data "success" = Return success -> truthy_opt success = false ->
       ChatManager.clearChatHistory true (Return data) c w
       = (w1, Return (ChatManager.show_alert "❌ Ошибка очистки истории" c))) /\
    (forall e,
       ChatManager.clearChatHistory true (Throw e) c w
       = (w1, Return (ChatManager.show_alert "❌ Ошибка соединения" c))) /\
    (forall response, exists c',
       ChatManager.clearChatHistory true response c w = (w1, Return c')).
Proof.
  split; [reflexivity|].
  destruct (clearHistory_leaves w) as (w1 & options & Hsent & Hnet).
  exists w1, options. split; [exact Hnet|].
  unfold ChatManager.clearChatHistory, ChatManager.performClearHistory. rewrite Hsent.
  split; [|split; [|split]].
  - intros data success Hs Ht.
    unfold ChatManager.on_cleared, ChatManager.chat_bind, ChatManager.chat_lift,
      ChatManager.chat_modify. by rewrite Hs, Ht.
  - intros data success Hs Ht.
    unfold ChatManager.on_cleared, ChatManager.chat_bind, ChatManager.chat_lift,
      ChatManager.chat_modify. by rewrite Hs, Ht.
  - reflexivity.
  - intros [data|e]; [|by eexists].
    destruct (ChatManager.on_cleared data c) as [c' [[]|e]]; by eexists.
Qed.

End ClearHistory.

Lemma history_cleared_witness :
  exists w1 options,
    network w1 = network tg_world ++ [FetchCall "/api/chat/clear" options] /\
    ChatManager.clearChatHistory true (Return (JObj [("success", JBool true)]))
      opened_chat tg_world
    = (w1,
       Return {| currentUserId := currentUserId opened_chat; chatHistory := [];
                 currentImage := currentImage opened_chat;
                 isProcessing := isProcessing opened_chat;
                 isHistoryLoaded := true;
                 chatMessages := [ChatManager.welcome_message];
                 alerts := alerts opened_chat ++ ["✅ История диалога очищена"] |}).
Proof.
  destruct (proj2 (history_cleared opened_chat tg_world))
    as (w1 & options & Hnet & Hok & _).
  exists w1, options. split; [exact Hnet|].
  apply (Hok (JObj [("success", JBool true)]) (Some (JBool true))); reflexivity.
Defined.

(** ** The reply of the server *)



(** ** The page *)

(** A change that keeps the ids: the element an id names is the changed
    one under the id that was changed, and the same one under another. *)
Lemma find_update_first_same (id : string) (f : Element -> Element) (els : list Element) :
  (forall e, el_id (f e) = el_id e) ->
  List.find (fun e => String.eqb (el_id e) id) (DOM.update_first id f els)
  = f <$> List.find (fun e => String.eqb (el_id e) id) els.
Proof.
  intros Hf. induction els as [|e els IH]; [reflexivity|]. simpl.
  destruct (String.eqb (el_id e) id) eqn:E; simpl.
  - by rewrite Hf, E.
  - by rewrite E.
Qed.

Lemma find_update_first_other (id id' : string) (f : Element -> Element)
    (els : list Element) :
  id <> id' -> (forall e, el_id (f e) = el_id e) ->
  List.find (fun e => String.eqb (el_id e) id) (DOM.update_first id' f els)
  = List.find (fun e => String.eqb (el_id e) id) els.
Proof.
  intros Hne Hf. induction els as [|e els IH]; [reflexivity|]. simpl.
  destruct (String.eqb_spec (el_id e) id') as [E'|E']; simpl.
  - rewrite Hf. destruct (String.eqb_spec (el_id e) id); [congruence|reflexivity].
  - by rewrite IH.
Qed.

Lemma getElementById_with_element_same (id : string) (f : Element -> Element)
    (d : Document) :
  (forall e, el_id (f e) = el_id e) ->
  DOM.getElementById id (DOM.with_element id f d) = f <$> DOM.getElementById id d.
Proof.
  intros Hf. unfold DOM.getElementById, DOM.with_element.
  destruct (String.eqb id ""); [reflexivity|]. simpl.
  by apply find_update_first_same.
Qed.

Lemma getElementById_nonempty (id : string) (d : Document) (e : Element) :
  DOM.getElementById id d = Some e -> id <> "" /\ el_id e = id.
Proof.
  unfold DOM.getElementById. destruct (String.eqb_spec id ""); [discriminate|].
  intros Hfind. split; [assumption|].
  apply find_some in Hfind as [_ Hid]. by apply String.eqb_eq in Hid.
Qed.

(** *** The modal manager *)

Lemma closeModal_active_displayed (w : World) (modalId : string) (s : ModalManager.State) :
  active_displayed s -> active_displayed (ModalManager.closeModal w modalId s).
Proof.
  intros Hs. unfold ModalManager.closeModal.
  destruct (DOM.getElementById modalId (ModalManager.document s)); [|assumption].
  intros m [=].
Qed.

Lemma openModal_active_displayed (w : World) (modalId : string) (s : ModalManager.State) :
  active_displayed s -> active_displayed (ModalManager.openModal w modalId s).
Proof.
  intros Hs. unfold ModalManager.openModal.
  set (s1 := match ModalManager.activeModal s with
             | Some active =>
                 if negb (String.eqb active "") && negb (String.eqb active modalId)
                 then ModalManager.closeModal w active s
                 else s
             | None => s
             end).
  assert (active_displayed s1) as Hs1.
  { subst s1. destruct (ModalManager.activeModal s) as [active|]; [|assumption].
    destruct (negb (String.eqb active "") && negb (String.eqb active modalId));
      [by apply closeModal_active_displayed|assumption]. }
  destruct (DOM.getElementById modalId (ModalManager.document s1)) as [modal|] eqn:Hm;
    [|assumption].
  intros m [= <-]. cbn [ModalManager.document ModalManager.activeModal].
  split; [by apply (getElementById_nonempty _ _ _ Hm)|]. split; [|reflexivity].
  change (DOM.getElementById modalId (DOM.set_overflow "hidden" ?d))
    with (DOM.getElementById modalId d).
  rewrite getElementById_with_element_same by done. by rewrite Hm.
Qed.

Lemma close_each_active_displayed (w : World) (positions : list nat)
    (s : ModalManager.State) :
  active_displayed s -> active_displayed (ModalManager.close_each w positions s).
Proof.
  revert s. induction positions as [|i rest IH]; intros s Hs; [assumption|].
  cbn [ModalManager.close_each]. apply IH.
  destruct (doc_elements (ModalManager.document s) !! i) as [modal|]; [|assumption].
  destruct (String.eqb (display modal) "block"); [|assumption].
  by apply closeModal_active_displayed.
Qed.

Lemma modal_calls_active_displayed (w : World) (calls : list ModalCall)
    (s : ModalManager.State) :
  active_displayed s -> active_displayed (modal_calls w calls s).
Proof.
  unfold modal_calls. revert s.
  induction calls as [|call calls IH]; intros s Hs; [assumption|].
  cbn [fold_left]. apply IH. destruct call as [modalId|modalId|]; cbn [modal_call].
  - by apply openModal_active_displayed.
  - by apply closeModal_active_displayed.
  - by apply close_each_active_displayed.
Qed.

(** X24. Through every sequence of calls of [openModal], [closeModal] and
    [closeAllModals] on a new manager, whatever the page and whatever the
    ids asked for: when the manager names an active modal, an element with
    that id is there and on display, and the page does not scroll.
    [isModalOpen] answers [true] for it, with the id and without. *)
Theorem active_modal_displayed (w : World) (d : Document) (calls : list ModalCall)
    (m : string) :
  ModalManager.getActiveModal (modal_calls w calls (ModalManager.new d)) = Some m ->
  ModalManager.isModalOpen (Some m) (modal_calls w calls (ModalManager.new d))
  = JBool true /\
  ModalManager.isModalOpen None (modal_calls w calls (ModalManager.new d)) = JBool true /\
  body_overflow (ModalManager.document (modal_calls w calls (ModalManager.new d)))
  = "hidden".
Proof.
  set (s := modal_calls w calls (ModalManager.new d)). intros Hm.
  assert (active_displayed s) as Hs.
  { apply modal_calls_active_displayed. intros ? [=]. }
  destruct (Hs m Hm) as (Hne & Hshown & Hover).
  unfold ModalManager.isModalOpen. unfold ModalManager.getActiveModal in Hm. rewrite Hm.
  destruct (String.eqb_spec m ""); [contradiction|].
  destruct (DOM.getElementById m (ModalManager.document s)) as [modal|]; [|discriminate].
  injection Hshown as ->. by repeat split.
Qed.

Lemma active_modal_displayed_witness :
  ModalManager.isModalOpen (Some "feedbackModal")
    (modal_calls tg_world
       [CallOpenModal "newspaperModal"; CallCloseModal "calendarModal";
        CallOpenModal "feedbackModal"; CallOpenModal "noSuchModal";
        CallOpenModal "feedbackModal"]
       (ModalManager.new page))
  = JBool true /\
  ModalManager.isModalOpen None
    (modal_calls tg_world
       [CallOpenModal "newspaperModal"; CallCloseModal "calendarModal";
        CallOpenModal "feedbackModal"; CallOpenModal "noSuchModal";
        CallOpenModal "feedbackModal"]
       (ModalManager.new page))
  = JBool true /\
  body_overflow
    (ModalManager.document
       (modal_calls tg_world
          [CallOpenModal "newspaperModal"; CallCloseModal "calendarModal";
           CallOpenModal "feedbackModal"; CallOpenModal "noSuchModal";
           CallOpenModal "feedbackModal"]
          (ModalManager.new page)))
  = "hidden".
Proof.
  apply (active_modal_displayed tg_world page
           [CallOpenModal "newspaperModal"; CallCloseModal "calendarModal";
            CallOpenModal "feedbackModal"; CallOpenModal "noSuchModal";
            CallOpenModal "feedbackModal"] "feedbackModal").
  vm_compute. reflexivity.
Defined.

(** *** Closing every modal *)

Lemma update_first_at (id : string) (f : Element -> Element) (els : list Element)
    (i : nat) (e : Element) :
  els !! i = Some e -> el_id e = id ->
  (forall j e', (j < i)%nat -> els !! j = Some e' -> el_id e' <> id) ->
  DOM.update_first id f els = <[i := f e]> els /\
  List.find (fun e => String.eqb (el_id e) id) els = Some e.
Proof.
  revert i. induction els as [|e0 els IH]; intros i Hi Hid Hfirst; [done|].
  destruct i as [|i]; simpl in *.
  - injection Hi as ->. rewrite Hid, String.eqb_refl. by split.
  - destruct (String.eqb_spec (el_id e0) id) as [E|E].
    { by destruct (Hfirst 0%nat e0 ltac:(lia) eq_refl). }
    destruct (IH i Hi Hid) as [-> ->]; [|by split].
    intros j e' Hj. apply (Hfirst (S j)). lia.
Qed.

Lemma update_first_view (id : string) (f : Element -> Element) (els : list Element) :
  (forall e, modal_view (f e) = modal_view e) ->
  modal_view <$> DOM.update_first id f els = modal_view <$> els.
Proof.
  intros Hf. induction els as [|e els IH]; [reflexivity|]. simpl.
  destruct (String.eqb (el_id e) id); cbn [fmap list_fmap]; [by rewrite Hf|by f_equal].
Qed.

Lemma with_element_view (id : string) (f : Element -> Element) (d : Document) :
  (forall e, modal_view (f e) = modal_view e) ->
  modal_view <$> doc_elements (DOM.with_element id f d) = modal_view <$> doc_elements d.
Proof.
  intros Hf. unfold DOM.with_element. destruct (String.eqb id ""); [reflexivity|].
  by apply update_first_view.
Qed.

Lemma remove_view (names : list string) (e : Element) :
  "modal" ∉ names -> modal_view (DOM.remove names e) = modal_view e.
Proof.
  intros Hout. unfold modal_view, DOM.remove, DOM.contains. cbn [el_id display classList].
  f_equal. apply bool_decide_ext.
  rewrite elem_of_difference, elem_of_list_to_set. by split; [intros [? _]|].
Qed.

Lemma add_view (names : list string) (e : Element) :
  "modal" ∉ names -> modal_view (DOM.add names e) = modal_view e.
Proof.
  intros Hout. unfold modal_view, DOM.add, DOM.contains. cbn [el_id display classList].
  f_equal. apply bool_decide_ext.
  rewrite elem_of_union, elem_of_list_to_set. by split; [intros [?|?]|left].
Qed.

Lemma resetChatState_view (w : World) (d : Document) :
  modal_view <$> doc_elements (ModalManager.resetChatState w d)
  = modal_view <$> doc_elements d.
Proof.
  unfold ModalManager.resetChatState. destruct (TelegramWebApp w); [|reflexivity].
  rewrite !with_element_view; [reflexivity|..];
    intros e; apply remove_view; rewrite !not_elem_of_cons;
    repeat split; try done; apply not_elem_of_nil.
Qed.

Lemma closed_view_id (view : string * string * bool) :
  (closed_view view).1.1 = view.1.1 /\ (closed_view view).2 = view.2.
Proof.
  destruct view as [[id shown] modal]. simpl.
  by destruct (modal && String.eqb shown "block").
Qed.

Lemma closed_view_again (view : string * string * bool) :
  closed_view (closed_view view) = closed_view view.
Proof.
  destruct view as [[id shown] modal]. simpl.
  destruct (modal && String.eqb shown "block") eqn:E; simpl; [|by rewrite E].
  by rewrite andb_false_r.
Qed.

(** One step of [closeAllModals] at a modal that its id names. *)
Lemma close_each_step (w : World) (s s' : ModalManager.State) (i : nat)
    (id shown : string) :
  s' = match doc_elements (ModalManager.document s) !! i with
       | Some modal =>
           if String.eqb (display modal) "block"
           then ModalManager.closeModal w (el_id modal) s else s
       | None => s
       end ->
  (modal_view <$> doc_elements (ModalManager.document s)) !! i = Some (id, shown, true) ->
  id <> "" ->
  (forall j view, (j < i)%nat ->
     (modal_view <$> doc_elements (ModalManager.document s)) !! j = Some view ->
     view.1.1 <> id) ->
  forall j,
    (modal_view <$> doc_elements (ModalManager.document s')) !! j
    = if decide (i = j)
      then closed_view <$> (modal_view <$> doc_elements (ModalManager.document s)) !! j
      else (modal_view <$> doc_elements (ModalManager.document s)) !! j.
Proof.
  intros -> Hi Hid Hfirst j. rewrite list_lookup_fmap in Hi.
  destruct (doc_elements (ModalManager.document s) !! i) as [modal|] eqn:Hmodal;
    [|discriminate].
  injection Hi as <- <- Hclass.
  assert (forall j e', (j < i)%nat ->
            doc_elements (ModalManager.document s) !! j = Some e' ->
            el_id e' <> el_id modal) as Hfirst'.
  { intros j' e' Hlt He'. apply (Hfirst j' (modal_view e') Hlt).
    by rewrite list_lookup_fmap, He'. }
  destruct (String.eqb_spec (display modal) "block") as [Hshown|Hshown].
  - destruct (update_first_at (el_id modal) (DOM.set_display "none") _ i modal
                Hmodal eq_refl Hfirst') as [Hupdate Hfind].
    unfold ModalManager.closeModal, DOM.getElementById.
    destruct (String.eqb_spec (el_id modal) ""); [contradiction|]. rewrite Hfind.
    cbn [ModalManager.document DOM.set_overflow doc_elements].
    assert (modal_view <$> doc_elements
              (if String.eqb (el_id modal) "chatModal"
               then ModalManager.resetChatState w
                      (DOM.with_element (el_id modal) (DOM.set_display "none")
                         (ModalManager.document s))
               else DOM.with_element (el_id modal) (DOM.set_display "none")
                      (ModalManager.document s))
            = <[i := (el_id modal, "none", DOM.contains "modal" modal)]>
                (modal_view <$> doc_elements (ModalManager.document s))) as ->.
    { destruct (String.eqb (el_id modal) "chatModal"); rewrite ?resetChatState_view;
        unfold DOM.with_element; destruct (String.eqb_spec (el_id modal) "");
        try contradiction; cbn [doc_elements]; by rewrite Hupdate, list_fmap_insert. }
    rewrite list_lookup_insert, length_fmap.
    destruct (decide (i = j)) as [<-|Hne].
    + rewrite decide_True by (split; [done|by eapply lookup_lt_Some]).
      rewrite list_lookup_fmap, Hmodal. simpl. by rewrite Hclass, Hshown.
    + by rewrite decide_False by (intros [? _]; done).
  - destruct (decide (i = j)) as [<-|Hne]; [|reflexivity].
    rewrite list_lookup_fmap, Hmodal. simpl.
    destruct (String.eqb_spec (display modal) "block"); [contradiction|].
    by rewrite andb_false_r.
Qed.

Lemma close_each_view (w : World) (positions : list nat) (s : ModalManager.State) :
  (forall i, i ∈ positions ->
     exists id shown,
       (modal_view <$> doc_elements (ModalManager.document s)) !! i
       = Some (id, shown, true) /\
       id <> "" /\
       forall j view, (j < i)%nat ->
         (modal_view <$> doc_elements (ModalManager.document s)) !! j = Some view ->
         view.1.1 <> id) ->
  forall j,
    (modal_view <$> doc_elements
       (ModalManager.document (ModalManager.close_each w positions s))) !! j
    = if decide (j ∈ positions)
      then closed_view <$> (modal_view <$> doc_elements (ModalManager.document s)) !! j
      else (modal_view <$> doc_elements (ModalManager.document s)) !! j.
Proof.
  revert s. induction positions as [|i rest IH]; intros s Hnamed j.
  { rewrite decide_False by apply not_elem_of_nil. reflexivity. }
  cbn [ModalManager.close_each].
  remember (match doc_elements (ModalManager.document s) !! i with
            | Some modal =>
                if String.eqb (display modal) "block"
                then ModalManager.closeModal w (el_id modal) s else s
            | None => s
            end) as s' eqn:Hs'.
  destruct (Hnamed i ltac:(by left)) as (id & shown & Hi & Hid & Hfirst).
  pose proof (close_each_step w s s' i id shown Hs' Hi Hid Hfirst) as Hstep.
  clear Hs'.
  set (V := modal_view <$> doc_elements (ModalManager.document s)) in *.
  set (V' := modal_view <$> doc_elements (ModalManager.document s')) in *.
  assert (forall n view, V' !! n = Some view ->
            exists view0, V !! n = Some view0 /\
                          view.1.1 = view0.1.1 /\ view.2 = view0.2) as Hsame.
  { intros n view. rewrite Hstep. destruct (decide (i = n)) as [<-|_].
    - destruct (V !! i) as [view0|]; [|discriminate].
      intros [= <-]. exists view0. split; [reflexivity|]. apply closed_view_id.
    - intros Hn. by exists view. }
  rewrite (IH s').
  - fold V'. rewrite Hstep. destruct (decide (i = j)) as [<-|Hne].
    + destruct (decide (i ∈ i :: rest)) as [_|Hout]; [|by destruct Hout; left].
      destruct (decide (i ∈ rest)); [|reflexivity].
      destruct (V !! i); [|reflexivity]. simpl. by rewrite closed_view_again.
    + destruct (decide (j ∈ rest)) as [Hin|Hout],
        (decide (j ∈ i :: rest)) as [Hin'|Hout']; try reflexivity.
      * destruct Hout'. by right.
      * apply elem_of_cons in Hin' as [->|?]; done.
  - intros k Hk. fold V'.
    destruct (Hnamed k ltac:(by right)) as (idk & shownk & Hkv & Hidk & Hfirstk).
    fold V in Hkv, Hfirstk.
    destruct (V' !! k) as [[[idk' shownk'] modalk']|] eqn:Hk'.
    + destruct (Hsame k _ Hk') as (view0 & Hv0 & Hid0 & Hm0).
      rewrite Hkv in Hv0. injection Hv0 as <-. simpl in Hid0, Hm0. subst idk' modalk'.
      exists idk, shownk'. split; [reflexivity|]. split; [assumption|].
      intros n view Hlt Hn. destruct (Hsame n view Hn) as (view1 & Hv1 & Hid1 & _).
      rewrite Hid1. by apply (Hfirstk n view1 Hlt).
    + rewrite Hstep, Hkv in Hk'. by destruct (decide (i = k)).
Qed.

Lemma positions_of_class_spec (name : string) (els : list Element) (k i : nat) :
  i ∈ DOM.positions_of_class name k els <->
  (k <= i)%nat /\ exists e, els !! (i - k)%nat = Some e /\ DOM.contains name e = true.
Proof.
  revert k. induction els as [|e els IH]; intros k; simpl.
  - split; [by intros ?%elem_of_nil|by intros (_ & ? & ? & _)].
  - assert (i ∈ DOM.positions_of_class name (S k) els <->
            (k < i)%nat /\ exists e', (e :: els) !! (i - k)%nat = Some e' /\
                                      DOM.contains name e' = true) as Hrest.
    { rewrite IH. split.
      - intros (Hle & e' & He' & Hc). split; [lia|]. exists e'. split; [|done].
        replace (i - k)%nat with (S (i - S k)) by lia. done.
      - intros (Hlt & e' & He' & Hc). split; [lia|]. exists e'. split; [|done].
        replace (i - k)%nat with (S (i - S k)) in He' by lia. done. }
    destruct (DOM.contains name e) eqn:Hc.
    + rewrite elem_of_cons, Hrest. split.
      * intros [->|(Hlt & e' & He' & Hc')].
        -- split; [lia|]. exists e. by rewrite Nat.sub_diag.
        -- split; [lia|]. by exists e'.
      * intros (Hle & e' & He' & Hc').
        destruct (decide (i = k)) as [->|Hne]; [by left|].
        right. split; [lia|]. by exists e'.
    + rewrite Hrest. split.
      * intros (Hlt & e' & He' & Hc'). split; [lia|]. by exists e'.
      * intros (Hle & e' & He' & Hc').
        destruct (decide (i = k)) as [->|Hne].
        -- rewrite Nat.sub_diag in He'. simpl in He'. injection He' as <-. congruence.
        -- split; [lia|]. by exists e'.
Qed.

(** X25. [closeAllModals] on a page where every element of class [modal]
    has an id that names it (none before it has the same): afterwards no
    element of class [modal] is on display. Every modal that was on
    display has the display [none], and every other element, modal or not,
    has the display it had; no id and no membership of the class has
    changed. *)
Theorem closeAllModals_closes (w : World) (s : ModalManager.State) :
  (forall i e,
     doc_elements (ModalManager.document s) !! i = Some e ->
     DOM.contains "modal" e = true ->
     named_by_id (ModalManager.document s) i) ->
  (forall i e,
     doc_elements (ModalManager.document s) !! i = Some e ->
     exists e',
       doc_elements (ModalManager.document (ModalManager.closeAllModals w s)) !! i
       = Some e' /\
       el_id e' = el_id e /\
       DOM.contains "modal" e' = DOM.contains "modal" e /\
       display e' = if DOM.contains "modal" e && String.eqb (display e) "block"
                    then "none" else display e) /\
  (forall e',
     e' ∈ doc_elements (ModalManager.document (ModalManager.closeAllModals w s)) ->
     DOM.contains "modal" e' = true -> display e' <> "block").
Proof.
  intros Hnamed.
  assert (forall j,
            (modal_view <$> doc_elements
               (ModalManager.document (ModalManager.closeAllModals w s))) !! j
            = closed_view <$>
                (modal_view <$> doc_elements (ModalManager.document s)) !! j) as Hview.
  { intros j. unfold ModalManager.closeAllModals. rewrite close_each_view.
    - destruct (decide (j ∈ _)) as [_|Hout]; [reflexivity|].
      rewrite list_lookup_fmap.
      destruct (doc_elements (ModalManager.document s) !! j) as [e|] eqn:He;
        [|reflexivity].
      simpl. destruct (DOM.contains "modal" e) eqn:Hc; [|reflexivity].
      destruct Hout. apply positions_of_class_spec. split; [lia|].
      exists e. by rewrite Nat.sub_0_r.
    - intros i Hi. apply positions_of_class_spec in Hi as (_ & e & He & Hc).
      rewrite Nat.sub_0_r in He.
      destruct (Hnamed i e He Hc) as (e0 & He0 & Hid & Hfirst).
      rewrite He in He0. injection He0 as <-.
      exists (el_id e), (display e). rewrite list_lookup_fmap, He.
      change (modal_view <$> Some e) with (Some (modal_view e)).
      split; [by unfold modal_view; rewrite Hc|]. split; [assumption|].
      intros n view Hlt. rewrite list_lookup_fmap.
      destruct (doc_elements (ModalManager.document s) !! n) as [e'|] eqn:He';
        [|discriminate].
      intros [= <-]. simpl. by apply (Hfirst n e' Hlt). }
  assert (forall i e,
            doc_elements (ModalManager.document s) !! i = Some e ->
            exists e',
              doc_elements (ModalManager.document (ModalManager.closeAllModals w s)) !! i
              = Some e' /\
              modal_view e' = closed_view (modal_view e)) as Hat.
  { intros i e He. specialize (Hview i). rewrite !list_lookup_fmap, He in Hview.
    destruct (doc_elements (ModalManager.document (ModalManager.closeAllModals w s)) !! i)
      as [e'|]; [|discriminate].
    injection Hview as Hview. by exists e'. }
  split.
  - intros i e He. destruct (Hat i e He) as (e' & He' & Hv). exists e'.
    split; [assumption|]. unfold modal_view, closed_view in Hv.
    destruct (DOM.contains "modal" e && String.eqb (display e) "block");
      injection Hv as -> -> ->; by repeat split.
  - intros e' Hin Hc Hshown.
    apply list_elem_of_lookup in Hin as [i He'].
    specialize (Hview i). rewrite !list_lookup_fmap, He' in Hview.
    destruct (doc_elements (ModalManager.document s) !! i) as [e|]; [|discriminate].
    injection Hview as Hview. unfold modal_view, closed_view in Hview.
    rewrite Hc, Hshown in Hview.
    destruct (DOM.contains "modal" e && String.eqb (display e) "block") eqn:E;
      [discriminate|].
    injection Hview as _ Hd Hm. rewrite <- Hd, <- Hm in E. discriminate.
Qed.

Lemma closeAllModals_closes_witness :
  exists e',
    doc_elements (ModalManager.document (ModalManager.closeAllModals tg_world two_modals))
      !! 3%nat = Some e' /\
    el_id e' = "chatModal" /\
    DOM.contains "modal" e' = true /\
    display e' = "none".
Proof.
  refine (proj1 (closeAllModals_closes tg_world two_modals _) 3%nat
            {| el_id := "chatModal"; classList := {["modal"]}; display := "block" |} _).
  - intros i e Hi Hc. unfold named_by_id.
    change (doc_elements (ModalManager.document two_modals))
      with [{| el_id := "newspaperModal"; classList := {["modal"]}; display := "block" |};
            {| el_id := "calendarModal"; classList := {["modal"]}; display := "" |};
            {| el_id := "feedbackModal"; classList := {["modal"]}; display := "" |};
            {| el_id := "chatModal"; classList := {["modal"]}; display := "block" |};
            {| el_id := "chatHeader"; classList := {["chat-header"]}; display := "" |};
            {| el_id := "chatMessages"; classList := {["chat-messages"]}; display := "" |};
            {| el_id := "chatInputContainer"; classList := {["chat-input-container"]};
               display := "" |}] in *.
    do 7 (destruct i as [|i];
          [injection Hi as <-;
           first [ by vm_compute in Hc
                 | eexists; split; [reflexivity|]; split; [discriminate|];
                   intros j e' Hlt Hj;
                   do 4 (destruct j as [|j];
                         [first [lia|injection Hj as <-; simpl; discriminate]|]);
                   lia ]|]).
    discriminate Hi.
  - reflexivity.
Defined.

(** *** The keyboard *)

Lemma update_first_comm (a b : string) (f g : Element -> Element) (els : list Element) :
  a <> b ->
  (forall e, el_id (f e) = el_id e) -> (forall e, el_id (g e) = el_id e) ->
  DOM.update_first a f (DOM.update_first b g els)
  = DOM.update_first b g (DOM.update_first a f els).
Proof.
  intros Hne Hf Hg. induction els as [|e els IH]; [reflexivity|]. simpl.
  destruct (String.eqb_spec (el_id e) b) as [Eb|Eb];
    destruct (String.eqb_spec (el_id e) a) as [Ea|Ea]; simpl.
  - congruence.
  - rewrite Hg. destruct (String.eqb_spec (el_id e) a); [contradiction|].
    destruct (String.eqb_spec (el_id e) b); [reflexivity|contradiction].
  - rewrite Hf. destruct (String.eqb_spec (el_id e) b); [contradiction|].
    destruct (String.eqb_spec (el_id e) a); [reflexivity|contradiction].
  - destruct (String.eqb_spec (el_id e) a); [contradiction|].
    destruct (String.eqb_spec (el_id e) b); [contradiction|]. by rewrite IH.
Qed.

Lemma update_first_cancel (id : string) (f g : Element -> Element) (els : list Element) :
  (forall e, el_id (f e) = el_id e) ->
  (forall e, e ∈ els -> g (f e) = e) ->
  DOM.update_first id g (DOM.update_first id f els) = els.
Proof.
  intros Hf Hgf. induction els as [|e els IH]; [reflexivity|]. simpl.
  destruct (String.eqb (el_id e) id) eqn:E; simpl.
  - rewrite Hf, E. rewrite Hgf; [reflexivity|by left].
  - rewrite E, IH; [reflexivity|]. intros e' He'. apply Hgf. by right.
Qed.

Lemma add_id (names : list string) (e : Element) : el_id (DOM.add names e) = el_id e.
Proof. reflexivity. Qed.

Lemma remove_id (names : list string) (e : Element) : el_id (DOM.remove names e) = el_id e.
Proof. reflexivity. Qed.

Lemma remove_add (names names' : list string) (e : Element) :
  (forall name, name ∈ names -> name ∉ classList e) ->
  (forall name, name ∈ names' -> name ∈ names) ->
  DOM.remove names (DOM.add names' e) = e.
Proof.
  intros Hout Hsub. destruct e as [id classes shown]. unfold DOM.remove, DOM.add.
  cbn [el_id classList display] in *. f_equal. apply set_eq. intros x.
  rewrite elem_of_difference, elem_of_union, !elem_of_list_to_set. split.
  - intros [[?|Hx] Hnot]; [done|]. destruct Hnot. by apply Hsub.
  - intros Hx. split; [by left|]. intros Hin. by apply (Hout x).
Qed.

Lemma add_add (names names' : list string) (e : Element) :
  DOM.add names' (DOM.add names e) = DOM.add (names ++ names') e.
Proof.
  unfold DOM.add. cbn [el_id classList display]. f_equal. apply set_eq. intros x.
  rewrite !elem_of_union, !elem_of_list_to_set, elem_of_app. tauto.
Qed.

(** What the opening keyboard does to the messages, as one [add]. *)
Lemma keyboard_shown_messages (e : Element) :
  (let shown := DOM.add ["header-hidden"] e in
   if DOM.contains "has-preview" shown then DOM.add ["keyboard-open"] shown else shown)
  = DOM.add (if DOM.contains "has-preview" e then ["header-hidden"; "keyboard-open"]
             else ["header-hidden"]) e.
Proof.
  cbv zeta.
  assert (DOM.contains "has-preview" (DOM.add ["header-hidden"] e)
          = DOM.contains "has-preview" e) as ->.
  { unfold DOM.contains, DOM.add. cbn [classList]. apply bool_decide_ext.
    rewrite elem_of_union, elem_of_list_to_set, list_elem_of_singleton.
    split; [by intros [?|?]|by left]. }
  destruct (DOM.contains "has-preview" e); [|reflexivity]. by rewrite add_add.
Qed.

Lemma update_first_ext (id : string) (f g : Element -> Element) (els : list Element) :
  (forall e, f e = g e) -> DOM.update_first id f els = DOM.update_first id g els.
Proof.
  intros Hfg. induction els as [|e els IH]; [reflexivity|]. simpl.
  destruct (String.eqb (el_id e) id); [by rewrite Hfg|by rewrite IH].
Qed.

(** The toggle while the chat is on display. *)
Lemma handleKeyboardToggle_shown (v : Viewport) (d : Document) (chatModal : Element) :
  DOM.getElementById "chatModal" d = Some chatModal ->
  display chatModal = "block" ->
  handleKeyboardToggle v d
  = {| doc_elements :=
         if isKeyboardOpen v then
           DOM.update_first "chatInputContainer" (DOM.add ["keyboard-open"])
             (DOM.update_first "chatMessages"
                (fun e => DOM.add (if DOM.contains "has-preview" e
                                   then ["header-hidden"; "keyboard-open"]
                                   else ["header-hidden"]) e)
                (DOM.update_first "chatHeader" (DOM.add ["keyboard-hidden"])
                   (doc_elements d)))
         else
           DOM.update_first "chatInputContainer" (DOM.remove ["keyboard-open"])
             (DOM.update_first "chatMessages"
                (DOM.remove ["header-hidden"; "keyboard-open"])
                (DOM.update_first "chatHeader" (DOM.remove ["keyboard-hidden"])
                   (doc_elements d)));
       body_overflow := body_overflow d |}.
Proof.
  intros Hmodal Hshown. unfold handleKeyboardToggle. rewrite Hmodal, Hshown.
  cbn [String.eqb Ascii.eqb Bool.eqb]. unfold DOM.with_element.
  cbn [String.eqb doc_elements body_overflow].
  destruct (isKeyboardOpen v); [|reflexivity].
  f_equal. f_equal. apply update_first_ext. intros e. apply keyboard_shown_messages.
Qed.

Lemma getElementById_update_first (id id' : string) (f : Element -> Element)
    (els : list Element) (overflow : string) :
  (forall e, el_id (f e) = el_id e) ->
  DOM.getElementById id
    {| doc_elements := DOM.update_first id' f els; body_overflow := overflow |}
  = if String.eqb id id'
    then f <$> DOM.getElementById id {| doc_elements := els; body_overflow := overflow |}
    else DOM.getElementById id {| doc_elements := els; body_overflow := overflow |}.
Proof.
  intros Hf. unfold DOM.getElementById. destruct (String.eqb id "") eqn:E.
  { by destruct (String.eqb id id'). }
  cbn [doc_elements]. destruct (String.eqb_spec id id') as [<-|Hne].
  - by apply find_update_first_same.
  - by apply find_update_first_other.
Qed.

Lemma keyboard_classes_out (d : Document) (e : Element) (name : string) :
  Forall (fun e => classList e ## keyboard_classes) (doc_elements d) ->
  e ∈ doc_elements d ->
  name ∈ ["keyboard-hidden"; "header-hidden"; "keyboard-open"] ->
  name ∉ classList e.
Proof.
  intros Hall He Hname Hin. rewrite Forall_forall in Hall.
  apply (Hall e He name Hin). unfold keyboard_classes.
  rewrite !elem_of_cons in Hname. rewrite !elem_of_union, !elem_of_singleton.
  destruct Hname as [->|[->|[->|Hnil]]]; [by left; left|by left; right|by right|].
  by apply elem_of_nil in Hnil.
Qed.

(** X26. The keyboard comes and goes while the chat is on display, on a
    page that carries none of the keyboard classes. When the window
    shrinks by more than the threshold the header gets [keyboard-hidden],
    the messages get [header-hidden], and [keyboard-open] too when they
    are in preview mode, and the input area gets [keyboard-open]; the same
    height measured again changes nothing. When the window is back within
    the threshold the page and the state of the adapter are what they were
    before, class for class. *)
Theorem keyboard_round_trip (v : Viewport) (d : Document) (chatModal : Element)
    (opened closed : Z) :
  DOM.getElementById "chatModal" d = Some chatModal ->
  display chatModal = "block" ->
  isKeyboardOpen v = false ->
  initialViewportHeight v - opened > keyboardThreshold ->
  initialViewportHeight v - closed <= keyboardThreshold ->
  Forall (fun e => classList e ## keyboard_classes) (doc_elements d) ->
  exists v1 d1,
    detectKeyboardState opened v d = (v1, d1) /\
    isKeyboardOpen v1 = true /\
    DOM.getElementById "chatHeader" d1
    = DOM.add ["keyboard-hidden"] <$> DOM.getElementById "chatHeader" d /\
    DOM.getElementById "chatMessages" d1
    = (fun e => DOM.add (if DOM.contains "has-preview" e
                         then ["header-hidden"; "keyboard-open"]
                         else ["header-hidden"]) e)
      <$> DOM.getElementById "chatMessages" d /\
    DOM.getElementById "chatInputContainer" d1
    = DOM.add ["keyboard-open"] <$> DOM.getElementById "chatInputContainer" d /\
    detectKeyboardState opened v1 d1 = (v1, d1) /\
    detectKeyboardState closed v1 d1 = (v, d).
Proof.
  intros Hmodal Hshown Hdown Hopened Hclosed Hclean.
  assert ((initialViewportHeight v - opened >? keyboardThreshold) = true) as Hgt
    by (rewrite Z.gtb_ltb; apply Z.ltb_lt; lia).
  assert ((initialViewportHeight v - closed >? keyboardThreshold) = false) as Hle
    by (rewrite Z.gtb_ltb; apply Z.ltb_ge; lia).
  destruct v as [initial open]. cbn [initialViewportHeight isKeyboardOpen] in *. subst open.
  destruct d as [els overflow]. cbn [doc_elements] in Hclean.
  unfold detectKeyboardState at 1. cbn [initialViewportHeight isKeyboardOpen].
  rewrite Hgt. cbn [Bool.eqb].
  rewrite (handleKeyboardToggle_shown _ _ chatModal Hmodal Hshown).
  cbn [isKeyboardOpen doc_elements body_overflow].
  eexists _, _. split; [reflexivity|]. split; [reflexivity|].
  split; [|split; [|split; [|split]]].
  - by rewrite !getElementById_update_first.
  - by rewrite !getElementById_update_first.
  - by rewrite !getElementById_update_first.
  - unfold detectKeyboardState. cbn [initialViewportHeight isKeyboardOpen].
    by rewrite Hgt.
  - unfold detectKeyboardState. cbn [initialViewportHeight isKeyboardOpen].
    rewrite Hle. cbn [Bool.eqb].
    rewrite (handleKeyboardToggle_shown _ _ chatModal);
      [|by rewrite !getElementById_update_first|assumption].
    cbn [isKeyboardOpen doc_elements body_overflow]. f_equal. f_equal.
    rewrite (update_first_comm "chatHeader" "chatInputContainer") by done.
    rewrite (update_first_comm "chatHeader" "chatMessages") by done.
    rewrite (update_first_cancel "chatHeader"); [|done|].
    2:{ intros e He. apply remove_add; [|done].
        intros name Hname. apply (keyboard_classes_out {| doc_elements := els;
                                                          body_overflow := overflow |});
          [assumption|assumption|].
        apply list_elem_of_singleton in Hname as ->. by left. }
    rewrite (update_first_comm "chatMessages" "chatInputContainer") by done.
    rewrite (update_first_cancel "chatMessages"); [|done|].
    2:{ intros e He. apply remove_add.
        - intros name Hname.
          apply (keyboard_classes_out {| doc_elements := els; body_overflow := overflow |});
            [assumption|assumption|].
          by right.
        - intros name. destruct (DOM.contains "has-preview" e); [done|].
          intros ->%list_elem_of_singleton. by left. }
    rewrite (update_first_cancel "chatInputContainer"); [reflexivity|done|].
    intros e He. apply remove_add; [|done].
    intros name Hname.
    apply (keyboard_classes_out {| doc_elements := els; body_overflow := overflow |});
      [assumption|assumption|].
    apply list_elem_of_singleton in Hname as ->. by right; right; left.
Qed.

Lemma keyboard_round_trip_witness :
  exists v1 d1,
    detectKeyboardState 480 keyboard_down chat_page = (v1, d1) /\
    isKeyboardOpen v1 = true /\
    DOM.getElementById "chatHeader" d1
    = DOM.add ["keyboard-hidden"] <$> DOM.getElementById "chatHeader" chat_page /\
    DOM.getElementById "chatMessages" d1
    = (fun e => DOM.add (if DOM.contains "has-preview" e
                         then ["header-hidden"; "keyboard-open"]
                         else ["header-hidden"]) e)
      <$> DOM.getElementById "chatMessages" chat_page /\
    DOM.getElementById "chatInputContainer" d1
    = DOM.add ["keyboard-open"] <$> DOM.getElementById "chatInputContainer" chat_page /\
    detectKeyboardState 480 v1 d1 = (v1, d1) /\
    detectKeyboardState 800 v1 d1 = (keyboard_down, chat_page).
Proof.
  apply (keyboard_round_trip keyboard_down chat_page
           {| el_id := "chatModal"; classList := {["modal"]}; display := "block" |}).
  - reflexivity.
  - reflexivity.
  - reflexivity.
  - vm_compute. reflexivity.
  - vm_compute. discriminate.
  - apply (bool_decide_unpack _). vm_compute. reflexivity.
Defined.

(** *** The preview mode and the keyboard *)

Lemma setPreviewMode_elements (enabled : bool) (els : list Element) (overflow : string) :
  setPreviewMode enabled {| doc_elements := els; body_overflow := overflow |}
  = {| doc_elements :=
         DOM.update_first "chatMessages"
           (if enabled then DOM.add ["has-preview"] else DOM.remove ["has-preview"])
           (DOM.update_first "chatInputContainer"
              (if enabled then DOM.add ["has-preview"] else DOM.remove ["has-preview"])
              els);
       body_overflow := overflow |}.
Proof. by destruct enabled. Qed.

Lemma contains_add (name : string) (names : list string) (e : Element) :
  DOM.contains name (DOM.add names e)
  = DOM.contains name e || bool_decide (name ∈ names).
Proof.
  unfold DOM.contains, DOM.add. cbn [classList].
  destruct (decide (name ∈ classList e)) as [Hin|Hout];
    destruct (decide (name ∈ names)) as [Hin'|Hout'];
    rewrite ?(bool_decide_eq_true_2 _ Hin), ?(bool_decide_eq_false_2 _ Hout),
      ?(bool_decide_eq_true_2 _ Hin'), ?(bool_decide_eq_false_2 _ Hout'); cbn [orb].
  - apply bool_decide_eq_true_2. apply elem_of_union. by left.
  - apply bool_decide_eq_true_2. apply elem_of_union. by left.
  - apply bool_decide_eq_true_2. apply elem_of_union. right.
    by apply elem_of_list_to_set.
  - apply bool_decide_eq_false_2. rewrite elem_of_union, elem_of_list_to_set. tauto.
Qed.

Lemma contains_remove (name : string) (names : list string) (e : Element) :
  DOM.contains name (DOM.remove names e)
  = DOM.contains name e && negb (bool_decide (name ∈ names)).
Proof.
  unfold DOM.contains, DOM.remove. cbn [classList].
  destruct (decide (name ∈ classList e)) as [Hin|Hout];
    destruct (decide (name ∈ names)) as [Hin'|Hout'];
    rewrite ?(bool_decide_eq_true_2 _ Hin), ?(bool_decide_eq_false_2 _ Hout),
      ?(bool_decide_eq_true_2 _ Hin'), ?(bool_decide_eq_false_2 _ Hout');
    cbn [andb negb].
  - apply bool_decide_eq_false_2. rewrite elem_of_difference, elem_of_list_to_set. tauto.
  - apply bool_decide_eq_true_2. rewrite elem_of_difference, elem_of_list_to_set. tauto.
  - apply bool_decide_eq_false_2. rewrite elem_of_difference. tauto.
  - apply bool_decide_eq_false_2. rewrite elem_of_difference. tauto.
Qed.

(** X27. Whether the messages carry [keyboard-open] is settled at the
    moment the keyboard opens, by the preview mode of that moment. A
    picture chosen before the keyboard opens gives the messages
    [keyboard-open]; the same picture chosen after the keyboard has opened
    does not, though the preview mode and the keyboard are then the same;
    and taking the picture away while the keyboard is open leaves
    [keyboard-open] on the messages. *)
Theorem keyboard_open_by_order (v : Viewport) (d : Document)
    (chatModal chatMessages : Element) (opened : Z) :
  DOM.getElementById "chatModal" d = Some chatModal ->
  display chatModal = "block" ->
  DOM.getElementById "chatMessages" d = Some chatMessages ->
  DOM.contains "has-preview" chatMessages = false ->
  DOM.contains "keyboard-open" chatMessages = false ->
  isKeyboardOpen v = false ->
  initialViewportHeight v - opened > keyboardThreshold ->
  let picture_first := (detectKeyboardState opened v (setPreviewMode true d)).2 in
  let keyboard_first := setPreviewMode true (detectKeyboardState opened v d).2 in
  (exists e, DOM.getElementById "chatMessages" picture_first = Some e /\
             DOM.contains "has-preview" e = true /\
             DOM.contains "header-hidden" e = true /\
             DOM.contains "keyboard-open" e = true) /\
  (exists e, DOM.getElementById "chatMessages" keyboard_first = Some e /\
             DOM.contains "has-preview" e = true /\
             DOM.contains "header-hidden" e = true /\
             DOM.contains "keyboard-open" e = false) /\
  (exists e, DOM.getElementById "chatMessages" (setPreviewMode false picture_first)
             = Some e /\
             DOM.contains "has-preview" e = false /\
             DOM.contains "keyboard-open" e = true).
Proof.
  intros Hmodal Hshown Hmessages Hpreview Hkeyboard Hdown Hopened.
  assert ((initialViewportHeight v - opened >? keyboardThreshold) = true) as Hgt
    by (rewrite Z.gtb_ltb; apply Z.ltb_lt; lia).
  destruct d as [els overflow].
  unfold detectKeyboardState. rewrite Hdown, Hgt. cbn [Bool.eqb isKeyboardOpen snd].
  rewrite (handleKeyboardToggle_shown _ _ chatModal Hmodal Hshown).
  rewrite (handleKeyboardToggle_shown _ (setPreviewMode true _) chatModal);
    [|by rewrite setPreviewMode_elements, !getElementById_update_first|assumption].
  cbn [isKeyboardOpen body_overflow]. rewrite !setPreviewMode_elements.
  cbn [doc_elements body_overflow].
  split; [|split].
  - rewrite !getElementById_update_first by done. cbn [String.eqb Ascii.eqb Bool.eqb].
    rewrite Hmessages. cbn [fmap option_fmap option_map]. cbv beta.
    eexists. split; [reflexivity|].
    rewrite (contains_add "has-preview" ["has-preview"]).
    rewrite Hpreview. cbn [orb].
    rewrite !contains_add, Hpreview, Hkeyboard.
    destruct (DOM.contains "header-hidden" chatMessages);
      repeat split; vm_compute; reflexivity.
  - rewrite !getElementById_update_first by done. cbn [String.eqb Ascii.eqb Bool.eqb].
    rewrite Hmessages. cbn [fmap option_fmap option_map]. cbv beta.
    eexists. split; [reflexivity|].
    rewrite Hpreview. rewrite !contains_add, Hpreview, Hkeyboard.
    destruct (DOM.contains "header-hidden" chatMessages);
      repeat split; vm_compute; reflexivity.
  - rewrite !getElementById_update_first by done. cbn [String.eqb Ascii.eqb Bool.eqb].
    rewrite Hmessages. cbn [fmap option_fmap option_map]. cbv beta.
    eexists. split; [reflexivity|].
    rewrite (contains_add "has-preview" ["has-preview"]).
    rewrite Hpreview. cbn [orb].
    rewrite !contains_remove, !contains_add, Hpreview, Hkeyboard.
    split; vm_compute; reflexivity.
Qed.

Lemma keyboard_open_by_order_witness :
  (exists e, DOM.getElementById "chatMessages"
               (detectKeyboardState 480 keyboard_down (setPreviewMode true chat_page)).2
             = Some e /\
             DOM.contains "has-preview" e = true /\
             DOM.contains "header-hidden" e = true /\
             DOM.contains "keyboard-open" e = true) /\
  (exists e, DOM.getElementById "chatMessages"
               (setPreviewMode true (detectKeyboardState 480 keyboard_down chat_page).2)
             = Some e /\
             DOM.contains "has-preview" e = true /\
             DOM.contains "header-hidden" e = true /\
             DOM.contains "keyboard-open" e = false) /\
  (exists e, DOM.getElementById "chatMessages"
               (setPreviewMode false
                  (detectKeyboardState 480 keyboard_down (setPreviewMode true chat_page)).2)
             = Some e /\
             DOM.contains "has-preview" e = false /\
             DOM.contains "keyboard-open" e = true).
Proof.
  apply (keyboard_open_by_order keyboard_down chat_page
           {| el_id := "chatModal"; classList := {["modal"]}; display := "block" |}
           {| el_id := "chatMessages"; classList := {["chat-messages"]}; display := "" |}).
  - reflexivity.
  - reflexivity.
  - reflexivity.
  - vm_compute. reflexivity.
  - vm_compute. reflexivity.
  - reflexivity.
  - vm_compute. reflexivity.
Defined.
